(** * muindb: multi-source genre classification, matching and enrichment

    A shallow embedding of the algorithmic core of the repository:

    - [phase2/src/api/enhanced_genius_client.py]: title cleaning, search-query
      generation, the fuzzy title/artist matcher and the search loop;
    - [phase3/src/api/producer_genre_patterns.py]: producer signatures;
    - [phase3/src/ml_subgenre_classifier.py]: the two-stage subgenre classifier;
    - [phase3/src/api/lastfm_genre_client.py]: the analysis of community tags;
    - [phase3/scripts/genre_classification_system.py]: the weighted reasoning
      engine, crossover detection, the persisted-classification check, source
      polling with its cache, and the A&R insights.

    Modelling conventions.
    - Python [str] values are Rocq [string]s read as ASCII text: [lower],
      [strip], the classes [\s] and [\w] follow Python on code points below
      128; bytes above 127 are inert (neither space, word character nor
      letter).
    - Python floats are rationals ([Q]). Where the code multiplies, adds or
      divides floats and the rounding can change the result (the tolerance
      of the rule profiles, the mean of the producer confidences, the
      two-decimal column read back from SQLite), the operations are those
      of [Float]: IEEE 754 binary64, round to nearest, ties to even.
      Elsewhere the arithmetic is exact.
    - A [dict] whose iteration order the code relies on is an association
      list in insertion order; dicts that are only looked up are [gmap]s.
    - The iteration order of a Python [set] of strings depends on the
      per-process string hash seed; it is an explicit parameter.
    - Regular expressions are abstract syntax trees interpreted by a
      backtracking matcher with the leftmost, greedy/lazy semantics of
      Python's [re]. *)

From Stdlib Require Import List String Ascii ZArith QArith Qminmax Qabs Bool Lia Lqa Permutation Sorted.
From stdpp Require Import base strings gmap.
Import ListNotations.
Open Scope string_scope.
Open Scope list_scope.

(** ** Python string primitives (ASCII) *)

Module Py.

(** [str.isspace] on one ASCII character: TAB, LF, VT, FF, CR, FS, GS, RS, US
    and space. The class [\s] of [re] is the same set. *)
Definition is_space (c : ascii) : bool :=
  let n := nat_of_ascii c in
  (((9 <=? n) && (n <=? 13)) || ((28 <=? n) && (n <=? 32)))%nat.

Definition is_upper (c : ascii) : bool :=
  let n := nat_of_ascii c in ((65 <=? n) && (n <=? 90))%nat.

Definition is_lower (c : ascii) : bool :=
  let n := nat_of_ascii c in ((97 <=? n) && (n <=? 122))%nat.

Definition is_digit (c : ascii) : bool :=
  let n := nat_of_ascii c in ((48 <=? n) && (n <=? 57))%nat.

(** The class [\w]: letters, digits and the underscore. *)
Definition is_word (c : ascii) : bool :=
  is_upper c || is_lower c || is_digit c || Ascii.eqb c "_".

Definition lower_char (c : ascii) : ascii :=
  if is_upper c then ascii_of_nat (nat_of_ascii c + 32) else c.

(** [s.lower()] *)
Fixpoint lower (s : string) : string :=
  match s with
  | EmptyString => EmptyString
  | String c s' => String (lower_char c) (lower s')
  end.

(** [s.lstrip()] *)
Fixpoint lstrip (s : string) : string :=
  match s with
  | EmptyString => EmptyString
  | String c s' => if is_space c then lstrip s' else s
  end.

(** [s.rstrip()]: a character is dropped when it is a space and everything
    after it has been dropped. *)
Fixpoint rstrip (s : string) : string :=
  match s with
  | EmptyString => EmptyString
  | String c s' =>
      match rstrip s' with
      | EmptyString => if is_space c then EmptyString else String c EmptyString
      | t => String c t
      end
  end.

(** [s.strip()] *)
Definition strip (s : string) : string := rstrip (lstrip s).

(** [s.startswith(p)] *)
Fixpoint startswith (p s : string) : bool :=
  match p, s with
  | EmptyString, _ => true
  | String a p', String b s' => Ascii.eqb a b && startswith p' s'
  | String _ _, EmptyString => false
  end.

(** [p in s] for strings: [p] occurs as a contiguous substring of [s]. *)
Fixpoint contains (p s : string) : bool :=
  startswith p s ||
  match s with
  | EmptyString => false
  | String _ s' => contains p s'
  end.

(** [s.split(sep)[0]] for a one-character separator: the text before the
    first occurrence of [sep], or all of [s]. *)
Fixpoint split_first (sep : ascii) (s : string) : string :=
  match s with
  | EmptyString => EmptyString
  | String c s' => if Ascii.eqb c sep then EmptyString else String c (split_first sep s')
  end.

(** Truthiness of a string: [bool(s)]. *)
Definition truthy (s : string) : bool :=
  match s with EmptyString => false | _ => true end.

(** Every character of the string is whitespace (the empty string included):
    [s.strip() == ''] in Python. *)
Fixpoint all_space (s : string) : bool :=
  match s with
  | EmptyString => true
  | String c s' => is_space c && all_space s'
  end.

End Py.

(** ** A backtracking matcher for the fragment of [re] the code uses *)

Module Re.

Inductive regex : Type :=
| Eps
| Chr (c : ascii)                 (* a literal character *)
| Cls (p : ascii -> bool)         (* a character class *)
| Seq (a b : regex)
| Alt (a b : regex)               (* a|b, left alternative first *)
| Star (greedy : bool) (a : regex)(* a* and a*? *)
| Bol                             (* ^ *)
| Eol                             (* $ *)
| WordB.                          (* \b *)

(** The matcher state between two characters: the character just before the
    position (None at the start of the text) and the rest of the text. *)
Definition result : Type := option (option ascii * string).
Definition cont : Type := option ascii -> string -> result.

Definition char_eq (ic : bool) (c x : ascii) : bool :=
  if ic then Ascii.eqb (Py.lower_char c) (Py.lower_char x) else Ascii.eqb c x.

Definition is_word_opt (o : option ascii) : bool :=
  match o with Some c => Py.is_word c | None => false end.

Definition head (s : string) : option ascii :=
  match s with EmptyString => None | String c _ => Some c end.

Definition newline : ascii := "010"%char.

Definition or_else (a : result) (b : unit -> result) : result :=
  match a with Some x => Some x | None => b tt end.

(** The iterations of a star. [step] matches the body once; an iteration
    must consume at least one character, so [n], the number of characters
    left when the star is entered, bounds the number of iterations. A greedy
    star tries one more iteration before it tries the continuation, a lazy
    one the continuation first. *)
Fixpoint star_loop (step : option ascii -> string -> cont -> result) (greedy : bool)
    (k : cont) (n : nat) (prev : option ascii) (s : string) {struct n} : result :=
  match n with
  | O => k prev s
  | S n' =>
      let again (_ : unit) :=
        step prev s
          (fun p' s' =>
             if (String.length s' <? String.length s)%nat
             then star_loop step greedy k n' p' s' else None) in
      if greedy then or_else (again tt) (fun _ => k prev s)
      else or_else (k prev s) again
  end.

(** [rmatch ic r prev s k]: match [r] at the current position, then the
    continuation [k] on what is left; alternatives are explored in the order
    of Python's backtracking engine. [ic] is the flag [re.IGNORECASE]. *)
Fixpoint rmatch (ic : bool) (r : regex) (prev : option ascii) (s : string)
    (k : cont) {struct r} : result :=
  match r with
  | Eps => k prev s
  | Chr c =>
      match s with
      | String x s' => if char_eq ic c x then k (Some x) s' else None
      | EmptyString => None
      end
  | Cls p =>
      match s with
      | String x s' => if p x then k (Some x) s' else None
      | EmptyString => None
      end
  | Seq a b => rmatch ic a prev s (fun p' s' => rmatch ic b p' s' k)
  | Alt a b => or_else (rmatch ic a prev s k) (fun _ => rmatch ic b prev s k)
  | Star g a => star_loop (rmatch ic a) g k (String.length s) prev s
  | Bol => match prev with None => k prev s | Some _ => None end
  | Eol =>
      match s with
      | EmptyString => k prev s
      | String c EmptyString => if Ascii.eqb c newline then k prev s else None
      | _ => None
      end
  | WordB => if xorb (is_word_opt prev) (is_word_opt (head s)) then k prev s else None
  end.

(** A match starting exactly at the current position: the state after it. *)
Definition match_here (ic : bool) (r : regex) (prev : option ascii) (s : string) : result :=
  rmatch ic r prev s (fun p rest => Some (p, rest)).

(** [re.sub(r, repl, s)]: scan left to right, replace every non-overlapping
    match by [repl]. *)
Fixpoint sub_from (ic : bool) (r : regex) (repl : string) (n : nat)
    (prev : option ascii) (s : string) : string :=
  match n with
  | O => s
  | S n' =>
      match match_here ic r prev s with
      | Some (p', rest) =>
          if (String.length rest <? String.length s)%nat
          then (repl ++ sub_from ic r repl n' p' rest)%string
          else
            match s with
            | EmptyString => repl
            | String c s' => (repl ++ String c (sub_from ic r repl n' (Some c) s'))%string
            end
      | None =>
          match s with
          | EmptyString => EmptyString
          | String c s' => String c (sub_from ic r repl n' (Some c) s')
          end
      end
  end.

Definition sub (ic : bool) (r : regex) (repl s : string) : string :=
  sub_from ic r repl (S (String.length s)) None s.

(** [re.search(r, s)]: the text before the leftmost match, [s[:m.start()]],
    or [None] when there is no match. *)
Fixpoint search_from (ic : bool) (r : regex) (prev : option ascii) (s : string)
    : option string :=
  match match_here ic r prev s with
  | Some _ => Some EmptyString
  | None =>
      match s with
      | EmptyString => None
      | String c s' =>
          match search_from ic r (Some c) s' with
          | Some before => Some (String c before)
          | None => None
          end
      end
  end.

Definition search (ic : bool) (r : regex) (s : string) : option string :=
  search_from ic r None s.

(** A sufficient syntactic condition for a pattern to need a character that
    is not whitespace: some literal on every path through it is not a space. *)
Fixpoint needs_nonspace (r : regex) : bool :=
  match r with
  | Chr c => negb (Py.is_space c)
  | Seq a b => needs_nonspace a || needs_nonspace b
  | Alt a b => needs_nonspace a && needs_nonspace b
  | _ => false
  end.

(** Pattern combinators, named after the syntax they stand for. *)
Fixpoint lit (s : string) : regex :=
  match s with
  | EmptyString => Eps
  | String c EmptyString => Chr c
  | String c s' => Seq (Chr c) (lit s')
  end.

Definition ws : regex := Cls Py.is_space.                            (* \s *)
Definition dot : regex := Cls (fun c => negb (Ascii.eqb c newline)). (* .  *)
Definition star (a : regex) : regex := Star true a.                  (* a*  *)
Definition lazy_star (a : regex) : regex := Star false a.            (* a*? *)
Definition plus (a : regex) : regex := Seq a (Star true a).          (* a+  *)
Definition opt (a : regex) : regex := Alt a Eps.                     (* a?  *)
Definition none_of (cs : string) : regex :=                          (* [^cs] *)
  Cls (fun c => negb (existsb (Ascii.eqb c) (list_ascii_of_string cs))).
Definition one_of (cs : string) : regex :=                           (* [cs] *)
  Cls (fun c => existsb (Ascii.eqb c) (list_ascii_of_string cs)).

Fixpoint seqs (rs : list regex) : regex :=
  match rs with
  | [] => Eps
  | [r] => r
  | r :: rs' => Seq r (seqs rs')
  end.

End Re.

(** ** The similarity ratio of the fuzzy-matching library

    [fuzz.ratio] is third-party code. It is modelled as the library computes
    it with its Levenshtein backend: 100 for equal strings, 0 when one string
    is empty, otherwise [round (100 * 2 * M / T)] with [M] the length of a
    longest common subsequence and [T] the sum of the two lengths; [round] is
    Python's rounding to the nearest integer, ties to even. *)

Module Fuzz.

(** One row of the longest-common-subsequence table. [old] is the previous
    row without its first cell, [diag] the cell up-left of the current one and
    [left] the cell just computed. *)
Fixpoint lcs_row (a : ascii) (bs : string) (old : list nat) (diag left : nat) : list nat :=
  match bs, old with
  | String b bs', up :: old' =>
      let v := if Ascii.eqb a b then S diag else Nat.max up left in
      v :: lcs_row a bs' old' up v
  | _, _ => []
  end.

Fixpoint lcs_rows (s1 s2 : string) (row : list nat) : list nat :=
  match s1 with
  | EmptyString => row
  | String a s1' => lcs_rows s1' s2 (lcs_row a s2 row 0 0)
  end.

Definition lcs (s1 s2 : string) : nat :=
  List.last (lcs_rows s1 s2 (repeat 0 (String.length s2))) 0.

(** Rounding [n / d] to the nearest integer, ties to even ([d > 0]). *)
Definition round_half_even (n d : Z) : Z :=
  let q := (n / d)%Z in
  let r := (n mod d)%Z in
  if (2 * r <? d)%Z then q
  else if (d <? 2 * r)%Z then (q + 1)%Z
  else if Z.even q then q else (q + 1)%Z.

Definition ratio (s1 s2 : string) : Z :=
  if String.eqb s1 s2 then 100%Z
  else if (String.length s1 =? 0)%nat || (String.length s2 =? 0)%nat then 0%Z
  else round_half_even (200 * Z.of_nat (lcs s1 s2))
                       (Z.of_nat (String.length s1 + String.length s2)).

End Fuzz.

(** ** phase2/src/api/enhanced_genius_client.py *)

Module EnhancedGeniusClient.
Import Re.

Definition dq : ascii := "034"%char.

(** [self.suffixes_to_remove], in the order of the source. Each entry is the
    syntax tree of the pattern quoted beside it (<dq> stands for the double
    quote character). *)
Definition suffixes_to_remove : list regex :=
  [ (* \s*\(with\s+.*?\) *)
    seqs [star ws; lit "(with"; plus ws; lazy_star dot; lit ")"];
    (* \s*\(feat\.?\s+.*?\) *)
    seqs [star ws; lit "(feat"; opt (lit "."); plus ws; lazy_star dot; lit ")"];
    (* \s*\(featuring\s+.*?\) *)
    seqs [star ws; lit "(featuring"; plus ws; lazy_star dot; lit ")"];
    (* \s*\(ft\.?\s+.*?\) *)
    seqs [star ws; lit "(ft"; opt (lit "."); plus ws; lazy_star dot; lit ")"];
    (* \s*\(f/\s+.*?\) *)
    seqs [star ws; lit "(f/"; plus ws; lazy_star dot; lit ")"];
    (* \s*\(x\s+.*?\) *)
    seqs [star ws; lit "(x"; plus ws; lazy_star dot; lit ")"];
    (* \s*-\s*Remastered.*$ *)
    seqs [star ws; lit "-"; star ws; lit "Remastered"; star dot; Eol];
    (* \s*\(Remastered.*?\) *)
    seqs [star ws; lit "(Remastered"; lazy_star dot; lit ")"];
    (* \s*-\s*.*?Remaster.*$ *)
    seqs [star ws; lit "-"; star ws; lazy_star dot; lit "Remaster"; star dot; Eol];
    (* \s*-\s*.*?Version.*$ *)
    seqs [star ws; lit "-"; star ws; lazy_star dot; lit "Version"; star dot; Eol];
    (* \s*\(.*?Version.*?\) *)
    seqs [star ws; lit "("; lazy_star dot; lit "Version"; lazy_star dot; lit ")"];
    (* \s*-\s*From\s+<dq>.*?<dq>.*$ *)
    seqs [star ws; lit "-"; star ws; lit "From"; plus ws; Chr dq; lazy_star dot;
          Chr dq; star dot; Eol];
    (* \s*\(From\s+<dq>.*?<dq>.*?\) *)
    seqs [star ws; lit "(From"; plus ws; Chr dq; lazy_star dot; Chr dq;
          lazy_star dot; lit ")"];
    (* \s*-\s*featured\s+in.*$ *)
    seqs [star ws; lit "-"; star ws; lit "featured"; plus ws; lit "in"; star dot; Eol];
    (* \s*\(featured\s+in.*?\) *)
    seqs [star ws; lit "(featured"; plus ws; lit "in"; lazy_star dot; lit ")"];
    (* \s*-\s*From\s+the.*$ *)
    seqs [star ws; lit "-"; star ws; lit "From"; plus ws; lit "the"; star dot; Eol];
    (* \s*\(From\s+the.*?\) *)
    seqs [star ws; lit "(From"; plus ws; lit "the"; lazy_star dot; lit ")"];
    (* \s*-\s*.*?Radio.*$ *)
    seqs [star ws; lit "-"; star ws; lazy_star dot; lit "Radio"; star dot; Eol];
    (* \s*\(.*?Radio.*?\) *)
    seqs [star ws; lit "("; lazy_star dot; lit "Radio"; lazy_star dot; lit ")"];
    (* \s*-\s*.*?Mix.*$ *)
    seqs [star ws; lit "-"; star ws; lazy_star dot; lit "Mix"; star dot; Eol];
    (* \s*\(.*?Mix.*?\) *)
    seqs [star ws; lit "("; lazy_star dot; lit "Mix"; lazy_star dot; lit ")"] ].

(** The five censorship substitutions of [clean_title_for_search], as
    (pattern, replacement) pairs in source order. *)
Definition censored_words : list (regex * string) :=
  [ (* \bb\*+h\b *) (seqs [WordB; lit "b"; plus (lit "*"); lit "h"; WordB], "bitch");
    (* \ba\*+\b  *) (seqs [WordB; lit "a"; plus (lit "*"); WordB], "ass");
    (* \bs\*+t\b *) (seqs [WordB; lit "s"; plus (lit "*"); lit "t"; WordB], "shit");
    (* \bf\*+k\b *) (seqs [WordB; lit "f"; plus (lit "*"); lit "k"; WordB], "fuck");
    (* \bn\*+a\b *) (seqs [WordB; lit "n"; plus (lit "*"); lit "a"; WordB], "nigga") ].

(** [re.sub(r'\s+', ' ', s)] *)
Definition collapse_spaces (s : string) : string := sub false (plus ws) " " s.

Definition clean_title_for_search (title : string) : string :=
  let cleaned := fold_left (fun acc pattern => sub true pattern "" acc)
                           suffixes_to_remove title in
  let cleaned := fold_left (fun acc pr => sub true (fst pr) (snd pr) acc)
                           censored_words cleaned in
  Py.strip (collapse_spaces cleaned).

(** \s+(feat\.?|featuring|ft\.?|with|f/)\s+.*$ *)
Definition featuring_clause : regex :=
  seqs [plus ws;
        Alt (Seq (lit "feat") (opt (lit ".")))
          (Alt (lit "featuring")
             (Alt (Seq (lit "ft") (opt (lit ".")))
                (Alt (lit "with") (lit "f/"))));
        plus ws; star dot; Eol].

(** The main artist: first of a comma list, first of an ampersand list,
    stripped, with a trailing featuring clause removed. *)
Definition extract_main_artist (artist : string) : string :=
  let main_artist := Py.strip (Py.split_first "&" (Py.split_first "," artist)) in
  Py.strip (sub true featuring_clause "" main_artist).

(** Order-preserving removal of duplicates (the [seen] loop). *)
Fixpoint unique_from (seen : list string) (queries : list string) : list string :=
  match queries with
  | [] => []
  | q :: qs =>
      if existsb (String.eqb q) seen then unique_from seen qs
      else q :: unique_from (q :: seen) qs
  end.

Definition sp (a b : string) : string := (a ++ " " ++ b)%string.

Definition generate_search_queries (title artist : string) : list string :=
  let clean_title := clean_title_for_search title in
  let main_artist := extract_main_artist artist in
  (* re.sub(r"['\-\.]", '', main_artist).strip() *)
  let main_artist_no_punct := Py.strip (sub false (one_of "'-.") "" main_artist) in
  (* re.sub(r'[^\w\s]', ' ', clean_title).strip(), then spaces normalised *)
  let simplified_title :=
    collapse_spaces
      (Py.strip (sub false (Cls (fun c => negb (Py.is_word c || Py.is_space c)))
                       " " clean_title)) in
  let queries :=
    [sp clean_title main_artist]
    ++ (if String.eqb artist main_artist then [] else [sp clean_title artist])
    ++ [sp main_artist clean_title]
    ++ [clean_title]
    ++ (if String.eqb title clean_title then [] else [sp title main_artist])
    ++ (if String.eqb simplified_title clean_title then []
        else [sp simplified_title main_artist])
    ++ (if String.eqb main_artist_no_punct main_artist then []
        else [sp clean_title main_artist_no_punct;
              sp main_artist_no_punct clean_title]) in
  unique_from [] queries.

(** The helpers local to [_is_good_match]. *)

(** re.sub(r'^\s*(the|a|an)\s+', '', text, flags=re.IGNORECASE).strip() *)
Definition remove_articles (text : string) : string :=
  Py.strip
    (sub true (seqs [Bol; star ws; Alt (lit "the") (Alt (lit "a") (lit "an")); plus ws])
       "" text).

(** re.sub(r'\s*\([^)]*\)', '', text).strip() *)
Definition remove_all_parentheticals (text : string) : string :=
  Py.strip (sub false (seqs [star ws; lit "("; star (none_of ")"); lit ")"]) "" text).

(** re.sub(r'\s*\(?(feat\.|ft\.)\s+[^)]*\)?', '', text, flags=re.IGNORECASE).strip() *)
Definition remove_feat (text : string) : string :=
  Py.strip
    (sub true (seqs [star ws; opt (lit "("); Alt (lit "feat.") (lit "ft.");
                     plus ws; star (none_of ")"); opt (lit ")")])
       "" text).

Definition max3 (a b c : Z) : Z := Z.max (Z.max a b) c.

Section Matcher.
(** The similarity function, [fuzz.ratio] in the source. *)
Variable ratio : string -> string -> Z.

Definition genius_title_norm (t : string) : string := Py.lower (clean_title_for_search t).

Definition title_similarity (gt ot : string) : Z :=
  ratio (genius_title_norm gt) (genius_title_norm ot).
Definition title_similarity_no_feat (gt ot : string) : Z :=
  ratio (remove_feat (genius_title_norm gt)) (remove_feat (genius_title_norm ot)).
Definition title_similarity_no_article (gt ot : string) : Z :=
  ratio (remove_articles (genius_title_norm gt)) (remove_articles (genius_title_norm ot)).
Definition title_similarity_no_parens (gt ot : string) : Z :=
  ratio (remove_all_parentheticals (genius_title_norm gt))
        (remove_all_parentheticals (genius_title_norm ot)).

(** [main_artist] of [_is_good_match]: as in query generation, lowercased. *)
Definition main_artist_of (original_artist : string) : string :=
  Py.lower (extract_main_artist original_artist).

Definition artist_similarity (genius_artist original_artist : string) : Z :=
  ratio (Py.lower genius_artist) (main_artist_of original_artist).

(** The three variants that are always eligible. *)
Definition plain_title_similarity (gt ot : string) : Z :=
  max3 (title_similarity gt ot) (title_similarity_no_feat gt ot)
       (title_similarity_no_article gt ot).

Definition best_title_similarity (gt ga ot oa : string) : Z :=
  if (plain_title_similarity gt ot <? title_similarity_no_parens gt ot)%Z then
    if (85 <=? artist_similarity ga oa)%Z
    then title_similarity_no_parens gt ot
    else plain_title_similarity gt ot
  else Z.max (plain_title_similarity gt ot) (title_similarity_no_parens gt ot).

Definition artist_threshold (best : Z) : Z :=
  if (best =? 100)%Z then 45%Z
  else if (95 <=? best)%Z then 60%Z
  else 70%Z.

Definition artist_match (best : Z) (ga oa : string) : bool :=
  Py.contains (main_artist_of oa) (Py.lower ga)
  || Py.contains (Py.lower ga) (main_artist_of oa)
  || (artist_threshold best <=? ratio (Py.lower ga) (main_artist_of oa))%Z.

(** [_is_good_match]; [fuzzywuzzy_available] is the module flag
    [FUZZYWUZZY_AVAILABLE]. *)
Definition _is_good_match (fuzzywuzzy_available : bool)
    (genius_title genius_artist original_title original_artist : string) : bool :=
  if negb fuzzywuzzy_available then
    Py.contains (Py.lower genius_title) (Py.lower original_title)
    || Py.contains (Py.lower original_title) (Py.lower genius_title)
  else
    let best := best_title_similarity genius_title genius_artist
                                      original_title original_artist in
    (70 <=? best)%Z && artist_match best genius_artist original_artist.
End Matcher.

(** The matcher with the library's ratio. *)
Definition is_good_match : bool -> string -> string -> string -> string -> bool :=
  _is_good_match Fuzz.ratio.

End EnhancedGeniusClient.

(** ** Ordered dictionaries and stable sorting *)

Module Dict.

(** [d.get(k)] on an insertion-ordered dictionary. *)
Fixpoint get {V : Type} (k : string) (d : list (string * V)) : option V :=
  match d with
  | [] => None
  | (k', v) :: d' => if String.eqb k k' then Some v else get k d'
  end.

(** [k in d] *)
Definition mem {V : Type} (k : string) (d : list (string * V)) : bool :=
  match get k d with Some _ => true | None => false end.

(** [d[k] = f(d.get(k))]: an existing key keeps its place, a new key goes
    last. *)
Fixpoint upsert {V : Type} (k : string) (f : option V -> V) (d : list (string * V))
    : list (string * V) :=
  match d with
  | [] => [(k, f None)]
  | (k', v) :: d' =>
      if String.eqb k k' then (k', f (Some v)) :: d' else (k', v) :: upsert k f d'
  end.

(** Insertion of [e] after every element that is not smaller: one step of a
    stable sort into decreasing order. [lt a b] reads: [a] ranks below [b]. *)
Fixpoint insert_desc {A : Type} (lt : A -> A -> bool) (e : A) (l : list A) : list A :=
  match l with
  | [] => [e]
  | h :: t => if lt h e then e :: h :: t else h :: insert_desc lt e t
  end.

(** [sorted(l, key=..., reverse=True)]: stable, equal keys keep their order. *)
Definition sort_desc {A : Type} (lt : A -> A -> bool) (l : list A) : list A :=
  fold_left (fun acc e => insert_desc lt e acc) l [].

End Dict.

(** ** Python floats *)

Module Float.
Local Open Scope Z_scope.

(** The integer nearest to [n / d] for [d > 0], ties to the even one. *)
Definition nearest_even (n d : Z) : Z :=
  let q := n / d in
  let r := n mod d in
  match 2 * r ?= d with
  | Lt => q
  | Gt => q + 1
  | Eq => if Z.even q then q else q + 1
  end.

(** [m * 2^e] as a rational. *)
Definition scale (m e : Z) : Q :=
  match e with
  | Zneg p => Qmake m (2 ^ p)%positive
  | _ => inject_Z (m * 2 ^ e)
  end.

(** The binary64 number nearest to [n / d], for positive [n] and [d]:
    [k] is the exponent of the leading bit of [n / d], the significand has
    53 bits, and the quotient is rounded to nearest, ties to even. *)
Definition nearest_double (n d : positive) : Q :=
  let k0 := Z.log2 (Zpos n) - Z.log2 (Zpos d) in
  let k := if (Zpos d * 2 ^ Z.max 0 k0 <=? Zpos n * 2 ^ Z.max 0 (- k0)) then k0 else k0 - 1 in
  let e := k - 52 in
  scale (nearest_even (Zpos n * 2 ^ Z.max 0 (- e)) (Zpos d * 2 ^ Z.max 0 e)) e.

(** [float(q)]: the double a decimal literal or a JSON number denotes. The
    exponent range is not bounded: the result is the IEEE 754 one for
    magnitudes between 2^-1022 and 2^1024. A rational that is a double is
    left as it is. *)
Definition double (q : Q) : Q :=
  match Qnum q with
  | Z0 => 0%Q
  | Zpos n => nearest_double n (Qden q)
  | Zneg n => (- nearest_double n (Qden q))%Q
  end.

Definition add (a b : Q) : Q := double (double a + double b).
Definition mul (a b : Q) : Q := double (double a * double b).
Definition div (a b : Q) : Q := double (double a / double b).

End Float.

(** ** phase3/src/api/producer_genre_patterns.py *)

Module ProducerGenrePatterns.

Record signature : Type := {
  primary : string;
  subgenres : list string;
  confidence : Q;
  secondary_genre : option string
}.

Definition sig (p : string) (sgs : list string) (c : Q) : signature :=
  {| primary := p; subgenres := sgs; confidence := c; secondary_genre := None |}.

Definition PRODUCER_GENRE_SIGNATURES : list (string * signature) :=
  [ ("max martin", sig "pop" ["dance-pop"; "teen-pop"; "electropop"] (95 # 100));
    ("rami", sig "pop" ["dance-pop"; "electropop"] (90 # 100));
    ("bag & arnthor", sig "pop" ["dance-pop"; "teen-pop"] (90 # 100));
    ("kristian lundin", sig "pop" ["dance-pop"; "teen-pop"] (90 # 100));
    ("the neptunes",
       sig "hip-hop" ["alternative-hip-hop"; "pop-rap"; "southern-hip-hop"] (95 # 100));
    ("mannie fresh", sig "hip-hop" ["southern-hip-hop"; "crunk"; "bounce"] (95 # 100));
    ("dr. dre",
       sig "hip-hop" ["west-coast-hip-hop"; "g-funk"; "gangster-rap"] (95 # 100));
    ("swizz beatz", sig "hip-hop" ["east-coast-hip-hop"; "hardcore-hip-hop"] (90 # 100));
    ("bryan-michael cox", sig "r&b" ["contemporary-r&b"; "neo-soul"] (90 # 100));
    ("rodney jerkins", sig "r&b" ["contemporary-r&b"; "pop-r&b"] (85 # 100));
    ("timbaland",
       {| primary := "hip-hop";
          subgenres := ["alternative-r&b"; "contemporary-r&b"; "pop-rap"];
          confidence := 85 # 100; secondary_genre := Some "r&b" |});
    ("jermaine dupri",
       {| primary := "hip-hop";
          subgenres := ["southern-hip-hop"; "contemporary-r&b"; "pop-rap"];
          confidence := 80 # 100; secondary_genre := Some "r&b" |});
    ("byron gallimore", sig "country" ["contemporary-country"; "country-pop"] (95 # 100));
    ("james stroud",
       sig "country" ["contemporary-country"; "traditional-country"] (90 # 100));
    ("paul worley", sig "country" ["contemporary-country"; "bluegrass"] (90 # 100));
    ("dann huff", sig "country" ["contemporary-country"; "country-rock"] (90 # 100));
    ("rick rubin", sig "rock" ["alternative-rock"; "hard-rock"; "rap-rock"] (90 # 100));
    ("don gilmore", sig "rock" ["nu-metal"; "alternative-metal"] (90 # 100)) ].

(** [ERA_BASED_SUBGENRES]; a key 'start-end' is kept as the pair of years that
    [get_era_subgenres] parses out of it. *)
Definition ERA_BASED_SUBGENRES : list (string * list (Z * Z * list string)) :=
  [ ("pop",
       [ (2000, 2004, ["teen-pop"; "dance-pop"]);
         (2005, 2009, ["pop-rock"; "emo-pop"]);
         (2010, 2015, ["electropop"; "indie-pop"]);
         (2016, 2020, ["alt-pop"; "bedroom-pop"]);
         (2021, 2025, ["hyperpop"; "alt-pop"]) ]);
    ("hip-hop",
       [ (2000, 2003, ["southern-hip-hop"; "crunk"]);
         (2004, 2008, ["snap-music"; "ringtone-rap"]);
         (2009, 2012, ["blog-rap"; "conscious-hip-hop"]);
         (2013, 2016, ["trap"; "drill"]);
         (2017, 2020, ["emo-rap"; "melodic-rap"]);
         (2021, 2025, ["rage-rap"; "plugg"]) ]);
    ("country",
       [ (2000, 2010, ["country-pop"; "contemporary-country"]);
         (2011, 2015, ["bro-country"; "country-pop"]);
         (2016, 2025, ["country-trap"; "country-pop"]) ]);
    ("r&b",
       [ (2000, 2005, ["neo-soul"; "contemporary-r&b"]);
         (2006, 2010, ["alternative-r&b"; "contemporary-r&b"]);
         (2011, 2025, ["alternative-r&b"; "pop-r&b"]) ]) ]%Z.

Definition PRODUCER_NAME_VARIATIONS : list (string * string) :=
  [ ("pharrell williams", "the neptunes");
    ("chad hugo", "the neptunes");
    ("pharrell", "the neptunes");
    ("darkchild", "rodney jerkins");
    ("rodney jenkins", "rodney jerkins");
    ("timbo", "timbaland");
    ("tim mosley", "timbaland");
    ("jd", "jermaine dupri");
    ("max", "max martin") ].

Fixpoint find_era (year : Z) (era_map : list (Z * Z * list string)) : list string :=
  match era_map with
  | [] => []
  | (start, stop, sgs) :: rest =>
      if ((start <=? year) && (year <=? stop))%Z then sgs else find_era year rest
  end.

Definition get_era_subgenres (genre : string) (year : Z) : list string :=
  match Dict.get genre ERA_BASED_SUBGENRES with
  | None => []
  | Some era_map => find_era year era_map
  end.

(** Truthiness of the optional year: [None] and 0 are false. *)
Definition year_given (year : option Z) : option Z :=
  match year with
  | Some y => if (y =? 0)%Z then None else Some y
  | None => None
  end.

(** [Counter(l)]: counts in order of first occurrence. *)
Definition Counter (l : list string) : list (string * nat) :=
  fold_left (fun cs x => Dict.upsert x (fun o => match o with Some n => S n | None => 1%nat end) cs)
            l [].

(** [c.most_common(n)]: by decreasing count, ties in order of first
    occurrence. *)
Definition most_common (n : nat) (c : list (string * nat)) : list (string * nat) :=
  firstn n (Dict.sort_desc (fun a b => (snd a <? snd b)%nat) c).

Record contribution : Type := {
  suggested_subgenres : list string;
  contribution_confidence : Q;
  num_producers : nat;
  source : string
}.

Section SetOrder.
(** [list(set(l))]: the elements of [l] without repetition, in the
    iteration order of the set, which for strings varies with the hash seed
    of the interpreter process. *)
Variable list_set : list string -> list string.

Definition get_producer_subgenres (producer_name : string) (year : option Z)
    : option signature :=
  let producer_lower := Py.strip (Py.lower producer_name) in
  let producer_lower :=
    match Dict.get producer_lower PRODUCER_NAME_VARIATIONS with
    | Some canonical => canonical
    | None => producer_lower
    end in
  match Dict.get producer_lower PRODUCER_GENRE_SIGNATURES with
  | None => None
  | Some signature =>
      match year_given year with
      | Some y =>
          if Dict.mem (primary signature) ERA_BASED_SUBGENRES then
            match get_era_subgenres (primary signature) y with
            | [] => Some signature
            | era_subgenres =>
                Some {| primary := primary signature;
                        subgenres := list_set (subgenres signature ++ era_subgenres);
                        confidence := confidence signature;
                        secondary_genre := secondary_genre signature |}
            end
          else Some signature
      | None => Some signature
      end
  end.

Definition analyze_producer_contribution (song_producers : list string)
    (song_year : option Z) : option contribution :=
  match song_producers with
  | [] => None
  | _ =>
      let found : list signature :=
        omap (fun p => get_producer_subgenres p song_year) song_producers in
      let all_subgenres := concat (map subgenres found) in
      let total_confidence :=
        fold_left (fun acc s => Float.add acc (confidence s)) found 0%Q in
      match all_subgenres with
      | [] => None
      | _ =>
          Some {| suggested_subgenres := map fst (most_common 3 (Counter all_subgenres));
                  contribution_confidence :=
                    Qmin (Float.div total_confidence
                                     (inject_Z (Z.of_nat (length song_producers)))) 1%Q;
                  num_producers := length found;
                  source := "producer_specialization" |}
      end
  end.
End SetOrder.

(** Two iteration orders a set of strings can have: elements in order of
    first insertion, and the reverse of it. *)
Fixpoint dedup (seen : list string) (l : list string) : list string :=
  match l with
  | [] => []
  | x :: l' =>
      if existsb (String.eqb x) seen then dedup seen l' else x :: dedup (x :: seen) l'
  end.

Definition insertion_order (l : list string) : list string := dedup [] l.
Definition reverse_insertion_order (l : list string) : list string := rev (dedup [] l).

(** What is known of [list(set(l))] whatever the hash seed: no repetition,
    and exactly the elements of [l]. *)
Definition set_iteration (f : list string -> list string) : Prop :=
  forall l, List.NoDup (f l) /\ (forall x, In x (f l) <-> In x l).

End ProducerGenrePatterns.

(** ** phase3/src/ml_subgenre_classifier.py and training/subgenre_definitions.py *)

Module MLSubgenreClassifier.
Local Open Scope Q_scope.

(** A rule profile: feature name to its declared (min, max) range. *)
Definition profile : Type := list (string * (Q * Q)).

Definition RULE_BASED_SUBGENRES : list (string * list (string * profile)) :=
  [ ("jazz",
       [ ("smooth-jazz", [("acousticness", (4 # 10, 8 # 10)); ("energy", (3 # 10, 6 # 10))]);
         ("bebop", [("tempo", (200 # 1, 350 # 1)); ("instrumentalness", (5 # 10, 1 # 1))]);
         ("jazz-fusion", [("energy", (6 # 10, 9 # 10)); ("instrumentalness", (3 # 10, 8 # 10))]) ]);
    ("folk",
       [ ("folk-rock", [("energy", (5 # 10, 8 # 10)); ("acousticness", (4 # 10, 7 # 10))]);
         ("singer-songwriter",
            [("acousticness", (6 # 10, 9 # 10)); ("speechiness", (3 # 100, 15 # 100))]);
         ("americana", [("acousticness", (5 # 10, 8 # 10)); ("valence", (4 # 10, 7 # 10))]) ]) ].

(** [lo <= v <= hi] *)
Definition between (lo v hi : Q) : bool := Qle_bool lo v && Qle_bool v hi.

(** The credit one checked feature adds to [matches]. The value and the
    bounds are floats, and so are the products [max_val * 1.2] and
    [min_val * 0.8]: 0.4 * 0.8 is 0.32000000000000006, above 0.32. *)
Definition feature_credit (value : Q) (range_tuple : Q * Q) : Q :=
  let value := Float.double value in
  let min_val := Float.double (fst range_tuple) in
  let max_val := Float.double (snd range_tuple) in
  if between min_val value max_val then 1
  else if between min_val value (Float.mul max_val (12 # 10))
          || between (Float.mul min_val (8 # 10)) value max_val
       then 1 # 2
       else 0.

(** [feature in audio_features] for a profile entry. *)
Definition present (audio_features : gmap string Q) (entry : string * (Q * Q)) : bool :=
  match audio_features !! fst entry with Some _ => true | None => false end.

(** One turn of the loop of [_calculate_profile_match] on the pair
    (matches, total). *)
Definition tally_step (audio_features : gmap string Q)
    (acc : Q * nat) (entry : string * (Q * Q)) : Q * nat :=
  match audio_features !! fst entry with
  | Some value => (fst acc + feature_credit value (snd entry), S (snd acc))
  | None => acc
  end.

Definition tally (audio_features : gmap string Q) (profile : profile) : Q * nat :=
  fold_left (tally_step audio_features) profile (0, 0%nat).

(** [matches] is a multiple of 1/2 and [total] a count; their quotient is
    kept exact, the float of the code being its rounding. *)
Definition _calculate_profile_match (audio_features : gmap string Q) (profile : profile) : Q :=
  let (matches, total) := tally audio_features profile in
  if (0 <? total)%nat then matches / inject_Z (Z.of_nat total) else 0.

(** One turn of the loop of [classify_with_rules] on the pair
    (best_match, best_score): a candidate replaces the best only with a
    strictly larger score. *)
Definition best_step (audio_features : gmap string Q)
    (best : option string * Q) (entry : string * profile) : option string * Q :=
  let score := _calculate_profile_match audio_features (snd entry) in
  if negb (Qle_bool score (snd best)) then (Some (fst entry), score) else best.

Definition best_profile (audio_features : gmap string Q)
    (subgenre_profiles : list (string * profile)) : option string * Q :=
  fold_left (best_step audio_features) subgenre_profiles (None, 0).

(** A loaded model package: the feature columns and the fitted pipeline
    (polynomial transformer, scaler, classifier) as one function from the
    feature vector to the predicted label and its largest class probability;
    [None] stands for an exception raised inside the pipeline. *)
Record model_package : Type := {
  feature_cols : list string;
  predict : list Q -> option (string * Q)
}.

Definition adjust_tempo (value : Q) : Q :=
  if negb (Qle_bool value 200) then value / 2
  else if negb (Qle_bool 100 value) then value * 2
  else value.

Record classification : Type := {
  subgenre : option string;
  confidence : Q;
  method : string;
  primary_genre : string
}.

Definition truthy_opt (o : option string) : bool :=
  match o with Some s => Py.truthy s | None => false end.

Section Classifier.
(** [RULE_BASED_SUBGENRES] as imported, and [self.models]. *)
Variable rules : list (string * list (string * profile)).
Variable models : gmap string model_package.

Definition classify_with_rules (primary_genre : string) (audio_features : gmap string Q)
    : option string * Q :=
  match Dict.get primary_genre rules with
  | None => (None, 0)
  | Some subgenre_profiles =>
      let (best_match, best_score) := best_profile audio_features subgenre_profiles in
      if Qle_bool (6 # 10) best_score then (best_match, best_score)
      else (None, best_score)
  end.

Definition classify_with_ml (primary_genre : string) (audio_features : gmap string Q)
    : option string * Q :=
  match models !! primary_genre with
  | None => (None, 0)
  | Some model_package =>
      let features :=
        map (fun col =>
               let value := default 0 (audio_features !! col) in
               if String.eqb col "tempo" then adjust_tempo value else value)
            (feature_cols model_package) in
      match predict model_package features with
      | Some (prediction, confidence) => (Some prediction, confidence)
      | None => (None, 0)
      end
  end.

Definition classify (primary_genre : string) (audio_features : gmap string Q)
    (method : string) : classification :=
  let none :=
    {| subgenre := None; confidence := 0; method := "none";
       primary_genre := primary_genre |} in
  let by_rules :=
    if String.eqb method "rules" || String.eqb method "auto" then
      let (subgenre, confidence) := classify_with_rules primary_genre audio_features in
      if truthy_opt subgenre then
        {| subgenre := subgenre; confidence := confidence; method := "rules";
           primary_genre := primary_genre |}
      else none
    else none in
  if String.eqb method "ml" || String.eqb method "auto" then
    let (subgenre, confidence) := classify_with_ml primary_genre audio_features in
    if truthy_opt subgenre then
      {| subgenre := subgenre; confidence := confidence; method := "ml";
         primary_genre := primary_genre |}
    else by_rules
  else by_rules.
End Classifier.

End MLSubgenreClassifier.

(** ** phase3/src/ml_subgenre_classifier.py on the dict the caller passes

    [MLSubgenreClassifier] above is the classifier on feature dicts whose
    values are numbers. The caller hands over Spotify's audio-features
    object as it is, and a value that is [None] or a string makes the
    comparison [min_val <= value] raise a [TypeError]; only
    [classify_with_ml] runs inside a [try]. The same functions follow, on
    such dicts. *)

Module RawClassifier.
Import MLSubgenreClassifier.
Local Open Scope Q_scope.

Inductive value : Type :=
| Number (q : Q)
| NoneValue
| Text (s : string).

(** How a call ends: it returns, or a [TypeError] escapes from it. *)
Inductive call (A : Type) : Type :=
| Returned (a : A)
| TypeError.
Arguments Returned {A} a.
Arguments TypeError {A}.

(** The entries of the dict that are numbers. *)
Definition numbers (audio_features : gmap string value) : gmap string Q :=
  omap (fun v => match v with Number q => Some q | _ => None end) audio_features.

(** [feature in audio_features] for a profile entry. *)
Definition present (audio_features : gmap string value) (entry : string * (Q * Q)) : bool :=
  match audio_features !! fst entry with Some _ => true | None => false end.

(** The profile entry finds a number, or nothing, in the dict. *)
Definition comparable (audio_features : gmap string value) (entry : string * (Q * Q)) : Prop :=
  match audio_features !! fst entry with
  | Some (Number _) | None => True
  | Some _ => False
  end.

(** One turn of the loop of [_calculate_profile_match]. *)
Definition tally_step (audio_features : gmap string value)
    (acc : call (Q * nat)) (entry : string * (Q * Q)) : call (Q * nat) :=
  match acc with
  | TypeError => TypeError
  | Returned (matches, total) =>
      match audio_features !! fst entry with
      | None => acc
      | Some (Number value) =>
          Returned (matches + feature_credit value (snd entry), S total)
      | Some _ => TypeError
      end
  end.

Definition tally (audio_features : gmap string value) (profile : profile)
    : call (Q * nat) :=
  fold_left (tally_step audio_features) profile (Returned (0, 0%nat)).

Definition _calculate_profile_match (audio_features : gmap string value)
    (profile : profile) : call Q :=
  match tally audio_features profile with
  | Returned (matches, total) =>
      Returned (if (0 <? total)%nat then matches / inject_Z (Z.of_nat total) else 0)
  | TypeError => TypeError
  end.

(** One turn of the loop of [classify_with_rules]. *)
Definition best_step (audio_features : gmap string value)
    (best : call (option string * Q)) (entry : string * profile)
    : call (option string * Q) :=
  match best with
  | TypeError => TypeError
  | Returned best =>
      match _calculate_profile_match audio_features (snd entry) with
      | TypeError => TypeError
      | Returned score =>
          Returned (if negb (Qle_bool score (snd best))
                    then (Some (fst entry), score) else best)
      end
  end.

Definition best_profile (audio_features : gmap string value)
    (subgenre_profiles : list (string * profile)) : call (option string * Q) :=
  fold_left (best_step audio_features) subgenre_profiles (Returned (None, 0)).

(** A loaded model package; the pipeline gets the feature list as built,
    and [None] stands for an exception raised inside it. *)
Record model_package : Type := {
  feature_cols : list string;
  predict : list value -> option (string * Q)
}.

(** The feature list of [classify_with_ml]; [None] when the tempo
    comparison raises. *)
Fixpoint features_for (audio_features : gmap string value) (cols : list string)
    : option (list value) :=
  match cols with
  | [] => Some []
  | col :: rest =>
      let value := default (Number 0) (audio_features !! col) in
      let adjusted :=
        if String.eqb col "tempo" then
          match value with
          | Number tempo => Some (Number (adjust_tempo tempo))
          | _ => None
          end
        else Some value in
      match adjusted, features_for audio_features rest with
      | Some v, Some vs => Some (v :: vs)
      | _, _ => None
      end
  end.

Section Classifier.
Variable rules : list (string * list (string * profile)).
Variable models : gmap string model_package.

Definition classify_with_rules (primary_genre : string)
    (audio_features : gmap string value) : call (option string * Q) :=
  match Dict.get primary_genre rules with
  | None => Returned (None, 0)
  | Some subgenre_profiles =>
      match best_profile audio_features subgenre_profiles with
      | TypeError => TypeError
      | Returned (best_match, best_score) =>
          Returned (if Qle_bool (6 # 10) best_score then (best_match, best_score)
                    else (None, best_score))
      end
  end.

(** Everything after the membership test runs inside [try]: any exception
    gives [(None, 0.0)]. *)
Definition classify_with_ml (primary_genre : string)
    (audio_features : gmap string value) : option string * Q :=
  match models !! primary_genre with
  | None => (None, 0)
  | Some model_package =>
      match features_for audio_features (feature_cols model_package) with
      | None => (None, 0)
      | Some features =>
          match predict model_package features with
          | Some (prediction, confidence) => (Some prediction, confidence)
          | None => (None, 0)
          end
      end
  end.

Definition classify (primary_genre : string) (audio_features : gmap string value)
    (method : string) : call classification :=
  let none :=
    {| subgenre := None; confidence := 0; method := "none";
       primary_genre := primary_genre |} in
  let by_rules :=
    if String.eqb method "rules" || String.eqb method "auto" then
      match classify_with_rules primary_genre audio_features with
      | TypeError => TypeError
      | Returned (subgenre, confidence) =>
          if truthy_opt subgenre then
            Returned {| subgenre := subgenre; confidence := confidence;
                        method := "rules"; primary_genre := primary_genre |}
          else Returned none
      end
    else Returned none in
  if String.eqb method "ml" || String.eqb method "auto" then
    let (subgenre, confidence) := classify_with_ml primary_genre audio_features in
    if truthy_opt subgenre then
      Returned {| subgenre := subgenre; confidence := confidence; method := "ml";
                  primary_genre := primary_genre |}
    else by_rules
  else by_rules.
End Classifier.

End RawClassifier.

(** ** phase3/src/api/lastfm_genre_client.py (the part that bounds tag confidence) *)

Module LastFmGenreClient.
Local Open Scope Q_scope.

(** [top_genres] of [extract_comprehensive_genre_data]: of the first five
    analysed tags, those with confidence above 0.4, as (name, confidence). *)
Definition top_genres (genre_tags : list (string * Q)) : list (string * Q) :=
  List.filter (fun tag => negb (Qle_bool (snd tag) (4 # 10))) (firstn 5 genre_tags).

End LastFmGenreClient.

(** ** phase3/scripts/genre_classification_system.py *)

Module GenreClassificationSystem.
Local Open Scope Q_scope.

Record GenreClassification : Type := {
  name : string;
  confidence : Q;
  source : string;
  category : string
}.

Record ArtistGenreProfile : Type := {
  artist_name : string;
  classifications : list GenreClassification;
  confidence_score : Q;
  primary_genre : option string;
  secondary_tags : list string;
  crossover_indicators : list string
}.

(** [ArtistGenreProfile(artist_name=...)] with the dataclass defaults. *)
Definition new_profile (artist : string) : ArtistGenreProfile :=
  {| artist_name := artist; classifications := []; confidence_score := 0;
     primary_genre := None; secondary_tags := []; crossover_indicators := [] |}.

Definition primary_genres : list string :=
  ["pop"; "hip-hop"; "rock"; "alternative"; "country";
   "electronic"; "r&b"; "latin"; "folk"; "jazz"; "other"].

Definition primary_genre_mapping : list (string * string) :=
  [
    ("pop", "pop"); ("dance pop", "pop");
    ("electropop", "pop"); ("synth pop", "pop");
    ("teen pop", "pop"); ("power pop", "pop");
    ("art pop", "pop"); ("baroque pop", "pop");
    ("chamber pop", "pop"); ("rap", "hip-hop");
    ("hip-hop", "hip-hop"); ("hip hop", "hip-hop");
    ("trap", "hip-hop"); ("pop rap", "hip-hop");
    ("melodic rap", "hip-hop"); ("conscious hip hop", "hip-hop");
    ("old school hip hop", "hip-hop"); ("east coast hip hop", "hip-hop");
    ("west coast hip hop", "hip-hop"); ("southern hip hop", "hip-hop");
    ("drill", "hip-hop"); ("grime", "hip-hop");
    ("rock", "rock"); ("hard rock", "rock");
    ("classic rock", "rock"); ("progressive rock", "rock");
    ("psychedelic rock", "rock"); ("garage rock", "rock");
    ("blues rock", "rock"); ("folk rock", "rock");
    ("pop rock", "rock"); ("punk rock", "rock");
    ("metal", "rock"); ("heavy metal", "rock");
    ("alternative", "alternative"); ("alternative rock", "alternative");
    ("indie", "alternative"); ("indie rock", "alternative");
    ("indie pop", "alternative"); ("alternative pop", "alternative");
    ("indie folk", "alternative"); ("shoegaze", "alternative");
    ("post-punk", "alternative"); ("post-rock", "alternative");
    ("emo", "alternative"); ("grunge", "alternative");
    ("new wave", "alternative"); ("britpop", "alternative");
    ("country", "country"); ("country pop", "country");
    ("new country", "country"); ("country rock", "country");
    ("americana", "country"); ("bluegrass", "country");
    ("country folk", "country"); ("electronic", "electronic");
    ("edm", "electronic"); ("house", "electronic");
    ("techno", "electronic"); ("trance", "electronic");
    ("dubstep", "electronic"); ("ambient", "electronic");
    ("drum and bass", "electronic"); ("breakbeat", "electronic");
    ("garage", "electronic"); ("uk garage", "electronic");
    ("future bass", "electronic"); ("synthwave", "electronic");
    ("r&b", "r&b"); ("rnb", "r&b");
    ("rhythm and blues", "r&b"); ("soul", "r&b");
    ("neo soul", "r&b"); ("contemporary r&b", "r&b");
    ("funk", "r&b"); ("gospel", "r&b");
    ("motown", "r&b"); ("latin", "latin");
    ("reggaeton", "latin"); ("latin pop", "latin");
    ("latin trap", "latin"); ("salsa", "latin");
    ("bachata", "latin"); ("merengue", "latin");
    ("cumbia", "latin"); ("regional mexican", "latin");
    ("mariachi", "latin"); ("folk", "folk");
    ("acoustic", "folk"); ("singer-songwriter", "folk");
    ("contemporary folk", "folk"); ("traditional folk", "folk");
    ("celtic", "folk"); ("world music", "folk");
    ("world", "folk"); ("jazz", "jazz");
    ("smooth jazz", "jazz"); ("bebop", "jazz");
    ("fusion", "jazz"); ("acid jazz", "jazz");
    ("latin jazz", "jazz"); ("big band", "jazz");
    ("swing", "jazz"); ("cool jazz", "jazz");
    ("hard bop", "jazz") ].

Definition source_weights : list (string * Q) :=
  [ ("chartmetric", 35 # 100); ("spotify", 30 # 100);
    ("lastfm", 25 # 100); ("genius", 10 # 100) ].

Definition _map_to_primary_genre (genre : string) : string :=
  let genre_lower := Py.strip (Py.lower genre) in
  match Dict.get genre_lower primary_genre_mapping with
  | Some primary => primary
  | None =>
      match find (fun entry => Py.contains genre_lower (fst entry)
                               || Py.contains (fst entry) genre_lower)
                 primary_genre_mapping with
      | Some entry => snd entry
      | None => "other"
      end
  end.

(** [self.source_weights.get(classification.source, 0.1) * classification.confidence] *)
Definition vote_weight (c : GenreClassification) : Q :=
  default (1 # 10) (Dict.get (source c) source_weights) * confidence c.

(** One turn of the accumulation loop shared by the reasoning engine and the
    crossover detector: a new genre starts at 0, then the weight is added. *)
Definition vote_step (votes : list (string * Q)) (c : GenreClassification)
    : list (string * Q) :=
  Dict.upsert (_map_to_primary_genre (name c))
              (fun o => default 0 o + vote_weight c) votes.

Definition accumulate (cls : list GenreClassification) : list (string * Q) :=
  fold_left vote_step cls [].

(** [max(votes, key=votes.get)]: the first key of largest value. *)
Definition max_step (best : option (string * Q)) (e : string * Q) : option (string * Q) :=
  match best with
  | None => Some e
  | Some b => if negb (Qle_bool (snd e) (snd b)) then Some e else best
  end.

Definition max_vote (votes : list (string * Q)) : option (string * Q) :=
  fold_left max_step votes None.

(** [sum(votes.values())] *)
Definition sum_votes (votes : list (string * Q)) : Q :=
  fold_left (fun acc e => acc + snd e) votes 0.

(** The names the voting loop adds to the [secondary_tags] set, in order. *)
Definition collected_tags (cls : list GenreClassification) : list string :=
  omap (fun c =>
          if String.eqb (Py.lower (name c)) (_map_to_primary_genre (name c))
          then None else Some (Py.lower (name c)))
       cls.

Definition _detect_crossover_indicators (profile : ArtistGenreProfile) : list string :=
  let genre_strengths := accumulate (classifications profile) in
  let sorted_genres :=
    Dict.sort_desc (fun a b => negb (Qle_bool (snd b) (snd a))) genre_strengths in
  (match sorted_genres with
   | first :: second :: _ =>
       if negb (Qle_bool (snd second) (snd first * (6 # 10)))
       then ["multi_genre_crossover";
             ("primary_" ++ fst first ++ "_secondary_" ++ fst second)%string]
       else []
   | _ => []
   end)
  ++ (if (5 <? length (secondary_tags profile))%nat then ["high_genre_diversity"] else []).

Section Engine.
(** [list(set(l))], see [ProducerGenrePatterns]. *)
Variable list_set : list string -> list string.

Definition _apply_ari_reasoning_engine (profile : ArtistGenreProfile)
    : ArtistGenreProfile :=
  match classifications profile with
  | [] =>
      {| artist_name := artist_name profile;
         classifications := classifications profile;
         confidence_score := 0;
         primary_genre := Some "other";
         secondary_tags := secondary_tags profile;
         crossover_indicators := crossover_indicators profile |}
  | _ =>
      let primary_genre_votes := accumulate (classifications profile) in
      let decided :=
        match max_vote primary_genre_votes with
        | Some (genre, primary_weight) =>
            let total_weight := sum_votes primary_genre_votes in
            (genre,
             if negb (Qle_bool total_weight 0) then primary_weight / total_weight else 0)
        | None => ("other"%string, 0)
        end in
      let tagged :=
        {| artist_name := artist_name profile;
           classifications := classifications profile;
           confidence_score := snd decided;
           primary_genre := Some (fst decided);
           secondary_tags := firstn 10 (list_set (collected_tags (classifications profile)));
           crossover_indicators := crossover_indicators profile |} in
      {| artist_name := artist_name tagged;
         classifications := classifications tagged;
         confidence_score := confidence_score tagged;
         primary_genre := primary_genre tagged;
         secondary_tags := secondary_tags tagged;
         crossover_indicators := _detect_crossover_indicators tagged |}
  end.
End Engine.

(** *** The persisted catalogue *)

Record Songs : Type := {
  song_id : Z;
  song_artist_name : string;
  first_chart_appearance : string
}.

Record Genres : Type := { genre_id : Z; genre_name : string }.

Record SongGenres : Type := {
  sg_song_id : Z;
  sg_genre_id : Z;
  sg_confidence_score : Q
}.

Record database : Type := {
  songs_table : list Songs;
  genres_table : list Genres;
  song_genres_table : list SongGenres
}.

(** SQL [LIKE]: [%] matches any run of characters, [_] any one character. *)
Fixpoint like (pattern : string) : string -> bool :=
  match pattern with
  | EmptyString => fun s => match s with EmptyString => true | _ => false end
  | String c pattern' =>
      if Ascii.eqb c "%" then
        fix any (s : string) : bool :=
          like pattern' s
          || match s with EmptyString => false | String _ s' => any s' end
      else if Ascii.eqb c "_" then
        fun s => match s with String _ s' => like pattern' s' | EmptyString => false end
      else
        fun s =>
          match s with
          | String x s' => Ascii.eqb c x && like pattern' s'
          | EmptyString => false
          end
  end.

(** [column.ilike(pattern)] *)
Definition ilike (pattern s : string) : bool := like (Py.lower pattern) (Py.lower s).

(** The songs of an artist: [Songs.artist_name.ilike('%name%')], narrowed to
    a year when one is given. *)
Definition songs_by (db : database) (artist : string) (year : option string) : list Songs :=
  let by_artist :=
    List.filter (fun song => ilike ("%" ++ artist ++ "%")%string (song_artist_name song))
           (songs_table db) in
  match year with
  | Some y =>
      if Py.truthy y
      then List.filter (fun song => like (y ++ "%")%string (first_chart_appearance song)) by_artist
      else by_artist
  | None => by_artist
  end.

(** What a [Numeric(3, 2)] column gives back on SQLite: the stored float,
    formatted with two decimals ('%.2f', round to nearest, ties to even on
    the exact binary value) and read as a [Decimal]. *)
Definition numeric_3_2 (stored : Q) : Q :=
  let hundredths := Float.double stored * 100 in
  Qmake (Float.nearest_even (Qnum hundredths) (Zpos (Qden hundredths))) 100.

(** The rows that pass [SongGenres.confidence_score > 0.8], a comparison of
    the stored float with the float 0.8. *)
Definition high_confidence_rows (db : database) (song_ids : list Z) : list SongGenres :=
  List.filter (fun row => existsb (Z.eqb (sg_song_id row)) song_ids
                     && negb (Qle_bool (Float.double (sg_confidence_score row))
                                       (Float.double (8 # 10))))
         (song_genres_table db).

(** The genre a row refers to, when the join with [Genres] finds it. *)
Definition genre_of (db : database) (row : SongGenres) : option Genres :=
  find (fun g => Z.eqb (genre_id g) (sg_genre_id row)) (genres_table db).

(** [.first()] has no ORDER BY: the row is whichever the database gives
    first, here the first in table order. *)
Definition _get_existing_classification (db : database) (artist : string)
    (year : option string) : option ArtistGenreProfile :=
  match songs_by db artist year with
  | [] => None
  | songs =>
      let song_ids := map song_id songs in
      let classified := high_confidence_rows db song_ids in
      let classified_count := length classified in
      if ((classified_count =? length songs) && (0 <? classified_count))%nat then
        match omap (fun row => match genre_of db row with
                               | Some g => Some (row, g)
                               | None => None
                               end) classified with
        | (song_genre, genre) :: _ =>
            Some {| artist_name := artist;
                    classifications := [];
                    confidence_score := numeric_3_2 (sg_confidence_score song_genre);
                    primary_genre := Some (genre_name genre);
                    secondary_tags := [];
                    crossover_indicators := [] |}
        | [] => None
        end
      else None
  end.

(** [_get_genius_artist_genres]: the distinct genre names attached to the
    artist's songs. *)
Definition _get_genius_artist_genres (db : database) (artist : string) : list string :=
  let song_ids := map song_id (songs_by db artist None) in
  ProducerGenrePatterns.dedup []
    (omap (fun row =>
             if existsb (Z.eqb (sg_song_id row)) song_ids
             then option_map genre_name (genre_of db row) else None)
          (song_genres_table db)).

(** [featuring_patterns] of [_extract_primary_artist], in source order. *)
Definition featuring_patterns : list Re.regex :=
  let around (r : Re.regex) := Re.seqs [Re.plus Re.ws; r; Re.plus Re.ws] in
  [ (* \s+feat\.?\s+ *)   around (Re.Seq (Re.lit "feat") (Re.opt (Re.lit ".")));
    (* \s+ft\.?\s+ *)     around (Re.Seq (Re.lit "ft") (Re.opt (Re.lit ".")));
    (* \s+featuring\s+ *) around (Re.lit "featuring");
    (* \s+with\s+ *)      around (Re.lit "with");
    (* \s+&\s+ *)         around (Re.lit "&");
    (* \s+x\s+ *)         around (Re.lit "x");
    (* \s+\+\s+ *)        around (Re.lit "+") ].

Fixpoint cut_at_first (patterns : list Re.regex) (s : string) : string :=
  match patterns with
  | [] => s
  | pattern :: rest =>
      match Re.search true pattern s with
      | Some before => Py.strip before
      | None => cut_at_first rest s
      end
  end.

Definition _extract_primary_artist (artist : string) : string :=
  cut_at_first featuring_patterns (Py.strip (Py.lower artist)).

(** The three network adapters. A client is [None] when it could not be
    constructed; a call yields [None] when it raises or returns nothing
    usable, otherwise the genre list of the response (for Last.fm the analysed
    tags, from which [top_genres] is taken). *)
Record adapters : Type := {
  spotify_client : option (string -> option (list string));
  chartmetric_client : option (string -> option (list string));
  lastfm_client : option (string -> option (list (string * Q)))
}.

Definition classification_of (src cat : string) (conf : Q) (genre : string)
    : GenreClassification :=
  {| name := genre; confidence := conf; source := src; category := cat |}.

(** What one run of [classify_artist] gives back: the profile, the
    in-memory cache afterwards and the sources that were queried, in order. *)
Record outcome : Type := {
  profile_of : ArtistGenreProfile;
  cache_of : gmap string ArtistGenreProfile;
  queried : list string
}.

Section Classify.
Variable list_set : list string -> list string.
Variable db : database.
Variable clients : adapters.

(** The source polling of [classify_artist]: the classifications appended
    to the fresh profile and the sources queried. *)
Definition poll_sources (artist primary_artist : string)
    : list GenreClassification * list string :=
  let spotify_genres :=
    match spotify_client clients with
    | Some extract =>
        match extract primary_artist with
        | Some (g :: gs) => Some (g :: gs)
        | _ => None
        end
    | None => None
    end in
  let spotify_has_good_data := match spotify_genres with Some _ => true | None => false end in
  let from_spotify :=
    map (classification_of "spotify" "algorithmic" (7 # 10)) (default [] spotify_genres) in
  let from_chartmetric :=
    if spotify_has_good_data then []
    else match chartmetric_client clients with
         | Some extract =>
             map (classification_of "chartmetric" "industry" (8 # 10))
                 (default [] (extract primary_artist))
         | None => []
         end in
  let from_lastfm :=
    match lastfm_client clients with
    | Some extract =>
        match extract primary_artist with
        | Some genre_tags =>
            map (fun tag => classification_of "lastfm" "community" (snd tag) (fst tag))
                (LastFmGenreClient.top_genres genre_tags)
        | None => []
        end
    | None => []
    end in
  let from_genius :=
    map (classification_of "genius" "database" (6 # 10))
        (_get_genius_artist_genres db artist) in
  (from_spotify ++ from_chartmetric ++ from_lastfm ++ from_genius,
   (match spotify_client clients with Some _ => ["spotify"%string] | None => [] end)
   ++ (if spotify_has_good_data then []
       else match chartmetric_client clients with
            | Some _ => ["chartmetric"%string]
            | None => []
            end)
   ++ (match lastfm_client clients with Some _ => ["lastfm"%string] | None => [] end)
   ++ ["genius"%string]).

(** [classify_artist] past the persisted check: the in-memory cache, then
    the sources and the reasoning engine. *)
Definition classify_from_sources (cache : gmap string ArtistGenreProfile)
    (artist : string) : outcome :=
  let primary_artist := _extract_primary_artist artist in
  let cache_key := ("artist_" ++ primary_artist)%string in
  match cache !! cache_key with
  | Some cached => {| profile_of := cached; cache_of := cache; queried := [] |}
  | None =>
      let (cls, calls) := poll_sources artist primary_artist in
      let profile :=
        _apply_ari_reasoning_engine list_set
          {| artist_name := artist; classifications := cls; confidence_score := 0;
             primary_genre := None; secondary_tags := []; crossover_indicators := [] |} in
      {| profile_of := profile; cache_of := <[cache_key := profile]> cache;
         queried := calls |}
  end.

Definition classify_artist (cache : gmap string ArtistGenreProfile) (artist : string)
    : outcome :=
  match _get_existing_classification db artist None with
  | Some existing_profile =>
      if negb (Qle_bool (confidence_score existing_profile) (Float.double (8 # 10)))
      then {| profile_of := existing_profile; cache_of := cache; queried := [] |}
      else classify_from_sources cache artist
  | None => classify_from_sources cache artist
  end.
End Classify.

End GenreClassificationSystem.

(** ** The rule-based score as the specification words it *)

Module RuleScoreSpec.
Local Open Scope Q_scope.







End RuleScoreSpec.

(** ** Scenarios: concrete catalogues, adapters and inputs *)

Module Scenarios.
Import GenreClassificationSystem.
Local Open Scope Q_scope.

(** A catalogue in which the only song of the artist carries two genres,
    both above 0.8 (a Genius genre and a multi-source one). *)
Definition two_genre_catalogue : database :=
  {| songs_table :=
       [ {| song_id := 1; song_artist_name := "Cher";
            first_chart_appearance := "1999-03-06" |} ];
     genres_table :=
       [ {| genre_id := 1; genre_name := "pop" |};
         {| genre_id := 2; genre_name := "rock" |} ];
     song_genres_table :=
       [ {| sg_song_id := 1; sg_genre_id := 1; sg_confidence_score := 95 # 100 |};
         {| sg_song_id := 1; sg_genre_id := 2; sg_confidence_score := 90 # 100 |} ] |}.

(** The same catalogue with one genre per song. *)
Definition one_genre_catalogue : database :=
  {| songs_table := songs_table two_genre_catalogue;
     genres_table := genres_table two_genre_catalogue;
     song_genres_table :=
       [ {| sg_song_id := 1; sg_genre_id := 1; sg_confidence_score := 95 # 100 |} ] |}.

(** The same catalogue with the stored confidence 0.801: it passes the
    filter above 0.8 and is read back as 0.80. *)
Definition barely_high_catalogue : database :=
  {| songs_table := songs_table two_genre_catalogue;
     genres_table := genres_table two_genre_catalogue;
     song_genres_table :=
       [ {| sg_song_id := 1; sg_genre_id := 1; sg_confidence_score := 801 # 1000 |} ] |}.

(** Three reachable adapters that have nothing to say. *)
Definition silent_clients : adapters :=
  {| spotify_client := Some (fun _ => None);
     chartmetric_client := Some (fun _ => None);
     lastfm_client := Some (fun _ => None) |}.

(** Last.fm alone answers, with the tags pop (confidence 1.0) and rock
    (confidence 0.6); the catalogue is empty. *)
Definition empty_catalogue : database :=
  {| songs_table := []; genres_table := []; song_genres_table := [] |}.

Definition lastfm_pop_rock : adapters :=
  {| spotify_client := None;
     chartmetric_client := None;
     lastfm_client := Some (fun _ => Some [("pop"%string, 1); ("rock"%string, 6 # 10)]) |}.

Definition pop_rock_classifications : list GenreClassification :=
  [ classification_of "lastfm" "community" 1 "pop";
    classification_of "lastfm" "community" (6 # 10) "rock" ].

(** Audio features inside the smooth-jazz ranges. *)
Definition smooth_jazz_features : gmap string Q :=
  <["acousticness" := 5 # 10]> (<["energy" := 4 # 10]> ∅).

End Scenarios.

(** ** Contiguous parts of a text *)

Module TextSpec.

(** [p] occurs in [s] as a contiguous run of characters. *)
Definition part_of (p s : string) : Prop :=
  exists before after, s = (before ++ p ++ after)%string.

(** [s] begins with [p]. *)
Definition prefix_of (p s : string) : Prop :=
  exists after, s = (p ++ after)%string.

End TextSpec.

(** ** phase2/src/api/enhanced_genius_client.py: the search loop *)

Module EnhancedSearch.
Import EnhancedGeniusClient.

(** What the loop reads of a hit: [hit['result']['id']],
    [hit['result']['title']] and [hit['result']['primary_artist']['name']]. *)
Record hit : Type := {
  hit_id : Z;
  hit_title : string;
  hit_artist : string
}.

(** One entry of the hits list: a hit with all three keys; a hit whose title
    and artist can be read but whose id is missing, so that reading it
    after a good match raises; or an entry on which reading the title or the
    artist, or matching them, raises. *)
Inductive entry : Type :=
| Hit (h : hit)
| HitWithoutId (title artist : string)
| Malformed.

(** What one call of the base-class [search_song] does: it raises, or it
    returns a result; the hits list is [None] unless
    [result.success and result.data]. *)
Inductive search_reply : Type :=
| Raised
| Result (hits : option (list entry)).

(** What one call of the base-class [get_song_details] does: it returns the
    song, returns nothing, or raises. *)
Inductive details_reply (Song : Type) : Type :=
| Fetched (song : Song)
| NotFound
| DetailsRaised.
Arguments Fetched {Song} song.
Arguments NotFound {Song}.
Arguments DetailsRaised {Song}.

(** [GeniusResult]: the song found, or the error message. *)
Inductive GeniusResult (Song : Type) : Type :=
| Success (song : Song)
| Failure (error : string).
Arguments Success {Song} song.
Arguments Failure {Song} error.

(** How the loop over the hits ends: with a song, at the end of the hits,
    or with an exception. *)
Inductive scan (Song : Type) : Type :=
| Found (song : Song)
| Exhausted
| Interrupted.
Arguments Found {Song} song.
Arguments Exhausted {Song}.
Arguments Interrupted {Song}.

Section Search.
Variable fuzzywuzzy_available : bool.
Variable Song : Type.

(** The network. A reply may change from one call to the next, so both
    operations take the number of calls made before. *)
Variable search_song : nat -> string -> search_reply.
Variable get_song_details : nat -> Z -> details_reply Song.

(** The loop over [hits[:15]]: the first hit that is a good match and whose
    details can be fetched is returned; a good match without details is
    skipped; an exception ends the loop. The second component is the number
    of calls made so far. *)
Fixpoint scan_hits (song_name artist_name : string) (calls : nat) (hits : list entry)
    : scan Song * nat :=
  match hits with
  | [] => (Exhausted, calls)
  | Malformed :: _ => (Interrupted, calls)
  | HitWithoutId title artist :: rest =>
      if is_good_match fuzzywuzzy_available title artist song_name artist_name
      then (Interrupted, calls)
      else scan_hits song_name artist_name calls rest
  | Hit h :: rest =>
      if is_good_match fuzzywuzzy_available (hit_title h) (hit_artist h)
                       song_name artist_name
      then match get_song_details calls (hit_id h) with
           | Fetched song_result => (Found song_result, S calls)
           | NotFound => scan_hits song_name artist_name (S calls) rest
           | DetailsRaised => (Interrupted, S calls)
           end
      else scan_hits song_name artist_name calls rest
  end.

(** The loop over [range(max_retries)] for one query. The search and the
    scan of its hits are inside one [try]: an exception in either moves on
    to the next attempt, an answer that was scanned to its end, or had
    nothing to scan, ends the loop. *)
Fixpoint try_query (song_name artist_name : string) (attempts : nat) (calls : nat)
    (query : string) : option Song * nat :=
  match attempts with
  | O => (None, calls)
  | S attempts' =>
      match search_song calls query with
      | Raised => try_query song_name artist_name attempts' (S calls) query
      | Result (Some hits) =>
          match scan_hits song_name artist_name (S calls) (firstn 15 hits) with
          | (Found song_result, calls') => (Some song_result, calls')
          | (Exhausted, calls') => (None, calls')
          | (Interrupted, calls') =>
              try_query song_name artist_name attempts' calls' query
          end
      | Result None => (None, S calls)
      end
  end.

(** The loop over the generated queries. *)
Fixpoint try_queries (song_name artist_name : string) (max_retries : nat) (calls : nat)
    (queries : list string) : option Song * nat :=
  match queries with
  | [] => (None, calls)
  | query :: rest =>
      match try_query song_name artist_name max_retries calls query with
      | (Some song_result, calls') => (Some song_result, calls')
      | (None, calls') => try_queries song_name artist_name max_retries calls' rest
      end
  end.

Definition search_song_enhanced (song_name artist_name : string) (max_retries : nat)
    : GeniusResult Song * nat :=
  match try_queries song_name artist_name max_retries 0
          (generate_search_queries song_name artist_name) with
  | (Some song_result, calls) => (Success song_result, calls)
  | (None, calls) => (Failure "No match found with any query strategy", calls)
  end.
End Search.

End EnhancedSearch.

(** ** The weighted vote of a genre, as a sum *)

Module VoteSpec.
Import GenreClassificationSystem.
Local Open Scope Q_scope.

(** The total weight the classifications of a profile give to a primary
    genre: the sum of [vote_weight] over those that map to it. *)
Definition weighted_vote (cls : list GenreClassification) (genre : string) : Q :=
  fold_right
    (fun c total =>
       if String.eqb (_map_to_primary_genre (name c)) genre
       then vote_weight c + total else total)
    0 cls.

End VoteSpec.

(** ** phase3/src/api/lastfm_genre_client.py (tag analysis) *)

Module LastFmGenreAnalysis.
Local Open Scope Q_scope.

(** [self.genre_relevance_weights], in source order. *)
Definition genre_relevance_weights : list (string * Q) :=
  [ ("rock", 1); ("pop", 1); ("hip-hop", 1); ("country", 1); ("electronic", 1);
    ("indie", 1); ("alternative", 1); ("folk", 1); ("jazz", 1); ("blues", 1);
    ("metal", 1); ("punk", 1); ("reggae", 1); ("soul", 1); ("funk", 1);
    ("indie rock", 9 # 10); ("pop rock", 9 # 10); ("alternative rock", 9 # 10);
    ("hip hop", 9 # 10); ("rap", 9 # 10); ("country pop", 9 # 10);
    ("new country", 9 # 10); ("electropop", 9 # 10); ("synthpop", 9 # 10);
    ("dance", 8 # 10); ("house", 8 # 10); ("acoustic", 8 # 10);
    ("singer-songwriter", 8 # 10); ("indie pop", 8 # 10);
    ("chill", 6 # 10); ("upbeat", 6 # 10); ("mellow", 6 # 10); ("energetic", 6 # 10);
    ("catchy", 5 # 10); ("emotional", 5 # 10); ("atmospheric", 5 # 10);
    ("male vocalists", 2 # 10); ("female vocalists", 2 # 10); ("seen live", 1 # 10);
    ("favorites", 1 # 10); ("love", 1 # 10); ("american", 2 # 10); ("british", 2 # 10) ].

(** A tag of the response, after [tag.get('name', '')] and
    [int(tag.get('count', 0))]. *)
Record tag : Type := { tag_name : string; tag_count : Z }.

(** An entry of the analysed list. *)
Record genre_tag : Type := {
  name : string;
  count : Z;
  relevance : Q;
  confidence : Q
}.

(** One turn of the partial-match loop: [relevance = max(relevance, weight * 0.8)]
    when the keyword occurs in the tag name or the tag name in the keyword. *)
Definition partial_step (tag_name : string) (relevance : Q) (entry : string * Q) : Q :=
  if Py.contains (fst entry) tag_name || Py.contains tag_name (fst entry)
  then Qmax relevance (snd entry * (8 # 10))
  else relevance.

(** The relevance computed for a lowercased tag name. *)
Definition relevance_of (tag_name : string) : Q :=
  match Dict.get tag_name genre_relevance_weights with
  | Some weight => weight
  | None => fold_left (partial_step tag_name) genre_relevance_weights 0
  end.

(** The entry appended for a tag, if it is relevant enough. *)
Definition analysed (t : tag) : option genre_tag :=
  let tag_name := Py.lower (tag_name t) in
  let relevance := relevance_of tag_name in
  if negb (Qle_bool relevance (3 # 10)) then
    Some {| name := tag_name;
            count := tag_count t;
            relevance := relevance;
            confidence := Qmin (relevance * (inject_Z (tag_count t) / 100)) 1 |}
  else None.

Definition analyze_genre_relevance (tags : list tag) : list genre_tag :=
  Dict.sort_desc (fun a b => negb (Qle_bool (confidence b) (confidence a)))
                 (omap analysed tags).

(** [top_genres] of [extract_comprehensive_genre_data], from the tags of
    the response. *)
Definition top_genres_of (tags : list tag) : list (string * Q) :=
  LastFmGenreClient.top_genres
    (map (fun g => (name g, confidence g)) (analyze_genre_relevance tags)).

End LastFmGenreAnalysis.

(** ** phase3/scripts/genre_classification_system.py (A&R insights) *)

Module ArInsights.
Import GenreClassificationSystem.
Local Open Scope Q_scope.

(** The dictionary [_generate_ar_insights] returns. An empty
    [market_positioning] or [crossover_potential] is [None]. *)
Record insights : Type := {
  market_positioning : option (string * Q);
  crossover_potential : option (list string * Q);
  source_consensus : list (string * list string);
  recommendations : list string
}.

(** One turn of the loop that fills [source_agreement]. *)
Definition agreement_step (source_agreement : list (string * list string))
    (c : GenreClassification) : list (string * list string) :=
  Dict.upsert (_map_to_primary_genre (name c))
              (fun o => default [] o ++ [source c]) source_agreement.

Definition source_agreement (cls : list GenreClassification)
    : list (string * list string) :=
  fold_left agreement_step cls [].

Definition _generate_ar_insights (profile : ArtistGenreProfile) : insights :=
  {| market_positioning :=
       match primary_genre profile with
       | Some genre =>
           if Py.truthy genre then Some (genre, confidence_score profile) else None
       | None => None
       end;
     crossover_potential :=
       match crossover_indicators profile with
       | [] => None
       | indicators =>
           Some (indicators, inject_Z (Z.of_nat (length indicators)) / 3)
       end;
     source_consensus :=
       List.filter (fun entry => (1 <? length (snd entry))%nat)
                   (source_agreement (classifications profile));
     recommendations :=
       (if negb (Qle_bool (confidence_score profile) (8 # 10))
        then ["high_confidence_classification"%string]
        else if negb (Qle_bool (5 # 10) (confidence_score profile))
             then ["low_confidence_requires_review"%string]
             else [])
       ++ (match crossover_indicators profile with
           | [] => []
           | _ => ["consider_crossover_marketing"%string]
           end) |}.

End ArInsights.

(** * Properties *)

(** ** Float rounding *)

Module FloatFacts.
Local Open Scope Z_scope.

Lemma nearest_even_lower :
  forall n d, 0 < d -> n / d <= Float.nearest_even n d.
Proof.
  intros n d Hd. unfold Float.nearest_even.
  destruct (2 * (n mod d) ?= d); [destruct (Z.even (n / d))| |]; lia.
Qed.

Lemma scale_pos : forall m e, 0 < m -> (0 < Float.scale m e)%Q.
Proof.
  intros m e Hm. unfold Float.scale. destruct e as [|p|p].
  - change 0%Q with (inject_Z 0). rewrite <- Zlt_Qlt. rewrite Z.pow_0_r. lia.
  - change 0%Q with (inject_Z 0). rewrite <- Zlt_Qlt.
    apply Z.mul_pos_pos; [exact Hm|]. apply Z.pow_pos_nonneg; lia.
  - unfold Qlt. cbn. lia.
Qed.

Lemma scaled_quotient_pos :
  forall (n d : positive) e,
    e <= Z.log2 (Zpos n) - Z.log2 (Zpos d) - 1 ->
    Zpos d * 2 ^ Z.max 0 e <= Zpos n * 2 ^ Z.max 0 (- e).
Proof.
  intros n d e He.
  destruct (Z.log2_spec (Zpos n)) as [Hn _]; [lia|].
  destruct (Z.log2_spec (Zpos d)) as [_ Hd]; [lia|].
  pose proof (Z.log2_nonneg (Zpos n)) as Ha.
  pose proof (Z.log2_nonneg (Zpos d)) as Hb.
  set (a := Z.log2 (Zpos n)) in *. set (b := Z.log2 (Zpos d)) in *.
  destruct (Z.le_gt_cases 0 e) as [Hpos | Hneg].
  - rewrite (Z.max_r 0 e) by lia. rewrite (Z.max_l 0 (- e)) by lia.
    rewrite Z.pow_0_r, Z.mul_1_r.
    apply Z.le_trans with (2 ^ (Z.succ b + e)).
    + rewrite Z.pow_add_r by lia.
      apply Z.mul_le_mono_nonneg_r; [apply Z.pow_nonneg; lia | lia].
    + apply Z.le_trans with (2 ^ a); [|exact Hn].
      apply Z.pow_le_mono_r; lia.
  - rewrite (Z.max_l 0 e) by lia. rewrite (Z.max_r 0 (- e)) by lia.
    rewrite Z.pow_0_r, Z.mul_1_r.
    apply Z.le_trans with (2 ^ (a + - e)).
    + apply Z.le_trans with (2 ^ Z.succ b); [lia|].
      apply Z.pow_le_mono_r; lia.
    + rewrite Z.pow_add_r by lia.
      apply Z.mul_le_mono_nonneg_r; [apply Z.pow_nonneg; lia | exact Hn].
Qed.

Lemma nearest_double_pos : forall n d, (0 < Float.nearest_double n d)%Q.
Proof.
  intros n d. unfold Float.nearest_double.
  set (k0 := Z.log2 (Zpos n) - Z.log2 (Zpos d)).
  set (k := if _ <=? _ then k0 else k0 - 1).
  assert (Hk : k <= k0) by (unfold k; destruct (_ <=? _); lia).
  apply scale_pos.
  assert (Hden : 0 < Zpos d * 2 ^ Z.max 0 (k - 52)).
  { apply Z.mul_pos_pos; [lia|]. apply Z.pow_pos_nonneg; lia. }
  pose proof (scaled_quotient_pos n d (k - 52) ltac:(unfold k0 in Hk; lia)) as Hle.
  pose proof (nearest_even_lower (Zpos n * 2 ^ Z.max 0 (- (k - 52)))
                (Zpos d * 2 ^ Z.max 0 (k - 52)) Hden) as Hlow.
  assert (1 <= Zpos n * 2 ^ Z.max 0 (- (k - 52)) / (Zpos d * 2 ^ Z.max 0 (k - 52))).
  { apply Z.div_le_lower_bound; lia. }
  lia.
Qed.

(** Rounding keeps the sign: a positive number has a positive double. *)
Lemma double_pos : forall q, (0 < q)%Q -> (0 < Float.double q)%Q.
Proof.
  intros [n d] Hq. unfold Float.double. cbn [Qnum Qden].
  destruct n as [|n|n].
  - exfalso. unfold Qlt in Hq. cbn in Hq. lia.
  - apply nearest_double_pos.
  - exfalso. unfold Qlt in Hq. cbn in Hq. lia.
Qed.

Lemma double_nonneg : forall q, (0 <= q)%Q -> (0 <= Float.double q)%Q.
Proof.
  intros [n d] Hq. unfold Float.double. cbn [Qnum Qden].
  destruct n as [|n|n].
  - apply Qle_refl.
  - apply Qlt_le_weak, nearest_double_pos.
  - exfalso. unfold Qle in Hq. cbn in Hq. lia.
Qed.

End FloatFacts.

(** ** Persisted classifications and the short circuit of [classify_artist] *)

Module ExistingClassificationFacts.
Import GenreClassificationSystem Scenarios.
Local Open Scope Q_scope.

(** When the persisted check answers with a profile above 0.8, the call
    returns that profile, queries nothing and leaves the cache alone. *)
Lemma classify_artist_short_circuit :
  forall list_set db clients cache artist p,
    _get_existing_classification db artist None = Some p ->
    Qle_bool (confidence_score p) (Float.double (8 # 10)) = false ->
    classify_artist list_set db clients cache artist
    = {| profile_of := p; cache_of := cache; queried := [] |}.
Proof.
  intros list_set db clients cache artist p Hex Hconf.
  unfold classify_artist. rewrite Hex, Hconf. reflexivity.
Qed.

(** Classifying the same artist again, on the cache the first call left and
    an unchanged catalogue, returns the same profile and queries nothing. *)
Lemma classify_artist_twice :
  forall list_set db clients cache artist,
    profile_of (classify_artist list_set db clients
                  (cache_of (classify_artist list_set db clients cache artist)) artist)
    = profile_of (classify_artist list_set db clients cache artist)
    /\ queried (classify_artist list_set db clients
                  (cache_of (classify_artist list_set db clients cache artist)) artist)
       = [].
Proof.
  intros list_set db clients cache artist.
  assert (Hfresh :
    profile_of (classify_from_sources list_set db clients
                  (cache_of (classify_from_sources list_set db clients cache artist)) artist)
    = profile_of (classify_from_sources list_set db clients cache artist)
    /\ queried (classify_from_sources list_set db clients
                  (cache_of (classify_from_sources list_set db clients cache artist)) artist)
       = []).
  { unfold classify_from_sources.
    destruct (cache !! ("artist_" ++ _extract_primary_artist artist)%string)
      as [cached|] eqn:Hc.
    - cbn [cache_of]. rewrite Hc. split; reflexivity.
    - destruct (poll_sources db clients artist (_extract_primary_artist artist))
        as [cls calls].
      cbn [cache_of]. rewrite lookup_insert_eq. split; reflexivity. }
  unfold classify_artist.
  destruct (_get_existing_classification db artist None) as [p|];
    [destruct (Qle_bool (confidence_score p) (Float.double (8 # 10))); cbn [negb]|];
    try exact Hfresh.
  split; reflexivity.
Qed.

(** When the number of high-confidence rows equals the number of songs (as
    with exactly one such row per song) and every row refers to a genre of
    the catalogue, the persisted check returns a profile built from the
    first such row, with the confidence the column gives back and no source
    classification in it. *)
Lemma existing_classification_when_counts_agree :
  forall db artist,
    songs_by db artist None <> [] ->
    length (high_confidence_rows db (map song_id (songs_by db artist None)))
    = length (songs_by db artist None) ->
    (forall row, In row (song_genres_table db) -> genre_of db row <> None) ->
    exists p row genre,
      _get_existing_classification db artist None = Some p
      /\ In row (song_genres_table db)
      /\ genre_of db row = Some genre
      /\ primary_genre p = Some (genre_name genre)
      /\ confidence_score p = numeric_3_2 (sg_confidence_score row)
      /\ classifications p = [].
Proof.
  intros db artist Hsongs Hcount Hfk. unfold _get_existing_classification.
  destruct (songs_by db artist None) as [|song songs] eqn:Hs; [congruence|].
  rewrite Hcount.
  destruct (high_confidence_rows db (map song_id (song :: songs))) as [|row rows] eqn:Hrows;
    [discriminate Hcount|].
  rewrite Nat.eqb_refl. simpl.
  assert (Hin : In row (high_confidence_rows db (map song_id (song :: songs))))
    by (rewrite Hrows; left; reflexivity).
  unfold high_confidence_rows in Hin. apply filter_In in Hin.
  destruct Hin as [Hrow _].
  destruct (genre_of db row) as [genre|] eqn:Hg; [|exfalso; exact (Hfk row Hrow Hg)].
  eexists; exists row, genre. repeat split; try reflexivity; assumption.
Qed.

(** With one high-confidence genre per song the short circuit is taken. *)
Lemma one_genre_short_circuit :
  forall list_set clients cache,
    queried (classify_artist list_set one_genre_catalogue clients cache "Cher") = []
    /\ primary_genre (profile_of (classify_artist list_set one_genre_catalogue
                                    clients cache "Cher")) = Some "pop".
Proof. intros. split; reflexivity. Qed.

(** C1 (fails on the code). Every catalogue entry of the artist carries a
    genre with confidence above 0.8, and some entry does; yet the persisted
    check counts the two high-confidence rows against the one song, answers
    [None], and [classify_artist] goes on to query every source. *)
Theorem existing_classification_counts_rows_not_songs :
  (forall song, In song (songs_by two_genre_catalogue "Cher" None) ->
     exists row, In row (song_genres_table two_genre_catalogue)
                 /\ sg_song_id row = song_id song
                 /\ (8 # 10 < sg_confidence_score row))
  /\ songs_by two_genre_catalogue "Cher" None <> []
  /\ length (high_confidence_rows two_genre_catalogue
               (map song_id (songs_by two_genre_catalogue "Cher" None))) = 2%nat
  /\ _get_existing_classification two_genre_catalogue "Cher" None = None
  /\ forall list_set,
       queried (classify_artist list_set two_genre_catalogue silent_clients ∅ "Cher")
       = ["spotify"; "chartmetric"; "lastfm"; "genius"]%string.
Proof.
  split; [|split; [|split; [|split]]].
  - intros song Hin. cbn in Hin. destruct Hin as [<- | []].
    exists {| sg_song_id := 1; sg_genre_id := 1; sg_confidence_score := 95 # 100 |}.
    split; [left; reflexivity|]. split; [reflexivity|]. reflexivity.
  - discriminate.
  - reflexivity.
  - reflexivity.
  - intros list_set. reflexivity.
Qed.

End ExistingClassificationFacts.

(** ** Query generation *)

Module QueryFacts.
Import EnhancedGeniusClient.

(** No pattern of [suffixes_to_remove] applies to the soundtrack
    parenthetical: the title is returned as it came. *)
Lemma soundtrack_title_not_cleaned :
  clean_title_for_search "Sunflower (Spider-Man: Into the Spider-Verse)"
  = "Sunflower (Spider-Man: Into the Spider-Verse)".
Proof. vm_compute. reflexivity. Qed.

(** C3 (fails on the code). The queries generated for the soundtrack title:
    the first candidate keeps the parenthetical, and so do three more; the
    candidate the claim expects first is not in the list at all. *)
Theorem sunflower_queries :
  generate_search_queries "Sunflower (Spider-Man: Into the Spider-Verse)"
                          "Post Malone & Swae Lee"
  = [ "Sunflower (Spider-Man: Into the Spider-Verse) Post Malone";
      "Sunflower (Spider-Man: Into the Spider-Verse) Post Malone & Swae Lee";
      "Post Malone Sunflower (Spider-Man: Into the Spider-Verse)";
      "Sunflower (Spider-Man: Into the Spider-Verse)";
      "Sunflower Spider Man Into the Spider Verse Post Malone" ]
  /\ hd_error (generate_search_queries "Sunflower (Spider-Man: Into the Spider-Verse)"
                                       "Post Malone & Swae Lee")
     <> Some "Sunflower Post Malone"
  /\ existsb (Py.contains "(Spider-Man: Into the Spider-Verse)")
       (generate_search_queries "Sunflower (Spider-Man: Into the Spider-Verse)"
                                "Post Malone & Swae Lee") = true.
Proof.
  assert (H : generate_search_queries "Sunflower (Spider-Man: Into the Spider-Verse)"
                "Post Malone & Swae Lee"
              = [ "Sunflower (Spider-Man: Into the Spider-Verse) Post Malone";
                  "Sunflower (Spider-Man: Into the Spider-Verse) Post Malone & Swae Lee";
                  "Post Malone Sunflower (Spider-Man: Into the Spider-Verse)";
                  "Sunflower (Spider-Man: Into the Spider-Verse)";
                  "Sunflower Spider Man Into the Spider Verse Post Malone" ])
    by (vm_compute; reflexivity).
  rewrite H. split; [reflexivity|]. split; [discriminate|]. vm_compute. reflexivity.
Qed.

End QueryFacts.

(** ** Crossover detection *)

Module CrossoverFacts.
Import GenreClassificationSystem Scenarios.
Local Open Scope Q_scope.

(** More than five secondary tags always add the diversity indicator. *)
Lemma high_genre_diversity_emitted :
  forall profile,
    (5 < length (secondary_tags profile))%nat ->
    In "high_genre_diversity"%string (_detect_crossover_indicators profile).
Proof.
  intros profile Hlen. unfold _detect_crossover_indicators.
  apply in_or_app. right.
  apply Nat.ltb_lt in Hlen. rewrite Hlen. left. reflexivity.
Qed.

(** C4 (fails on the code at the boundary). Last.fm reports pop with
    confidence 1.0 and rock with confidence 0.6: the accumulated weights are
    0.25 for pop and 0.15 for rock, so the runner-up has exactly 60% of the
    winner's total, and no crossover indicator is emitted. *)
Theorem crossover_missed_at_exactly_sixty_percent :
  map fst (accumulate pop_rock_classifications) = ["pop"; "rock"]%string
  /\ (forall w1 w2, map snd (accumulate pop_rock_classifications) = [w1; w2] ->
        w2 == (60 # 100) * w1)
  /\ _detect_crossover_indicators
       {| artist_name := "Cher"; classifications := pop_rock_classifications;
          confidence_score := 0; primary_genre := None; secondary_tags := [];
          crossover_indicators := [] |} = []
  /\ classifications
       (profile_of (classify_artist ProducerGenrePatterns.insertion_order
                      empty_catalogue lastfm_pop_rock ∅ "Cher"))
     = pop_rock_classifications
  /\ primary_genre
       (profile_of (classify_artist ProducerGenrePatterns.insertion_order
                      empty_catalogue lastfm_pop_rock ∅ "Cher"))
     = Some "pop"%string
  /\ crossover_indicators
       (profile_of (classify_artist ProducerGenrePatterns.insertion_order
                      empty_catalogue lastfm_pop_rock ∅ "Cher"))
     = [].
Proof.
  split; [reflexivity|]. split.
  - intros w1 w2 H. vm_compute in H. injection H as <- <-. reflexivity.
  - repeat split; reflexivity.
Qed.

End CrossoverFacts.

(** ** Producer signatures *)

Module ProducerFacts.
Import ProducerGenrePatterns.

Lemma existsb_eqb_In : forall x l, existsb (String.eqb x) l = true <-> In x l.
Proof.
  intros x l. rewrite existsb_exists. split.
  - intros (y & Hin & Heq). apply String.eqb_eq in Heq. subst. exact Hin.
  - intros Hin. exists x. split; [exact Hin | apply String.eqb_refl].
Qed.

Lemma dedup_spec :
  forall l seen,
    List.NoDup (dedup seen l)
    /\ forall x, In x (dedup seen l) <-> (In x l /\ ~ In x seen).
Proof.
  induction l as [|a l IH]; intros seen; cbn [dedup].
  - split; [constructor | intros x; cbn; tauto].
  - destruct (existsb (String.eqb a) seen) eqn:Hseen.
    + apply existsb_eqb_In in Hseen.
      destruct (IH seen) as [Hnd Hin]. split; [exact Hnd|].
      intros x. rewrite Hin. cbn. split; [tauto|].
      intros [[-> | Hx] Hns]; [contradiction | tauto].
    + assert (Hnot : ~ In a seen).
      { intros Hin. apply existsb_eqb_In in Hin. congruence. }
      destruct (IH (a :: seen)) as [Hnd Hin]. split.
      * constructor; [|exact Hnd]. rewrite Hin. cbn. tauto.
      * intros x. cbn. rewrite Hin. cbn.
        destruct (String.string_dec a x) as [-> | Hne]; tauto.
Qed.

Lemma insertion_order_is_set_iteration : set_iteration insertion_order.
Proof.
  intros l. unfold insertion_order. destruct (dedup_spec l []) as [Hnd Hin].
  split; [exact Hnd|]. intros x. rewrite Hin. cbn. tauto.
Qed.

Lemma reverse_insertion_order_is_set_iteration : set_iteration reverse_insertion_order.
Proof.
  intros l. unfold reverse_insertion_order.
  destruct (dedup_spec l []) as [Hnd Hin]. split.
  - apply List.NoDup_rev. exact Hnd.
  - intros x. rewrite <- in_rev, Hin. cbn. tauto.
Qed.

(** Without a year there is no set in the way: the suggestions come in
    signature-table order. *)
Lemma max_martin_without_year :
  forall list_set,
    option_map suggested_subgenres
      (analyze_producer_contribution list_set ["Max Martin"] None)
    = Some ["dance-pop"; "teen-pop"; "electropop"].
Proof. intros. reflexivity. Qed.

(** Whatever the iteration order of the set, the suggestions for Max Martin
    in 2002 are exactly the set's elements in that order. *)
Lemma max_martin_2002_is_set_order :
  forall list_set,
    set_iteration list_set ->
    option_map suggested_subgenres
      (analyze_producer_contribution list_set ["Max Martin"] (Some 2002%Z))
    = Some (list_set ["dance-pop"; "teen-pop"; "electropop"; "teen-pop"; "dance-pop"]).
Proof.
  intros f Hf.
  set (l5 := ["dance-pop"; "teen-pop"; "electropop"; "teen-pop"; "dance-pop"]).
  assert (E : option_map suggested_subgenres
                (analyze_producer_contribution f ["Max Martin"] (Some 2002%Z))
              = match f l5 ++ [] with
                | [] => None
                | _ => Some (map fst (most_common 3 (Counter (f l5 ++ []))))
                end).
  { assert (G : get_producer_subgenres f "Max Martin" (Some 2002%Z)
                 = Some {| primary := "pop"; subgenres := f l5;
                           confidence := 95 # 100; secondary_genre := None |})
      by (vm_compute; reflexivity).
    unfold analyze_producer_contribution. cbn [omap list_omap]. 
    rewrite G. cbn [map concat subgenres].
    destruct (f l5 ++ []); reflexivity. }
  rewrite E, app_nil_r. clear E.
  destruct (Hf l5) as [Hnd Hin].
  assert (Hperm : Permutation (f l5) ["dance-pop"; "teen-pop"; "electropop"]).
  { apply Permutation.NoDup_Permutation; [exact Hnd | |].
    - repeat constructor; cbn; intuition discriminate.
    - intros x. rewrite Hin. subst l5. cbn. tauto. }
  pose proof (Permutation_length Hperm) as Hlen.
  destruct (f l5) as [|x [|y [|z [|w l']]]]; try discriminate Hlen.
  assert (Hx : In x l5) by (apply Hin; left; reflexivity).
  assert (Hy : In y l5) by (apply Hin; right; left; reflexivity).
  assert (Hz : In z l5) by (apply Hin; right; right; left; reflexivity).
  inversion Hnd as [|? ? Hx' Hnd']; subst.
  inversion Hnd' as [|? ? Hy' Hnd'']; subst.
  cbn in Hx', Hy'.
  subst l5. cbn in Hx, Hy, Hz.
  repeat match goal with
         | H : _ \/ _ |- _ => destruct H as [H | H]
         | H : False |- _ => destruct H
         end; subst; try reflexivity;
    exfalso; tauto.
Qed.

(** C6 (fails on the code). With the year 2002 the signature's subgenres are
    rebuilt as [list(set(...))], and the suggestions come out in the
    iteration order of that set: two admissible iteration orders give two
    different lists, and only one of them is the signature-table order. *)
Theorem max_martin_2002_follows_set_order :
  set_iteration insertion_order
  /\ set_iteration reverse_insertion_order
  /\ option_map suggested_subgenres
       (analyze_producer_contribution insertion_order ["Max Martin"] (Some 2002%Z))
     = Some ["dance-pop"; "teen-pop"; "electropop"]
  /\ option_map suggested_subgenres
       (analyze_producer_contribution reverse_insertion_order ["Max Martin"] (Some 2002%Z))
     = Some ["electropop"; "teen-pop"; "dance-pop"].
Proof.
  split; [exact insertion_order_is_set_iteration|].
  split; [exact reverse_insertion_order_is_set_iteration|].
  split; vm_compute; reflexivity.
Qed.

End ProducerFacts.

(** ** The rule-based subgenre classifier *)

Module ClassifierFacts.
Import MLSubgenreClassifier RuleScoreSpec Scenarios.
Local Open Scope Q_scope.

Lemma Qle_bool_false : forall a b, Qle_bool a b = false <-> b < a.
Proof.
  intros a b. split.
  - intros H. apply Qnot_le_lt. intros Hle. apply Qle_bool_iff in Hle. congruence.
  - intros H. destruct (Qle_bool a b) eqn:E; [|reflexivity].
    apply Qle_bool_iff in E. exfalso. exact (Qlt_not_le _ _ H E).
Qed.



(** The credit is one of 0, 1/2 and 1, whatever the range. *)
Lemma feature_credit_bounds :
  forall value range_tuple,
    0 <= feature_credit value range_tuple /\ feature_credit value range_tuple <= 1.
Proof.
  intros v [lo hi]. unfold feature_credit. cbn [fst snd].
  destruct (between _ _ _); [split; discriminate|].
  destruct (_ || _); split; discriminate.
Qed.


(** The loop keeps [0 <= matches <= total]. *)
Lemma tally_bounds_from :
  forall audio_features profile acc,
    0 <= fst acc -> fst acc <= inject_Z (Z.of_nat (snd acc)) ->
    0 <= fst (fold_left (tally_step audio_features) profile acc)
    /\ fst (fold_left (tally_step audio_features) profile acc)
       <= inject_Z (Z.of_nat (snd (fold_left (tally_step audio_features) profile acc))).
Proof.
  intros f profile. induction profile as [|[k range] rest IH]; intros acc H0 H1.
  - cbn. split; assumption.
  - cbn [fold_left]. unfold tally_step at 2 4 6. cbn [fst snd].
    destruct (f !! k) as [v|]; [|apply IH; assumption].
    destruct (feature_credit_bounds v range) as [Hc0 Hc1].
    apply IH; cbn [fst snd].
    + apply Qle_trans with (fst acc + 0); [rewrite Qplus_0_r; exact H0|].
      apply Qplus_le_r. exact Hc0.
    + rewrite Nat2Z.inj_succ. unfold Z.succ. rewrite inject_Z_plus.
      apply Qplus_le_compat; [exact H1 | exact Hc1].
Qed.

(** Absent features leave the accumulator alone. *)
Lemma tally_skips_absent_from :
  forall (audio_features : gmap string Q) profile acc,
    fold_left (tally_step audio_features) profile acc
    = fold_left (tally_step audio_features)
        (List.filter (present audio_features) profile) acc.
Proof.
  intros f profile. induction profile as [|[k range] rest IH]; intros acc.
  - reflexivity.
  - cbn [fold_left List.filter]. unfold present at 1. cbn [fst].
    destruct (f !! k) as [v|] eqn:Hk.
    + cbn [fold_left]. apply IH.
    + replace (tally_step f acc (k, range)) with acc
        by (unfold tally_step; cbn [fst]; rewrite Hk; reflexivity).
      apply IH.
Qed.

Lemma tally_count_from :
  forall (audio_features : gmap string Q) profile acc,
    snd (fold_left (tally_step audio_features) profile acc)
    = (snd acc + length (List.filter (present audio_features) profile))%nat.
Proof.
  intros f profile. induction profile as [|[k range] rest IH]; intros acc.
  - cbn. lia.
  - cbn [fold_left List.filter]. unfold present at 1. cbn [fst].
    destruct (f !! k) as [v|] eqn:Hk.
    + rewrite IH. unfold tally_step. cbn [fst]. rewrite Hk. cbn [snd length]. lia.
    + replace (tally_step f acc (k, range)) with acc
        by (unfold tally_step; cbn [fst]; rewrite Hk; reflexivity).
      apply IH.
Qed.

Lemma tally_all_absent_from :
  forall (audio_features : gmap string Q) profile acc,
    (forall entry, In entry profile -> audio_features !! fst entry = None) ->
    fold_left (tally_step audio_features) profile acc = acc.
Proof.
  intros f profile. induction profile as [|e rest IH]; intros acc Habs.
  - reflexivity.
  - cbn [fold_left]. unfold tally_step at 2.
    rewrite (Habs e) by (left; reflexivity).
    apply IH. intros e' Hin. apply Habs. right. exact Hin.
Qed.

Lemma profile_match_all_absent :
  forall (audio_features : gmap string Q) profile,
    (forall entry, In entry profile -> audio_features !! fst entry = None) ->
    _calculate_profile_match audio_features profile = 0.
Proof.
  intros f profile Habs. unfold _calculate_profile_match, tally.
  rewrite tally_all_absent_from by exact Habs. reflexivity.
Qed.

Lemma profile_match_bounds :
  forall audio_features profile,
    0 <= _calculate_profile_match audio_features profile
    /\ _calculate_profile_match audio_features profile <= 1.
Proof.
  intros f profile. unfold _calculate_profile_match, tally.
  destruct (tally_bounds_from f profile (0, 0%nat)) as [H0 H1];
    [cbn; discriminate | cbn; discriminate |].
  destruct (fold_left (tally_step f) profile (0, 0%nat)) as [matches total].
  cbn [fst snd] in H0, H1.
  destruct (0 <? total)%nat eqn:Hpos; [|split; discriminate].
  apply Nat.ltb_lt in Hpos.
  assert (Hq : 0 < inject_Z (Z.of_nat total)).
  { change 0 with (inject_Z 0). rewrite <- Zlt_Qlt. lia. }
  split.
  - apply Qle_shift_div_l; [exact Hq|]. rewrite Qmult_0_l. exact H0.
  - apply Qle_shift_div_r; [exact Hq|]. rewrite Qmult_1_l. exact H1.
Qed.

(** The loop of [classify_with_rules], from any starting pair: the score kept
    is at least the starting one and at least every candidate's, and the pair
    kept is the starting one or a candidate with its own score. *)
Lemma best_from :
  forall audio_features subgenre_profiles best,
    snd best <= snd (fold_left (best_step audio_features) subgenre_profiles best)
    /\ (forall entry, In entry subgenre_profiles ->
          _calculate_profile_match audio_features (snd entry)
          <= snd (fold_left (best_step audio_features) subgenre_profiles best))
    /\ (fold_left (best_step audio_features) subgenre_profiles best = best
        \/ exists entry,
             In entry subgenre_profiles
             /\ fold_left (best_step audio_features) subgenre_profiles best
                = (Some (fst entry), _calculate_profile_match audio_features (snd entry))).
Proof.
  intros f profiles. induction profiles as [|e rest IH]; intros best.
  - cbn. split; [apply Qle_refl|]. split; [intros ? []|]. left. reflexivity.
  - cbn [fold_left].
    destruct (IH (best_step f best e)) as (Hge & Hall & Hshape).
    assert (Hstep : snd best <= snd (best_step f best e)
                    /\ _calculate_profile_match f (snd e) <= snd (best_step f best e)).
    { unfold best_step.
      destruct (Qle_bool (_calculate_profile_match f (snd e)) (snd best)) eqn:Hle;
        cbn [negb snd].
      - apply Qle_bool_iff in Hle. split; [apply Qle_refl | exact Hle].
      - apply Qle_bool_false in Hle. split; [apply Qlt_le_weak; exact Hle | apply Qle_refl]. }
    destruct Hstep as [Hs1 Hs2].
    split; [eapply Qle_trans; eassumption|]. split.
    + intros e' [<- | Hin]; [eapply Qle_trans; eassumption | apply Hall; exact Hin].
    + destruct Hshape as [Heq | (e' & Hin & Heq)].
      * rewrite Heq. unfold best_step.
        destruct (Qle_bool (_calculate_profile_match f (snd e)) (snd best));
          cbn [negb]; [left; reflexivity|].
        right. exists e. split; [left; reflexivity | reflexivity].
      * right. exists e'. split; [right; exact Hin | exact Heq].
Qed.

Lemma best_profile_spec :
  forall audio_features subgenre_profiles,
    (forall entry, In entry subgenre_profiles ->
       _calculate_profile_match audio_features (snd entry)
       <= snd (best_profile audio_features subgenre_profiles))
    /\ (best_profile audio_features subgenre_profiles = (None, 0)
        \/ exists entry,
             In entry subgenre_profiles
             /\ best_profile audio_features subgenre_profiles
                = (Some (fst entry), _calculate_profile_match audio_features (snd entry))).
Proof.
  intros f profiles. unfold best_profile.
  destruct (best_from f profiles (None, 0)) as (_ & Hall & Hshape).
  split; assumption.
Qed.

(** An accepted rule match: the score is at least 0.6, it is the score of the
    returned subgenre, and no candidate of the table scores higher. *)
Lemma classify_with_rules_accepts :
  forall rules primary_genre audio_features sg sc,
    classify_with_rules rules primary_genre audio_features = (Some sg, sc) ->
    6 # 10 <= sc
    /\ exists subgenre_profiles profile,
         Dict.get primary_genre rules = Some subgenre_profiles
         /\ In (sg, profile) subgenre_profiles
         /\ sc = _calculate_profile_match audio_features profile
         /\ forall entry, In entry subgenre_profiles ->
              _calculate_profile_match audio_features (snd entry) <= sc.
Proof.
  intros rules g f sg sc H0. unfold classify_with_rules in H0.
  destruct (Dict.get g rules) as [profiles|] eqn:Hget; [|discriminate].
  destruct (best_profile_spec f profiles) as [Hall Hshape].
  destruct (best_profile f profiles) as [bm bs] eqn:Hbest. cbn [snd] in Hall.
  destruct (Qle_bool (6 # 10) bs) eqn:Hacc; [|discriminate].
  injection H0 as -> ->. apply Qle_bool_iff in Hacc.
  split; [exact Hacc|].
  destruct Hshape as [Hnone | ([sg' p] & Hin & Heq)]; [discriminate|].
  cbn [fst snd] in Heq. injection Heq as <- ->.
  exists profiles, p. repeat split; try assumption.
Qed.


Lemma best_profile_empty_features :
  forall subgenre_profiles,
    fold_left (best_step ∅) subgenre_profiles (None, 0) = (None, 0).
Proof.
  intros profiles. induction profiles as [|e rest IH]; [reflexivity|].
  cbn [fold_left]. unfold best_step at 2.
  rewrite profile_match_all_absent by (intros; apply lookup_empty).
  exact IH.
Qed.

Lemma classify_with_rules_empty_features :
  forall rules primary_genre,
    classify_with_rules rules primary_genre ∅ = (None, 0).
Proof.
  intros rules g. unfold classify_with_rules, best_profile.
  destruct (Dict.get g rules) as [profiles|]; [|reflexivity].
  rewrite (best_profile_empty_features profiles). reflexivity.
Qed.





(** Every subgenre name of the rule table is a non-empty string. *)
Lemma rule_table_names_truthy :
  forall primary_genre subgenre_profiles entry,
    Dict.get primary_genre RULE_BASED_SUBGENRES = Some subgenre_profiles ->
    In entry subgenre_profiles ->
    Py.truthy (fst entry) = true.
Proof.
  intros g profiles e Hget Hin. cbn in Hget.
  destruct (String.eqb g "jazz"); [|destruct (String.eqb g "folk"); [|discriminate]];
    injection Hget as <-; cbn in Hin;
    repeat (destruct Hin as [<- | Hin]; [reflexivity|]); destruct Hin.
Qed.

Lemma classify_auto_without_model :
  forall (models : gmap string model_package) primary_genre audio_features,
    models !! primary_genre = None ->
    classify RULE_BASED_SUBGENRES models primary_genre audio_features "auto"
    = match classify_with_rules RULE_BASED_SUBGENRES primary_genre audio_features with
      | (Some sg, sc) =>
          {| subgenre := Some sg; confidence := sc; method := "rules";
             primary_genre := primary_genre |}
      | (None, _) =>
          {| subgenre := None; confidence := 0; method := "none";
             primary_genre := primary_genre |}
      end.
Proof.
  intros models g f Hnone. unfold classify, classify_with_ml. rewrite Hnone.
  cbn [String.eqb Ascii.eqb Bool.eqb orb truthy_opt].
  destruct (classify_with_rules RULE_BASED_SUBGENRES g f) as [[sg|] sc] eqn:Hr;
    [|reflexivity].
  destruct (classify_with_rules_accepts _ _ _ _ _ Hr)
    as (_ & profiles & p & Hget & Hin & _).
  pose proof (rule_table_names_truthy g profiles (sg, p) Hget Hin) as Htruthy.
  cbn [fst] in Htruthy. cbn [truthy_opt]. rewrite Htruthy. reflexivity.
Qed.

Lemma classify_method_is_known :
  forall rules (models : gmap string model_package) primary_genre audio_features m,
    In (method (classify rules models primary_genre audio_features m))
       ["ml"; "rules"; "none"]%string.
Proof.
  intros rules models g f m. unfold classify.
  destruct (String.eqb m "ml" || String.eqb m "auto");
    destruct (String.eqb m "rules" || String.eqb m "auto");
    destruct (classify_with_ml models g f) as [sg1 c1];
    destruct (classify_with_rules rules g f) as [sg2 c2];
    destruct (truthy_opt sg1); destruct (truthy_opt sg2); cbn; tauto.
Qed.

(** *** On the dict the caller passes *)

Lemma numbers_lookup :
  forall (audio_features : gmap string RawClassifier.value) feature,
    RawClassifier.numbers audio_features !! feature
    = match audio_features !! feature with
      | Some (RawClassifier.Number q) => Some q
      | _ => None
      end.
Proof.
  intros f k. unfold RawClassifier.numbers. rewrite lookup_omap.
  destruct (f !! k) as [[q| |s]|]; reflexivity.
Qed.

Lemma comparable_dec :
  forall audio_features entry,
    {RawClassifier.comparable audio_features entry}
    + {~ RawClassifier.comparable audio_features entry}.
Proof.
  intros f e. unfold RawClassifier.comparable.
  destruct (f !! fst e) as [[q| |s]|]; (left; exact I) || (right; intros []).
Qed.

Lemma all_comparable_dec :
  forall audio_features (profile : profile),
    {List.Forall (RawClassifier.comparable audio_features) profile}
    + {exists entry, In entry profile /\ ~ RawClassifier.comparable audio_features entry}.
Proof.
  intros f profile. induction profile as [|e rest [IH | IH]].
  - left. constructor.
  - destruct (comparable_dec f e) as [Hc | Hn].
    + left. constructor; assumption.
    + right. exists e. split; [left; reflexivity | exact Hn].
  - right. destruct IH as (e' & Hin & Hn). exists e'. split; [right; exact Hin | exact Hn].
Qed.

Lemma raw_tally_raised :
  forall audio_features profile,
    fold_left (RawClassifier.tally_step audio_features) profile RawClassifier.TypeError
    = RawClassifier.TypeError.
Proof. intros f profile. induction profile as [|e rest IH]; [reflexivity | exact IH]. Qed.

(** With numbers wherever the profile looks, the loop is the loop on the
    numbers. *)
Lemma raw_tally_from :
  forall audio_features profile acc,
    List.Forall (RawClassifier.comparable audio_features) profile ->
    fold_left (RawClassifier.tally_step audio_features) profile
              (RawClassifier.Returned acc)
    = RawClassifier.Returned
        (fold_left (tally_step (RawClassifier.numbers audio_features)) profile acc).
Proof.
  intros f profile. induction profile as [|e rest IH]; intros [matches total] Hall.
  - reflexivity.
  - inversion Hall as [|? ? Hc Hrest]; subst. cbn [fold_left].
    unfold RawClassifier.tally_step at 2. unfold tally_step at 2.
    rewrite numbers_lookup. unfold RawClassifier.comparable in Hc.
    destruct (f !! fst e) as [[q| |s]|]; try destruct Hc; cbn [fst snd]; apply IH;
      exact Hrest.
Qed.

Lemma raw_tally_raises :
  forall audio_features profile acc entry,
    In entry profile -> ~ RawClassifier.comparable audio_features entry ->
    fold_left (RawClassifier.tally_step audio_features) profile acc
    = RawClassifier.TypeError.
Proof.
  intros f profile. induction profile as [|e rest IH]; intros acc entry Hin Hn.
  - destruct Hin.
  - cbn [fold_left]. destruct Hin as [-> | Hin].
    + destruct acc as [[matches total]|]; [|apply raw_tally_raised].
      unfold RawClassifier.tally_step at 2. unfold RawClassifier.comparable in Hn.
      destruct (f !! fst entry) as [[q| |s]|]; try (exfalso; apply Hn; exact I);
        apply raw_tally_raised.
    + exact (IH _ entry Hin Hn).
Qed.

Lemma raw_profile_match_returns :
  forall audio_features profile,
    List.Forall (RawClassifier.comparable audio_features) profile ->
    RawClassifier._calculate_profile_match audio_features profile
    = RawClassifier.Returned
        (_calculate_profile_match (RawClassifier.numbers audio_features) profile).
Proof.
  intros f profile Hall.
  unfold RawClassifier._calculate_profile_match, RawClassifier.tally.
  rewrite (raw_tally_from f profile (0, 0%nat) Hall).
  unfold _calculate_profile_match, tally.
  destruct (fold_left _ profile (0, 0%nat)) as [matches total]. reflexivity.
Qed.

Lemma raw_profile_match_raises :
  forall audio_features profile,
    RawClassifier._calculate_profile_match audio_features profile
    = RawClassifier.TypeError
    <-> exists entry, In entry profile /\ ~ RawClassifier.comparable audio_features entry.
Proof.
  intros f profile. split.
  - intros H. destruct (all_comparable_dec f profile) as [Hall | Hex]; [|exact Hex].
    rewrite (raw_profile_match_returns f profile Hall) in H. discriminate.
  - intros (e & Hin & Hn).
    unfold RawClassifier._calculate_profile_match, RawClassifier.tally.
    rewrite (raw_tally_raises f profile _ e Hin Hn). reflexivity.
Qed.

Lemma present_numbers :
  forall audio_features entry,
    RawClassifier.comparable audio_features entry ->
    present (RawClassifier.numbers audio_features) entry
    = RawClassifier.present audio_features entry.
Proof.
  intros f e Hc. unfold present, RawClassifier.present. rewrite numbers_lookup.
  unfold RawClassifier.comparable in Hc.
  destruct (f !! fst e) as [[q| |s]|]; try destruct Hc; reflexivity.
Qed.

Lemma filter_present_numbers :
  forall audio_features (profile : profile),
    List.Forall (RawClassifier.comparable audio_features) profile ->
    List.filter (present (RawClassifier.numbers audio_features)) profile
    = List.filter (RawClassifier.present audio_features) profile.
Proof.
  intros f profile Hall. induction Hall as [|e rest Hc _ IH]; [reflexivity|].
  cbn [List.filter]. rewrite (present_numbers f e Hc), IH. reflexivity.
Qed.

Lemma profile_match_skips_absent :
  forall (audio_features : gmap string Q) profile,
    _calculate_profile_match audio_features profile
    = _calculate_profile_match audio_features
        (List.filter (present audio_features) profile).
Proof.
  intros f profile. unfold _calculate_profile_match, tally.
  rewrite (tally_skips_absent_from f profile). reflexivity.
Qed.

(** Full credit for every feature checked: the score is 1. *)
Lemma tally_full_from :
  forall (audio_features : gmap string Q) profile acc,
    (forall feature range_tuple value,
       In (feature, range_tuple) profile ->
       audio_features !! feature = Some value ->
       feature_credit value range_tuple = 1) ->
    fst acc == inject_Z (Z.of_nat (snd acc)) ->
    fst (fold_left (tally_step audio_features) profile acc)
    == inject_Z (Z.of_nat (snd (fold_left (tally_step audio_features) profile acc))).
Proof.
  intros f profile. induction profile as [|[k range] rest IH]; intros acc Hfull Hacc.
  - exact Hacc.
  - cbn [fold_left]. apply IH.
    + intros k' r' v' Hin. apply Hfull. right. exact Hin.
    + unfold tally_step. cbn [fst snd].
      destruct (f !! k) as [v|] eqn:Hk; [|exact Hacc]. cbn [fst snd].
      rewrite (Hfull k range v (or_introl eq_refl) Hk), Hacc.
      rewrite Nat2Z.inj_succ. unfold Z.succ. rewrite inject_Z_plus. reflexivity.
Qed.

Lemma profile_match_full :
  forall (audio_features : gmap string Q) profile,
    (exists entry, In entry profile /\ present audio_features entry = true) ->
    (forall feature range_tuple value,
       In (feature, range_tuple) profile ->
       audio_features !! feature = Some value ->
       feature_credit value range_tuple = 1) ->
    _calculate_profile_match audio_features profile == 1.
Proof.
  intros f profile (e & Hin & Hp) Hfull. unfold _calculate_profile_match, tally.
  pose proof (tally_full_from f profile (0, 0%nat) Hfull (Qeq_refl 0)) as Hm.
  pose proof (tally_count_from f profile (0, 0%nat)) as Hn.
  destruct (fold_left (tally_step f) profile (0, 0%nat)) as [matches total].
  cbn [fst snd] in Hm, Hn.
  assert (Hpos : (0 < total)%nat).
  { rewrite Hn. cbn.
    assert (Hmem : In e (List.filter (present f) profile))
      by (apply filter_In; split; assumption).
    destruct (List.filter (present f) profile); [destruct Hmem | cbn; lia]. }
  apply Nat.ltb_lt in Hpos. rewrite Hpos. rewrite Hm.
  apply Nat.ltb_lt in Hpos.
  field. intros H0.
  assert (Hq : 0 < inject_Z (Z.of_nat total)).
  { change 0 with (inject_Z 0). rewrite <- Zlt_Qlt. lia. }
  rewrite H0 in Hq. exact (Qlt_irrefl _ Hq).
Qed.

Lemma raw_best_raised :
  forall audio_features subgenre_profiles,
    fold_left (RawClassifier.best_step audio_features) subgenre_profiles
              RawClassifier.TypeError
    = RawClassifier.TypeError.
Proof. intros f ps. induction ps as [|e rest IH]; [reflexivity | exact IH]. Qed.

Lemma raw_best_from :
  forall audio_features subgenre_profiles best,
    (forall entry, In entry subgenre_profiles ->
       List.Forall (RawClassifier.comparable audio_features) (snd entry)) ->
    fold_left (RawClassifier.best_step audio_features) subgenre_profiles
              (RawClassifier.Returned best)
    = RawClassifier.Returned
        (fold_left (best_step (RawClassifier.numbers audio_features))
                   subgenre_profiles best).
Proof.
  intros f ps. induction ps as [|e rest IH]; intros best Hall; [reflexivity|].
  cbn [fold_left]. unfold RawClassifier.best_step at 2.
  pose proof (raw_profile_match_returns f (snd e) (Hall e (or_introl eq_refl))) as Hr.
  unfold profile in *. rewrite Hr.
  unfold best_step at 2. apply IH. intros e' Hin. apply Hall. right. exact Hin.
Qed.

Lemma raw_classify_with_rules_returns :
  forall rules primary_genre audio_features,
    (forall subgenre_profiles entry,
       Dict.get primary_genre rules = Some subgenre_profiles ->
       In entry subgenre_profiles ->
       List.Forall (RawClassifier.comparable audio_features) (snd entry)) ->
    RawClassifier.classify_with_rules rules primary_genre audio_features
    = RawClassifier.Returned
        (classify_with_rules rules primary_genre
           (RawClassifier.numbers audio_features)).
Proof.
  intros rules g f Hall. unfold RawClassifier.classify_with_rules, classify_with_rules.
  unfold profile in *.
  destruct (Dict.get g rules) as [ps|] eqn:Hget; [|reflexivity].
  unfold RawClassifier.best_profile, best_profile.
  rewrite (raw_best_from f ps (None, 0)) by (intros e Hin; exact (Hall ps e eq_refl Hin)).
  destruct (fold_left (best_step (RawClassifier.numbers f)) ps (None, 0)) as [bm bs].
  reflexivity.
Qed.

(** The subgenre of a returned pair is the starting one or a name of the
    table. *)
Lemma raw_best_name :
  forall audio_features subgenre_profiles best sg sc,
    fold_left (RawClassifier.best_step audio_features) subgenre_profiles best
    = RawClassifier.Returned (Some sg, sc) ->
    (exists sc0, best = RawClassifier.Returned (Some sg, sc0))
    \/ exists profile, In (sg, profile) subgenre_profiles.
Proof.
  intros f ps. induction ps as [|[name p] rest IH]; intros best sg sc H.
  - left. exists sc. exact H.
  - cbn [fold_left] in H. destruct (IH _ _ _ H) as [(sc0 & Hb) | (p' & Hin)].
    + unfold RawClassifier.best_step in Hb. destruct best as [[bm bs]|]; [|discriminate].
      destruct (RawClassifier._calculate_profile_match f (snd (name, p))) as [score|];
        [|discriminate].
      cbn [fst snd] in Hb.
      destruct (negb (Qle_bool score bs)).
      * injection Hb as -> _. right. exists p. left. reflexivity.
      * injection Hb as -> _. left. exists bs. reflexivity.
    + right. exists p'. right. exact Hin.
Qed.

Lemma raw_classify_auto_without_model :
  forall (models : gmap string RawClassifier.model_package) primary_genre audio_features,
    models !! primary_genre = None ->
    RawClassifier.classify RULE_BASED_SUBGENRES models primary_genre audio_features "auto"
    = match RawClassifier.classify_with_rules RULE_BASED_SUBGENRES primary_genre
              audio_features with
      | RawClassifier.Returned (Some sg, sc) =>
          RawClassifier.Returned
            {| subgenre := Some sg; confidence := sc; method := "rules";
               primary_genre := primary_genre |}
      | RawClassifier.Returned (None, _) =>
          RawClassifier.Returned
            {| subgenre := None; confidence := 0; method := "none";
               primary_genre := primary_genre |}
      | RawClassifier.TypeError => RawClassifier.TypeError
      end.
Proof.
  intros models g f Hnone. unfold RawClassifier.classify, RawClassifier.classify_with_ml.
  rewrite Hnone. cbn [String.eqb Ascii.eqb Bool.eqb orb truthy_opt].
  destruct (RawClassifier.classify_with_rules RULE_BASED_SUBGENRES g f)
    as [[[sg|] sc]|] eqn:Hr; try reflexivity.
  unfold RawClassifier.classify_with_rules in Hr.
  destruct (Dict.get g RULE_BASED_SUBGENRES) as [ps|] eqn:Hget; [|discriminate].
  unfold RawClassifier.best_profile in Hr.
  destruct (fold_left (RawClassifier.best_step f) ps (RawClassifier.Returned (None, 0)))
    as [[bm bs]|] eqn:Hbest; [|discriminate].
  assert (Hbm : bm = Some sg).
  { destruct (Qle_bool (6 # 10) bs); injection Hr as Hr _; [exact Hr | discriminate Hr]. }
  subst bm.
  destruct (raw_best_name f ps _ sg bs Hbest) as [(sc0 & Hb) | (p & Hin)];
    [discriminate|].
  pose proof (rule_table_names_truthy g ps (sg, p) Hget Hin) as Htruthy.
  cbn [fst] in Htruthy. cbn [truthy_opt]. rewrite Htruthy. reflexivity.
Qed.

Lemma raw_classify_returns :
  forall rules (models : gmap string RawClassifier.model_package)
         primary_genre audio_features m,
    (forall subgenre_profiles entry,
       Dict.get primary_genre rules = Some subgenre_profiles ->
       In entry subgenre_profiles ->
       List.Forall (RawClassifier.comparable audio_features) (snd entry)) ->
    exists result,
      RawClassifier.classify rules models primary_genre audio_features m
      = RawClassifier.Returned result
      /\ In (method result) ["ml"; "rules"; "none"]%string.
Proof.
  intros rules models g f m Hall. unfold RawClassifier.classify.
  rewrite (raw_classify_with_rules_returns rules g f Hall).
  destruct (String.eqb m "ml" || String.eqb m "auto");
    destruct (String.eqb m "rules" || String.eqb m "auto");
    destruct (RawClassifier.classify_with_ml models g f) as [sg1 c1];
    destruct (classify_with_rules rules g (RawClassifier.numbers f)) as [sg2 c2];
    destruct (truthy_opt sg1); destruct (truthy_opt sg2);
    eexists; (split; [reflexivity|]); cbn; tauto.
Qed.

(** C10 as stated fails: the function is not total. A feature the profile
    names whose value is not a number (Spotify's object has [None] and
    strings in it) makes the comparison raise, and nothing catches it. *)
Lemma profile_match_raises_on_a_non_number :
  RawClassifier._calculate_profile_match
    {[ "tempo"%string := RawClassifier.NoneValue ]}
    [("tempo"%string, (200 # 1, 350 # 1))]
  = RawClassifier.TypeError
  /\ RawClassifier._calculate_profile_match
       (<["energy"%string := RawClassifier.Number (5 # 10)]>
          {[ "acousticness"%string := RawClassifier.Text "0.5" ]})
       [("acousticness"%string, (4 # 10, 8 # 10)); ("energy"%string, (3 # 10, 6 # 10))]
     = RawClassifier.TypeError.
Proof. split; vm_compute; reflexivity. Qed.

(** C10, amended. [_calculate_profile_match] raises exactly when the profile
    names a feature whose value in the dict is not a number. Otherwise it
    returns a score between 0 and 1. Profile features missing from the dict
    are skipped and not counted in the denominator: the score is the score
    of the profile restricted to the features present, and it is 1 when
    every feature present earns full credit. When no profile feature is
    present the result is 0, with no division; on an empty feature dict the
    rule-based classifier returns no match with score 0. *)
Theorem profile_match_bounded_and_skips_absent :
  forall (audio_features : gmap string RawClassifier.value)
         (profile : MLSubgenreClassifier.profile),
    (RawClassifier._calculate_profile_match audio_features profile
     = RawClassifier.TypeError
     <-> exists entry, In entry profile
                       /\ ~ RawClassifier.comparable audio_features entry)
    /\ (List.Forall (RawClassifier.comparable audio_features) profile ->
        exists score,
          RawClassifier._calculate_profile_match audio_features profile
          = RawClassifier.Returned score
          /\ 0 <= score <= 1
          /\ RawClassifier._calculate_profile_match audio_features
               (List.filter (RawClassifier.present audio_features) profile)
             = RawClassifier.Returned score
          /\ ((exists entry, In entry profile
                             /\ RawClassifier.present audio_features entry = true) ->
              (forall feature range_tuple value,
                 In (feature, range_tuple) profile ->
                 audio_features !! feature = Some (RawClassifier.Number value) ->
                 feature_credit value range_tuple = 1) ->
              score == 1))
    /\ ((forall entry, In entry profile -> audio_features !! fst entry = None) ->
        RawClassifier._calculate_profile_match audio_features profile
        = RawClassifier.Returned 0)
    /\ RawClassifier._calculate_profile_match ∅ profile = RawClassifier.Returned 0
    /\ forall rules primary_genre,
         RawClassifier.classify_with_rules rules primary_genre ∅
         = RawClassifier.Returned (None, 0).
Proof.
  intros f profile.
  split; [exact (raw_profile_match_raises f profile)|].
  split; [|split; [|split]].
  - intros Hall.
    exists (_calculate_profile_match (RawClassifier.numbers f) profile).
    split; [exact (raw_profile_match_returns f profile Hall)|].
    split; [exact (profile_match_bounds _ _)|]. split.
    + rewrite raw_profile_match_returns.
      * rewrite <- (filter_present_numbers f profile Hall).
        rewrite <- profile_match_skips_absent. reflexivity.
      * apply List.Forall_forall. intros e He. apply filter_In in He.
        rewrite List.Forall_forall in Hall. apply Hall. tauto.
    + intros (e & Hin & Hp) Hfull. apply profile_match_full.
      * exists e. split; [exact Hin|].
        rewrite List.Forall_forall in Hall.
        rewrite (present_numbers f e (Hall e Hin)). exact Hp.
      * intros k r v Hk Hv. rewrite numbers_lookup in Hv.
        destruct (f !! k) as [[q| |s]|] eqn:Hfk; try discriminate.
        injection Hv as ->. exact (Hfull k r v Hk Hfk).
  - intros Habs.
    assert (Hall : List.Forall (RawClassifier.comparable f) profile).
    { apply List.Forall_forall. intros e He. unfold RawClassifier.comparable.
      rewrite (Habs e He). exact I. }
    rewrite (raw_profile_match_returns f profile Hall).
    rewrite profile_match_all_absent; [reflexivity|].
    intros e He. rewrite numbers_lookup, (Habs e He). reflexivity.
  - assert (Hall : List.Forall (RawClassifier.comparable ∅) profile).
    { apply List.Forall_forall. intros e He. unfold RawClassifier.comparable.
      rewrite lookup_empty. exact I. }
    rewrite (raw_profile_match_returns ∅ profile Hall).
    rewrite profile_match_all_absent; [reflexivity|].
    intros e He. rewrite numbers_lookup, lookup_empty. reflexivity.
  - intros rules g. rewrite raw_classify_with_rules_returns.
    + replace (RawClassifier.numbers ∅) with (∅ : gmap string Q)
        by (unfold RawClassifier.numbers; rewrite omap_empty; reflexivity).
      rewrite classify_with_rules_empty_features. reflexivity.
    + intros ps e _ _. apply List.Forall_forall. intros e' _.
      unfold RawClassifier.comparable. rewrite lookup_empty. exact I.
Qed.

Lemma profile_match_bounded_and_skips_absent_witness :
  List.Forall
    (RawClassifier.comparable
       (<["acousticness"%string := RawClassifier.Number (5 # 10)]>
          {[ "key"%string := RawClassifier.NoneValue ]}))
    [("acousticness"%string, (4 # 10, 8 # 10)); ("energy"%string, (3 # 10, 6 # 10))]
  /\ exists score,
       RawClassifier._calculate_profile_match
         (<["acousticness"%string := RawClassifier.Number (5 # 10)]>
            {[ "key"%string := RawClassifier.NoneValue ]})
         [("acousticness"%string, (4 # 10, 8 # 10)); ("energy"%string, (3 # 10, 6 # 10))]
       = RawClassifier.Returned score
       /\ 0 <= score <= 1.
Proof.
  assert (Hall : List.Forall
                   (RawClassifier.comparable
                      (<["acousticness"%string := RawClassifier.Number (5 # 10)]>
                         {[ "key"%string := RawClassifier.NoneValue ]}))
                   [("acousticness"%string, (4 # 10, 8 # 10));
                    ("energy"%string, (3 # 10, 6 # 10))]).
  { repeat constructor. }
  split; [exact Hall|].
  destruct (proj1 (proj2 (profile_match_bounded_and_skips_absent _ _)) Hall)
    as (score & Hs & Hb & _).
  exists score. split; assumption.
Defined.

(** C7 as stated fails: [classify] does raise. Without a jazz model the
    rule table is consulted, and an acousticness that is [None] makes
    [_calculate_profile_match] raise a [TypeError] that [classify] lets
    through; so does a string. *)
Lemma classify_raises_on_a_non_number :
  RawClassifier.classify RULE_BASED_SUBGENRES ∅ "jazz"
    (<["energy"%string := RawClassifier.Number (4 # 10)]>
       {[ "acousticness"%string := RawClassifier.NoneValue ]}) "auto"
  = RawClassifier.TypeError
  /\ RawClassifier.classify RULE_BASED_SUBGENRES ∅ "jazz"
       {[ "energy"%string := RawClassifier.Text "high" ]} "rules"
     = RawClassifier.TypeError.
Proof. split; vm_compute; reflexivity. Qed.

(** C7, amended. [classify] returns, with method ml, rules or none,
    whenever every feature that a rule profile of the primary genre names is
    missing from the dict or a number. Without a trained model for the
    primary genre, the automatic method falls through to the rule table: an
    accepted rule match is returned with method rules (jazz has a rule
    table, and features inside the smooth-jazz ranges are classified by it),
    when no rule match is accepted the result is subgenre None, confidence
    0, method none, and an exception of the rule matching is passed on. A
    genre without model and rule table, such as unknown_genre, gives none
    whatever the dict holds. *)
Theorem classify_falls_back_to_rules_then_none :
  forall (models : gmap string RawClassifier.model_package)
         (audio_features : gmap string RawClassifier.value),
    (forall rules primary_genre m,
       (forall subgenre_profiles entry,
          Dict.get primary_genre rules = Some subgenre_profiles ->
          In entry subgenre_profiles ->
          List.Forall (RawClassifier.comparable audio_features) (snd entry)) ->
       exists result,
         RawClassifier.classify rules models primary_genre audio_features m
         = RawClassifier.Returned result
         /\ In (method result) ["ml"; "rules"; "none"]%string)
    /\ (forall primary_genre,
          models !! primary_genre = None ->
          RawClassifier.classify RULE_BASED_SUBGENRES models primary_genre
            audio_features "auto"
          = match RawClassifier.classify_with_rules RULE_BASED_SUBGENRES primary_genre
                    audio_features with
            | RawClassifier.Returned (Some sg, sc) =>
                RawClassifier.Returned
                  {| subgenre := Some sg; confidence := sc; method := "rules";
                     primary_genre := primary_genre |}
            | RawClassifier.Returned (None, _) =>
                RawClassifier.Returned
                  {| subgenre := None; confidence := 0; method := "none";
                     primary_genre := primary_genre |}
            | RawClassifier.TypeError => RawClassifier.TypeError
            end)
    /\ (models !! "jazz"%string = None ->
        Dict.mem "jazz" RULE_BASED_SUBGENRES = true
        /\ RawClassifier.classify RULE_BASED_SUBGENRES models "jazz"
             (RawClassifier.Number <$> smooth_jazz_features) "auto"
           = RawClassifier.Returned
               {| subgenre := Some "smooth-jazz"%string; confidence := 2 # 2;
                  method := "rules"; primary_genre := "jazz" |})
    /\ (models !! "unknown_genre"%string = None ->
        RawClassifier.classify RULE_BASED_SUBGENRES models "unknown_genre"
          audio_features "auto"
        = RawClassifier.Returned
            {| subgenre := None; confidence := 0; method := "none";
               primary_genre := "unknown_genre" |}).
Proof.
  intros models f.
  split; [intros rules g m Hall; exact (raw_classify_returns rules models g f m Hall)|].
  split; [intros g Hnone; apply raw_classify_auto_without_model; exact Hnone|].
  split.
  - intros Hnone. split; [reflexivity|].
    rewrite (raw_classify_auto_without_model models "jazz" _ Hnone).
    vm_compute. reflexivity.
  - intros Hnone.
    rewrite (raw_classify_auto_without_model models "unknown_genre" f Hnone).
    reflexivity.
Qed.

Lemma classify_falls_back_to_rules_then_none_witness :
  (∅ : gmap string RawClassifier.model_package) !! "jazz"%string = None
  /\ RawClassifier.classify RULE_BASED_SUBGENRES ∅ "jazz"
       (RawClassifier.Number <$> smooth_jazz_features) "auto"
     = RawClassifier.Returned
         {| subgenre := Some "smooth-jazz"%string; confidence := 2 # 2;
            method := "rules"; primary_genre := "jazz" |}.
Proof.
  split; [reflexivity|].
  exact (proj2 (proj1 (proj2 (proj2
           (classify_falls_back_to_rules_then_none
              ∅ (RawClassifier.Number <$> smooth_jazz_features)))) eq_refl)).
Defined.

End ClassifierFacts.

(** ** The reasoning engine *)

Module EngineFacts.
Import GenreClassificationSystem.
Local Open Scope Q_scope.

Lemma source_weight_positive :
  forall src, 0 < default (1 # 10) (Dict.get src source_weights).
Proof.
  intros src. cbn.
  repeat match goal with
         | |- context [String.eqb ?a ?b] => destruct (String.eqb a b)
         end; reflexivity.
Qed.

Lemma vote_weight_positive :
  forall c, 0 < confidence c -> 0 < vote_weight c.
Proof.
  intros c Hc. unfold vote_weight.
  apply Qmult_lt_0_compat; [apply source_weight_positive | exact Hc].
Qed.

Lemma upsert_positive :
  forall k w votes,
    0 < w -> Forall (fun e : string * Q => 0 < snd e) votes ->
    Forall (fun e : string * Q => 0 < snd e)
           (Dict.upsert k (fun o => default 0 o + w) votes).
Proof.
  intros k w votes Hw. induction votes as [|[k' v] rest IH]; intros Hpos.
  - cbn. constructor; [|constructor]. cbn. rewrite Qplus_0_l. exact Hw.
  - inversion Hpos as [|? ? Hv Hrest]; subst. cbn in Hv. cbn [Dict.upsert].
    destruct (String.eqb k k').
    + constructor; [|exact Hrest]. cbn.
      apply Qlt_trans with (v + 0); [rewrite Qplus_0_r; exact Hv|].
      apply Qplus_lt_r. exact Hw.
    + constructor; [exact Hv | apply IH; exact Hrest].
Qed.

Lemma upsert_not_nil :
  forall {V : Type} k (f : option V -> V) d, Dict.upsert k f d <> [].
Proof.
  intros V k f [|[k' v] rest]; cbn; [discriminate|].
  destruct (String.eqb k k'); discriminate.
Qed.

(** Accumulating classifications of positive confidence keeps every total
    positive, and leaves a non-empty table once one vote is in. *)
Lemma accumulate_from :
  forall cls votes,
    Forall (fun c => 0 < confidence c) cls ->
    Forall (fun e : string * Q => 0 < snd e) votes ->
    Forall (fun e : string * Q => 0 < snd e) (fold_left vote_step cls votes)
    /\ (votes <> [] \/ cls <> [] -> fold_left vote_step cls votes <> []).
Proof.
  induction cls as [|c rest IH]; intros votes Hcls Hvotes.
  - cbn. split; [exact Hvotes|]. intros [H | H]; [exact H | congruence].
  - inversion Hcls as [|? ? Hc Hrest]; subst. cbn [fold_left].
    assert (Hstep : Forall (fun e : string * Q => 0 < snd e) (vote_step votes c)).
    { unfold vote_step. apply upsert_positive;
        [apply vote_weight_positive; exact Hc | exact Hvotes]. }
    destruct (IH (vote_step votes c) Hrest Hstep) as [Hpos Hne].
    split; [exact Hpos|]. intros _. apply Hne. left.
    unfold vote_step. apply upsert_not_nil.
Qed.

Lemma max_from_some :
  forall votes b,
    exists e, fold_left max_step votes (Some b) = Some e /\ (e = b \/ In e votes).
Proof.
  induction votes as [|e0 rest IH]; intros b.
  - exists b. split; [reflexivity | left; reflexivity].
  - cbn [fold_left max_step].
    destruct (negb (Qle_bool (snd e0) (snd b))).
    + destruct (IH e0) as (e & He & [Heq | Hin]);
        exists e; (split; [exact He|]); right;
        [left; symmetry; exact Heq | right; exact Hin].
    + destruct (IH b) as (e & He & [Heq | Hin]);
        exists e; (split; [exact He|]); [left; exact Heq | right; right; exact Hin].
Qed.

Lemma max_vote_some :
  forall votes, votes <> [] -> exists e, max_vote votes = Some e /\ In e votes.
Proof.
  intros [|e0 rest] Hne; [congruence|].
  unfold max_vote. cbn [fold_left max_step].
  destruct (max_from_some rest e0) as (e & He & [Heq | Hin]);
    exists e; (split; [exact He|]); [left; symmetry; exact Heq | right; exact Hin].
Qed.

Lemma sum_from :
  forall (votes : list (string * Q)) acc,
    Forall (fun e : string * Q => 0 < snd e) votes ->
    acc <= fold_left (fun a e => a + snd e) votes acc
    /\ forall e, In e votes -> acc + snd e <= fold_left (fun a e => a + snd e) votes acc.
Proof.
  induction votes as [|e0 rest IH]; intros acc Hpos.
  - cbn. split; [apply Qle_refl | intros ? []].
  - inversion Hpos as [|? ? H0 Hrest]; subst. cbn [fold_left].
    destruct (IH (acc + snd e0) Hrest) as [Hacc Hall].
    assert (Hstep : acc <= acc + snd e0).
    { apply Qle_trans with (acc + 0); [rewrite Qplus_0_r; apply Qle_refl|].
      apply Qplus_le_r. apply Qlt_le_weak. exact H0. }
    split; [eapply Qle_trans; eassumption|].
    intros e [<- | Hin]; [exact Hacc|].
    apply Qle_trans with (acc + snd e0 + snd e); [|apply Hall; exact Hin].
    apply Qplus_le_l. exact Hstep.
Qed.

(** The share of the winning genre: positive and at most 1. *)
Lemma winning_share :
  forall votes e,
    Forall (fun e : string * Q => 0 < snd e) votes -> In e votes ->
    0 < sum_votes votes
    /\ 0 < snd e / sum_votes votes
    /\ snd e / sum_votes votes <= 1.
Proof.
  intros votes e Hpos Hin.
  assert (He : 0 < snd e).
  { rewrite List.Forall_forall in Hpos. exact (Hpos e Hin). }
  destruct (sum_from votes 0 Hpos) as [_ Hall].
  pose proof (Hall e Hin) as Hle. rewrite Qplus_0_l in Hle.
  fold (sum_votes votes) in Hle.
  assert (Hsum : 0 < sum_votes votes) by (eapply Qlt_le_trans; eassumption).
  split; [exact Hsum|]. split.
  - apply Qlt_shift_div_l; [exact Hsum|]. rewrite Qmult_0_l. exact He.
  - apply Qle_shift_div_r; [exact Hsum|]. rewrite Qmult_1_l. exact Hle.
Qed.

(** The engine on classifications of positive confidence. *)
Lemma engine_confidence :
  forall list_set profile,
    Forall (fun c => 0 < confidence c) (classifications profile) ->
    classifications (_apply_ari_reasoning_engine list_set profile) = classifications profile
    /\ 0 <= confidence_score (_apply_ari_reasoning_engine list_set profile)
    /\ confidence_score (_apply_ari_reasoning_engine list_set profile) <= 1
    /\ (confidence_score (_apply_ari_reasoning_engine list_set profile) == 0
        <-> classifications profile = [])
    /\ (classifications profile <> [] ->
        0 < confidence_score (_apply_ari_reasoning_engine list_set profile)).
Proof.
  intros list_set profile Hpos. unfold _apply_ari_reasoning_engine.
  destruct (classifications profile) as [|c cls] eqn:Hcls.
  - cbn. repeat split; try discriminate; try reflexivity.
    intros H. congruence.
  - cbn [classifications confidence_score].
    destruct (accumulate_from (c :: cls) [] Hpos (List.Forall_nil _)) as [Hvpos Hne].
    fold (accumulate (c :: cls)) in Hvpos, Hne.
    destruct (max_vote_some (accumulate (c :: cls))) as ([g w] & Hmax & Hin).
    { apply Hne. right. discriminate. }
    rewrite Hmax.
    destruct (winning_share _ _ Hvpos Hin) as (Hsum & Hshare0 & Hshare1).
    cbn [snd] in Hshare0, Hshare1.
    assert (Hb : Qle_bool (sum_votes (accumulate (c :: cls))) 0 = false).
    { destruct (Qle_bool (sum_votes (accumulate (c :: cls))) 0) eqn:E; [|reflexivity].
      apply Qle_bool_iff in E. exfalso. exact (Qlt_not_le _ _ Hsum E). }
    cbn [snd fst]. rewrite Hb. cbn [negb].
    split; [reflexivity|].
    split; [apply Qlt_le_weak; exact Hshare0|].
    split; [exact Hshare1|]. split.
    + split; [|discriminate]. intros Hz. exfalso.
      rewrite Hz in Hshare0. exact (Qlt_irrefl 0 Hshare0).
    + intros _. exact Hshare0.
Qed.

(** Every classification that [classify_artist] collects has a positive
    confidence: the constants 0.7, 0.8 and 0.6, and Last.fm tags above 0.4. *)
Lemma polled_confidence_positive :
  forall db clients artist primary_artist,
    Forall (fun c => 0 < confidence c)
           (fst (poll_sources db clients artist primary_artist)).
Proof.
  intros db clients artist primary_artist. unfold poll_sources. cbn [fst].
  repeat apply Forall_app_2.
  - apply List.Forall_forall. intros c Hin. apply in_map_iff in Hin.
    destruct Hin as (g & <- & _). reflexivity.
  - destruct (match spotify_client clients with
              | Some extract =>
                  match extract primary_artist with
                  | Some (g :: gs) => Some (g :: gs)
                  | _ => None
                  end
              | None => None
              end); [constructor|].
    destruct (chartmetric_client clients); [|constructor].
    apply List.Forall_forall. intros c Hin. apply in_map_iff in Hin.
    destruct Hin as (g & <- & _). reflexivity.
  - destruct (lastfm_client clients) as [extract|]; [|constructor].
    destruct (extract primary_artist) as [tags|]; [|constructor].
    apply List.Forall_forall. intros c Hin. apply in_map_iff in Hin.
    destruct Hin as ([tag conf] & <- & Hin). cbn.
    unfold LastFmGenreClient.top_genres in Hin.
    apply filter_In in Hin. destruct Hin as [_ Hconf]. cbn in Hconf.
    apply negb_true_iff in Hconf.
    apply Qlt_trans with (4 # 10); [reflexivity|].
    apply Qnot_le_lt. intros Hle. apply Qle_bool_iff in Hle. congruence.
  - apply List.Forall_forall. intros c Hin. apply in_map_iff in Hin.
    destruct Hin as (g & <- & _). reflexivity.
Qed.

(** C2. For every profile the reasoning engine produces from the
    classifications that [classify_artist] collects, whatever the sources
    answer: the confidence score lies in [0, 1], it is 0 exactly when the
    list of source classifications is empty, and with at least one source
    classification it is strictly positive. The same holds for any list of
    classifications with positive confidences. *)
Theorem reasoning_engine_confidence_score :
  (forall list_set db clients artist,
     let profile :=
       _apply_ari_reasoning_engine list_set
         {| artist_name := artist;
            classifications :=
              fst (poll_sources db clients artist (_extract_primary_artist artist));
            confidence_score := 0; primary_genre := None;
            secondary_tags := []; crossover_indicators := [] |} in
     0 <= confidence_score profile
     /\ confidence_score profile <= 1
     /\ (confidence_score profile == 0 <-> classifications profile = [])
     /\ (classifications profile <> [] -> 0 < confidence_score profile))
  /\ (forall list_set profile,
        Forall (fun c => 0 < confidence c) (classifications profile) ->
        0 <= confidence_score (_apply_ari_reasoning_engine list_set profile)
        /\ confidence_score (_apply_ari_reasoning_engine list_set profile) <= 1
        /\ (confidence_score (_apply_ari_reasoning_engine list_set profile) == 0
            <-> classifications (_apply_ari_reasoning_engine list_set profile) = [])
        /\ (classifications (_apply_ari_reasoning_engine list_set profile) <> [] ->
            0 < confidence_score (_apply_ari_reasoning_engine list_set profile))).
Proof.
  assert (General :
    forall list_set profile,
      Forall (fun c => 0 < confidence c) (classifications profile) ->
      0 <= confidence_score (_apply_ari_reasoning_engine list_set profile)
      /\ confidence_score (_apply_ari_reasoning_engine list_set profile) <= 1
      /\ (confidence_score (_apply_ari_reasoning_engine list_set profile) == 0
          <-> classifications (_apply_ari_reasoning_engine list_set profile) = [])
      /\ (classifications (_apply_ari_reasoning_engine list_set profile) <> [] ->
          0 < confidence_score (_apply_ari_reasoning_engine list_set profile))).
  { intros list_set profile Hpos.
    destruct (engine_confidence list_set profile Hpos) as (Hcls & H0 & H1 & Hiff & Hgt).
    rewrite Hcls. repeat split; try assumption; apply Hiff. }
  split; [|exact General].
  intros list_set db clients artist profile. subst profile.
  apply General. cbn [classifications]. apply polled_confidence_positive.
Qed.

Lemma reasoning_engine_confidence_score_witness :
  Forall (fun c => 0 < confidence c) Scenarios.pop_rock_classifications
  /\ 0 < confidence_score
           (_apply_ari_reasoning_engine ProducerGenrePatterns.insertion_order
              {| artist_name := "Cher";
                 classifications := Scenarios.pop_rock_classifications;
                 confidence_score := 0; primary_genre := None;
                 secondary_tags := []; crossover_indicators := [] |}).
Proof.
  assert (Hpos : Forall (fun c => 0 < confidence c) Scenarios.pop_rock_classifications).
  { repeat constructor. }
  split; [exact Hpos|].
  refine (proj2 (proj2 (proj2
            (proj2 reasoning_engine_confidence_score
               ProducerGenrePatterns.insertion_order
               {| artist_name := "Cher";
                  classifications := Scenarios.pop_rock_classifications;
                  confidence_score := 0; primary_genre := None;
                  secondary_tags := []; crossover_indicators := [] |} Hpos))) _).
  discriminate.
Defined.

End EngineFacts.

(** ** The matcher on whitespace-only text *)

Module WhitespaceFacts.
Import Re.

Lemma all_space_tail :
  forall c s, Py.all_space (String c s) = true -> Py.all_space s = true.
Proof. intros c s H. simpl in H. apply andb_prop in H. tauto. Qed.

Lemma all_space_head :
  forall c s, Py.all_space (String c s) = true -> Py.is_space c = true.
Proof. intros c s H. simpl in H. apply andb_prop in H. tauto. Qed.

Lemma all_space_append :
  forall a b, Py.all_space a = true -> Py.all_space b = true ->
              Py.all_space (a ++ b)%string = true.
Proof.
  induction a as [|c a IH]; intros b Ha Hb; [exact Hb|].
  simpl. rewrite (all_space_head _ _ Ha). simpl. apply IH; [|exact Hb].
  exact (all_space_tail _ _ Ha).
Qed.

Lemma or_else_some :
  forall a b x, or_else a b = Some x -> a = Some x \/ (a = None /\ b tt = Some x).
Proof. intros [y|] b x H; cbn in H; [left; exact H | right; tauto]. Qed.

(** A successful star hands a whitespace-only rest to its continuation,
    provided one iteration of the body does. *)
Lemma star_loop_reaches :
  forall (step : option ascii -> string -> cont -> result) g k x,
    (forall prev s k' y, Py.all_space s = true -> step prev s k' = Some y ->
       exists p' s', Py.all_space s' = true /\ k' p' s' = Some y) ->
    forall n prev s,
      Py.all_space s = true ->
      star_loop step g k n prev s = Some x ->
      exists p' s', Py.all_space s' = true /\ k p' s' = Some x.
Proof.
  intros step g k x Hstep. induction n as [|n IH]; intros prev s Hs H.
  - cbn in H. exists prev, s. tauto.
  - cbn [star_loop] in H.
    assert (Hagain :
      step prev s
        (fun p' s' =>
           if (String.length s' <? String.length s)%nat
           then star_loop step g k n p' s' else None) = Some x ->
      exists p' s', Py.all_space s' = true /\ k p' s' = Some x).
    { intros Hb. destruct (Hstep _ _ _ _ Hs Hb) as (p' & s' & Hs' & Hk).
      destruct (String.length s' <? String.length s)%nat; [|discriminate].
      exact (IH p' s' Hs' Hk). }
    destruct g; apply or_else_some in H; destruct H as [H | [_ H]].
    + exact (Hagain H).
    + exists prev, s. tauto.
    + exists prev, s. tauto.
    + exact (Hagain H).
Qed.

(** On whitespace-only text a successful match hands a whitespace-only rest
    to its continuation. *)
Lemma rmatch_reaches :
  forall ic r prev s k x,
    Py.all_space s = true ->
    rmatch ic r prev s k = Some x ->
    exists p' s', Py.all_space s' = true /\ k p' s' = Some x.
Proof.
  intros ic r. induction r as [|c|p|a IHa b IHb|a IHa b IHb|g a IHa| | |];
    intros prev s k x Hs H; cbn [rmatch] in H.
  - exists prev, s. tauto.
  - destruct s as [|y s']; [discriminate|].
    destruct (char_eq ic c y); [|discriminate].
    exists (Some y), s'. split; [exact (all_space_tail _ _ Hs) | exact H].
  - destruct s as [|y s']; [discriminate|].
    destruct (p y); [|discriminate].
    exists (Some y), s'. split; [exact (all_space_tail _ _ Hs) | exact H].
  - destruct (IHa _ _ _ _ Hs H) as (p' & s' & Hs' & Hb).
    exact (IHb _ _ _ _ Hs' Hb).
  - apply or_else_some in H. destruct H as [H | [_ H]];
      [exact (IHa _ _ _ _ Hs H) | exact (IHb _ _ _ _ Hs H)].
  - apply (star_loop_reaches (rmatch ic a) g k x) with (n := String.length s) (prev := prev) (s := s);
      [|exact Hs | exact H].
    intros prev0 s0 k' y Hs0 Hy. exact (IHa _ _ _ _ Hs0 Hy).
  - destruct prev; [discriminate|]. exists None, s. tauto.
  - destruct s as [|c [|c' s']].
    + exists prev, EmptyString. tauto.
    + destruct (Ascii.eqb c newline); [|discriminate].
      exists prev, (String c EmptyString). tauto.
    + discriminate.
  - destruct (xorb (is_word_opt prev) (is_word_opt (head s))); [|discriminate].
    exists prev, s. tauto.
Qed.

Lemma rmatch_fails_when_continuation_fails :
  forall ic r prev s k,
    Py.all_space s = true ->
    (forall p' s', Py.all_space s' = true -> k p' s' = None) ->
    rmatch ic r prev s k = None.
Proof.
  intros ic r prev s k Hs Hk.
  destruct (rmatch ic r prev s k) as [x|] eqn:H; [|reflexivity].
  destruct (rmatch_reaches _ _ _ _ _ _ Hs H) as (p' & s' & Hs' & Hx).
  rewrite (Hk p' s' Hs') in Hx. discriminate.
Qed.

Lemma lower_char_space :
  forall c, Py.is_space c = true -> Py.lower_char c = c.
Proof.
  intros c Hc. unfold Py.lower_char.
  destruct (Py.is_upper c) eqn:Hu; [|reflexivity].
  exfalso. unfold Py.is_space in Hc. unfold Py.is_upper in Hu.
  apply andb_prop in Hu. destruct Hu as [Hu1 Hu2].
  apply Nat.leb_le in Hu1, Hu2.
  apply orb_prop in Hc. destruct Hc as [Hc | Hc]; apply andb_prop in Hc;
    destruct Hc as [Hc1 Hc2]; apply Nat.leb_le in Hc1, Hc2; lia.
Qed.

Lemma lower_char_keeps_nonspace :
  forall c, Py.is_space c = false -> Py.is_space (Py.lower_char c) = false.
Proof.
  intros c Hc. unfold Py.lower_char.
  destruct (Py.is_upper c) eqn:Hu; [|exact Hc].
  unfold Py.is_upper in Hu. apply andb_prop in Hu. destruct Hu as [Hu1 Hu2].
  apply Nat.leb_le in Hu1, Hu2.
  unfold Py.is_space. rewrite nat_ascii_embedding by lia.
  apply orb_false_intro; apply andb_false_intro2; apply Nat.leb_gt; lia.
Qed.

(** A literal that is not a space does not match a space, with or without
    [re.IGNORECASE]. *)
Lemma char_eq_space :
  forall ic c y, Py.is_space c = false -> Py.is_space y = true -> char_eq ic c y = false.
Proof.
  intros ic c y Hc Hy. unfold char_eq. destruct ic.
  - rewrite (lower_char_space y Hy).
    destruct (Ascii.eqb (Py.lower_char c) y) eqn:E; [|reflexivity].
    apply Ascii.eqb_eq in E. pose proof (lower_char_keeps_nonspace c Hc) as Hn.
    rewrite E in Hn. congruence.
  - destruct (Ascii.eqb c y) eqn:E; [|reflexivity].
    apply Ascii.eqb_eq in E. subst. congruence.
Qed.

(** A pattern that needs a non-space character matches nowhere in
    whitespace-only text. *)
Lemma rmatch_needs_nonspace :
  forall ic r,
    needs_nonspace r = true ->
    forall prev s k, Py.all_space s = true -> rmatch ic r prev s k = None.
Proof.
  intros ic r. induction r as [|c|p|a IHa b IHb|a IHa b IHb|g a IHa| | |];
    intros Hneed prev s k Hs; cbn [needs_nonspace] in Hneed; try discriminate;
    cbn [rmatch].
  - destruct s as [|y s']; [reflexivity|].
    apply negb_true_iff in Hneed.
    rewrite (char_eq_space ic c y Hneed (all_space_head _ _ Hs)). reflexivity.
  - apply orb_prop in Hneed. destruct Hneed as [Ha | Hb].
    + exact (IHa Ha prev s _ Hs).
    + apply rmatch_fails_when_continuation_fails; [exact Hs|].
      intros p' s' Hs'. exact (IHb Hb p' s' k Hs').
  - apply andb_prop in Hneed. destruct Hneed as [Ha Hb].
    rewrite (IHa Ha prev s k Hs). cbn. exact (IHb Hb prev s k Hs).
Qed.

(** Such a pattern leaves whitespace-only text as it is. *)
Lemma sub_from_needs_nonspace :
  forall ic r repl,
    needs_nonspace r = true ->
    forall n prev s, Py.all_space s = true -> sub_from ic r repl n prev s = s.
Proof.
  intros ic r repl Hneed. induction n as [|n IH]; intros prev s Hs; [reflexivity|].
  cbn [sub_from]. unfold match_here.
  rewrite (rmatch_needs_nonspace ic r Hneed prev s _ Hs).
  destruct s as [|c s']; [reflexivity|].
  rewrite (IH (Some c) s' (all_space_tail _ _ Hs)). reflexivity.
Qed.

Lemma sub_needs_nonspace :
  forall ic r repl s,
    needs_nonspace r = true -> Py.all_space s = true -> sub ic r repl s = s.
Proof. intros. unfold sub. apply sub_from_needs_nonspace; assumption. Qed.

(** Substituting whitespace into whitespace-only text leaves whitespace. *)
Lemma sub_from_all_space :
  forall ic r repl,
    Py.all_space repl = true ->
    forall n prev s, Py.all_space s = true ->
                     Py.all_space (sub_from ic r repl n prev s) = true.
Proof.
  intros ic r repl Hrepl. induction n as [|n IH]; intros prev s Hs; [exact Hs|].
  cbn [sub_from].
  destruct (match_here ic r prev s) as [[p' rest]|] eqn:Hm.
  - unfold match_here in Hm.
    destruct (rmatch_reaches _ _ _ _ _ _ Hs Hm) as (p'' & s'' & Hs'' & Heq).
    injection Heq as -> ->.
    destruct (String.length rest <? String.length s)%nat.
    + apply all_space_append; [exact Hrepl | apply IH; exact Hs''].
    + destruct s as [|c s']; [exact Hrepl|].
      apply all_space_append; [exact Hrepl|].
      simpl. rewrite (all_space_head _ _ Hs). simpl.
      apply IH. exact (all_space_tail _ _ Hs).
  - destruct s as [|c s']; [reflexivity|].
    simpl. rewrite (all_space_head _ _ Hs). simpl.
    apply IH. exact (all_space_tail _ _ Hs).
Qed.

Lemma lstrip_all_space :
  forall s, Py.all_space s = true -> Py.lstrip s = EmptyString.
Proof.
  induction s as [|c s IH]; intros Hs; [reflexivity|].
  simpl. rewrite (all_space_head _ _ Hs). apply IH.
  exact (all_space_tail _ _ Hs).
Qed.

Lemma strip_all_space :
  forall s, Py.all_space s = true -> Py.strip s = EmptyString.
Proof. intros s Hs. unfold Py.strip. rewrite (lstrip_all_space s Hs). reflexivity. Qed.

End WhitespaceFacts.

(** ** The title/artist matcher *)

Module MatcherFacts.
Import EnhancedGeniusClient WhitespaceFacts.
Local Open Scope Z_scope.

Lemma fold_sub_needs_nonspace :
  forall patterns s,
    forallb Re.needs_nonspace patterns = true ->
    Py.all_space s = true ->
    fold_left (fun acc pattern => Re.sub true pattern "" acc) patterns s = s.
Proof.
  induction patterns as [|p ps IH]; intros s Hall Hs; [reflexivity|].
  simpl in Hall. apply andb_prop in Hall. destruct Hall as [Hp Hps].
  simpl. rewrite (sub_needs_nonspace true p "" s Hp Hs). exact (IH s Hps Hs).
Qed.

Lemma fold_censor_needs_nonspace :
  forall (words : list (Re.regex * string)) s,
    forallb (fun pr => Re.needs_nonspace (fst pr)) words = true ->
    Py.all_space s = true ->
    fold_left (fun acc pr => Re.sub true (fst pr) (snd pr) acc) words s = s.
Proof.
  induction words as [|w ws IH]; intros s Hall Hs; [reflexivity|].
  simpl in Hall. apply andb_prop in Hall. destruct Hall as [Hw Hws].
  simpl. rewrite (sub_needs_nonspace true (fst w) (snd w) s Hw Hs).
  exact (IH s Hws Hs).
Qed.

(** An empty or whitespace-only title is cleaned to the empty string. *)
Lemma clean_title_all_space :
  forall title, Py.all_space title = true -> clean_title_for_search title = "".
Proof.
  intros title Hs. unfold clean_title_for_search.
  rewrite (fold_sub_needs_nonspace suffixes_to_remove title) by (reflexivity || exact Hs).
  rewrite (fold_censor_needs_nonspace censored_words title) by (reflexivity || exact Hs).
  apply strip_all_space. unfold collapse_spaces, Re.sub.
  apply sub_from_all_space; [reflexivity | exact Hs].
Qed.

Lemma title_norm_all_space :
  forall title, Py.all_space title = true -> genius_title_norm title = "".
Proof.
  intros title Hs. unfold genius_title_norm.
  rewrite (clean_title_all_space title Hs). reflexivity.
Qed.

Lemma ratio_empty_l : forall x, x <> ""%string -> Fuzz.ratio "" x = 0.
Proof.
  intros x Hx. unfold Fuzz.ratio.
  destruct x as [|c x']; [congruence|]. reflexivity.
Qed.

Lemma ratio_empty_r : forall x, x <> ""%string -> Fuzz.ratio x "" = 0.
Proof.
  intros x Hx. unfold Fuzz.ratio.
  destruct x as [|c x']; [congruence|].
  simpl String.eqb. simpl String.length. simpl Nat.eqb. reflexivity.
Qed.

(** Below 85 artist similarity the parenthetical-free variant never raises
    the best title similarity, whatever the similarity function. *)
Lemma best_is_plain_with_weak_artist :
  forall ratio gt ga ot oa,
    artist_similarity ratio ga oa < 85 ->
    best_title_similarity ratio gt ga ot oa = plain_title_similarity ratio gt ot.
Proof.
  intros ratio gt ga ot oa Hlow. unfold best_title_similarity.
  destruct (plain_title_similarity ratio gt ot <? title_similarity_no_parens ratio gt ot)
    eqn:Hcmp.
  - destruct (85 <=? artist_similarity ratio ga oa) eqn:Hstrong; [|reflexivity].
    apply Z.leb_le in Hstrong. lia.
  - apply Z.ltb_ge in Hcmp. lia.
Qed.

(** With a strong artist match the variant is eligible: the best similarity
    is the largest of the four. *)
Lemma best_is_max_of_four_with_strong_artist :
  forall ratio gt ga ot oa,
    85 <= artist_similarity ratio ga oa ->
    best_title_similarity ratio gt ga ot oa
    = Z.max (plain_title_similarity ratio gt ot) (title_similarity_no_parens ratio gt ot).
Proof.
  intros ratio gt ga ot oa Hstrong. unfold best_title_similarity.
  apply Z.leb_le in Hstrong. rewrite Hstrong.
  destruct (plain_title_similarity ratio gt ot <? title_similarity_no_parens ratio gt ot)
    eqn:Hcmp; [|reflexivity].
  apply Z.ltb_lt in Hcmp. lia.
Qed.

(** C5 as stated fails in its example. On the Holla Back input the titles
    do not match once the parentheticals are removed: the candidate
    "Holla Back" stays, the query "Young'n (Holla Back)" becomes "young'n",
    and their similarity is 12. The match is rejected because the best
    title similarity, 67, is below 70; it is rejected as well when the two
    artists are the same, so the artist similarity plays no part in it. *)
Lemma holla_back_titles_differ_when_stripped :
  remove_all_parentheticals (genius_title_norm "Holla Back") = "holla back"%string
  /\ remove_all_parentheticals (genius_title_norm "Young'n (Holla Back)")
     = "young'n"%string
  /\ title_similarity_no_parens Fuzz.ratio "Holla Back" "Young'n (Holla Back)" = 12
  /\ plain_title_similarity Fuzz.ratio "Holla Back" "Young'n (Holla Back)" = 67
  /\ artist_similarity Fuzz.ratio "Right Artist" "Right Artist" = 100
  /\ is_good_match true "Holla Back" "Right Artist" "Young'n (Holla Back)" "Right Artist"
     = false.
Proof. repeat split; vm_compute; reflexivity. Qed.

(** C5, amended. In [_is_good_match], whenever the artist similarity is
    below 85 the all-parentheticals-removed variant is left out of the best
    title similarity, which is then the maximum of the as-is,
    featuring-removed and article-removed variants; from 85 on it takes
    part in the maximum. This holds for any similarity function. The Holla
    Back input is rejected, with artist similarity 75 and best title
    similarity 67. The artist decides for the query "(Young'n) Holla Back":
    without parentheticals the titles are equal, the other variants reach
    67, and the candidate is rejected for "Wrong Artist" and accepted for
    "Right Artist". *)
Theorem parenthetical_variant_counts_only_with_strong_artist :
  (forall ratio gt ga ot oa,
     artist_similarity ratio ga oa < 85 ->
     best_title_similarity ratio gt ga ot oa
     = max3 (title_similarity ratio gt ot) (title_similarity_no_feat ratio gt ot)
            (title_similarity_no_article ratio gt ot))
  /\ (forall ratio gt ga ot oa,
        85 <= artist_similarity ratio ga oa ->
        best_title_similarity ratio gt ga ot oa
        = Z.max (max3 (title_similarity ratio gt ot)
                      (title_similarity_no_feat ratio gt ot)
                      (title_similarity_no_article ratio gt ot))
                (title_similarity_no_parens ratio gt ot))
  /\ artist_similarity Fuzz.ratio "Wrong Artist" "Right Artist" = 75
  /\ best_title_similarity Fuzz.ratio "Holla Back" "Wrong Artist"
       "Young'n (Holla Back)" "Right Artist" = 67
  /\ is_good_match true "Holla Back" "Wrong Artist" "Young'n (Holla Back)" "Right Artist"
     = false
  /\ title_similarity_no_parens Fuzz.ratio "Holla Back" "(Young'n) Holla Back" = 100
  /\ best_title_similarity Fuzz.ratio "Holla Back" "Wrong Artist"
       "(Young'n) Holla Back" "Right Artist" = 67
  /\ is_good_match true "Holla Back" "Wrong Artist" "(Young'n) Holla Back" "Right Artist"
     = false
  /\ is_good_match true "Holla Back" "Right Artist" "(Young'n) Holla Back" "Right Artist"
     = true.
Proof.
  split; [intros; apply best_is_plain_with_weak_artist; assumption|].
  split; [intros; apply best_is_max_of_four_with_strong_artist; assumption|].
  repeat split; vm_compute; reflexivity.
Qed.

Lemma parenthetical_variant_counts_only_with_strong_artist_witness :
  artist_similarity Fuzz.ratio "Wrong Artist" "Right Artist" < 85
  /\ max3 (title_similarity Fuzz.ratio "Holla Back" "(Young'n) Holla Back")
          (title_similarity_no_feat Fuzz.ratio "Holla Back" "(Young'n) Holla Back")
          (title_similarity_no_article Fuzz.ratio "Holla Back" "(Young'n) Holla Back")
     < title_similarity_no_parens Fuzz.ratio "Holla Back" "(Young'n) Holla Back"
  /\ best_title_similarity Fuzz.ratio "Holla Back" "Wrong Artist"
       "(Young'n) Holla Back" "Right Artist"
     = max3 (title_similarity Fuzz.ratio "Holla Back" "(Young'n) Holla Back")
            (title_similarity_no_feat Fuzz.ratio "Holla Back" "(Young'n) Holla Back")
            (title_similarity_no_article Fuzz.ratio "Holla Back" "(Young'n) Holla Back").
Proof.
  assert (Hlow : artist_similarity Fuzz.ratio "Wrong Artist" "Right Artist" < 85)
    by (vm_compute; reflexivity).
  split; [exact Hlow|].
  split; [vm_compute; reflexivity|].
  exact (proj1 parenthetical_variant_counts_only_with_strong_artist Fuzz.ratio
           "Holla Back" "Wrong Artist" "(Young'n) Holla Back" "Right Artist" Hlow).
Defined.

(** With fuzzy matching, a title that is empty or whitespace-only against a
    title whose four compared variants are all non-empty: every similarity is
    0 and the match is rejected. *)
Lemma blank_genius_title_rejected :
  forall gt ga ot oa,
    Py.all_space gt = true ->
    genius_title_norm ot <> ""%string ->
    remove_feat (genius_title_norm ot) <> ""%string ->
    remove_articles (genius_title_norm ot) <> ""%string ->
    remove_all_parentheticals (genius_title_norm ot) <> ""%string ->
    is_good_match true gt ga ot oa = false.
Proof.
  intros gt ga ot oa Hblank H1 H2 H3 H4.
  unfold is_good_match, _is_good_match. simpl negb. cbv iota.
  assert (Hbest : best_title_similarity Fuzz.ratio gt ga ot oa = 0).
  { unfold best_title_similarity, plain_title_similarity, title_similarity,
      title_similarity_no_feat, title_similarity_no_article, title_similarity_no_parens.
    rewrite (title_norm_all_space gt Hblank).
    change (remove_feat "") with ""%string.
    change (remove_articles "") with ""%string.
    change (remove_all_parentheticals "") with ""%string.
    rewrite (ratio_empty_l _ H1), (ratio_empty_l _ H2), (ratio_empty_l _ H3),
      (ratio_empty_l _ H4).
    reflexivity. }
  rewrite Hbest. reflexivity.
Qed.

Lemma blank_original_title_rejected :
  forall gt ga ot oa,
    Py.all_space ot = true ->
    genius_title_norm gt <> ""%string ->
    remove_feat (genius_title_norm gt) <> ""%string ->
    remove_articles (genius_title_norm gt) <> ""%string ->
    remove_all_parentheticals (genius_title_norm gt) <> ""%string ->
    is_good_match true gt ga ot oa = false.
Proof.
  intros gt ga ot oa Hblank H1 H2 H3 H4.
  unfold is_good_match, _is_good_match. simpl negb. cbv iota.
  assert (Hbest : best_title_similarity Fuzz.ratio gt ga ot oa = 0).
  { unfold best_title_similarity, plain_title_similarity, title_similarity,
      title_similarity_no_feat, title_similarity_no_article, title_similarity_no_parens.
    rewrite (title_norm_all_space ot Hblank).
    change (remove_feat "") with ""%string.
    change (remove_articles "") with ""%string.
    change (remove_all_parentheticals "") with ""%string.
    rewrite (ratio_empty_r _ H1), (ratio_empty_r _ H2), (ratio_empty_r _ H3),
      (ratio_empty_r _ H4).
    reflexivity. }
  rewrite Hbest. reflexivity.
Qed.

(** C9 as stated fails: without the fuzzy library an empty candidate title is
    a substring of every query title and matches; with it, two blank titles
    compare as equal (similarity 100) and match when the artists do, and so
    does a blank title against a title that is only a parenthetical. *)
Lemma blank_title_can_match :
  Py.all_space "" = true
  /\ Py.all_space "   " = true
  /\ is_good_match false "" "Some Artist" "Hello" "Other Artist" = true
  /\ is_good_match true "" "Artist" "" "Artist" = true
  /\ is_good_match true "   " "Artist" "(Live)" "Artist" = true.
Proof. repeat split; vm_compute; reflexivity. Qed.

(** C9, amended. With fuzzy matching available, when one of the two titles
    is empty or whitespace-only and the four compared variants of the other
    title (cleaned, featuring-removed, article-removed,
    parenthetical-removed) are all non-empty, [_is_good_match] returns False,
    whatever the artists. *)
Theorem blank_title_never_matches_a_nonblank_one :
  forall gt ga ot oa,
    (Py.all_space gt = true ->
     genius_title_norm ot <> ""%string ->
     remove_feat (genius_title_norm ot) <> ""%string ->
     remove_articles (genius_title_norm ot) <> ""%string ->
     remove_all_parentheticals (genius_title_norm ot) <> ""%string ->
     is_good_match true gt ga ot oa = false)
    /\ (Py.all_space ot = true ->
        genius_title_norm gt <> ""%string ->
        remove_feat (genius_title_norm gt) <> ""%string ->
        remove_articles (genius_title_norm gt) <> ""%string ->
        remove_all_parentheticals (genius_title_norm gt) <> ""%string ->
        is_good_match true gt ga ot oa = false).
Proof.
  intros gt ga ot oa. split.
  - apply blank_genius_title_rejected.
  - apply blank_original_title_rejected.
Qed.

Lemma blank_title_never_matches_a_nonblank_one_witness :
  Py.all_space "   " = true
  /\ genius_title_norm "Hello" <> ""%string
  /\ remove_feat (genius_title_norm "Hello") <> ""%string
  /\ remove_articles (genius_title_norm "Hello") <> ""%string
  /\ remove_all_parentheticals (genius_title_norm "Hello") <> ""%string
  /\ is_good_match true "   " "Adele" "Hello" "Adele" = false.
Proof.
  assert (H0 : Py.all_space "   " = true) by reflexivity.
  assert (H1 : genius_title_norm "Hello" <> ""%string) by (vm_compute; discriminate).
  assert (H2 : remove_feat (genius_title_norm "Hello") <> ""%string)
    by (vm_compute; discriminate).
  assert (H3 : remove_articles (genius_title_norm "Hello") <> ""%string)
    by (vm_compute; discriminate).
  assert (H4 : remove_all_parentheticals (genius_title_norm "Hello") <> ""%string)
    by (vm_compute; discriminate).
  repeat (split; [assumption|]).
  exact (proj1 (blank_title_never_matches_a_nonblank_one "   " "Adele" "Hello" "Adele")
           H0 H1 H2 H3 H4).
Defined.

End MatcherFacts.

(** ** Facts about the string primitives *)

Module TextFacts.
Import TextSpec WhitespaceFacts.

Lemma append_cons :
  forall c (a b : string), (String c a ++ b)%string = String c (a ++ b)%string.
Proof. reflexivity. Qed.

Lemma append_nil_l : forall s : string, ("" ++ s)%string = s.
Proof. reflexivity. Qed.

Ltac string_append := rewrite ?append_cons, ?append_nil_l.

Lemma append_nil_r : forall s : string, (s ++ "")%string = s.
Proof.
  induction s as [|c s IH]; string_append; [reflexivity | rewrite IH; reflexivity].
Qed.

Lemma append_assoc :
  forall a b c : string, ((a ++ b) ++ c)%string = (a ++ (b ++ c))%string.
Proof.
  induction a as [|x a IH]; intros; string_append; [reflexivity | rewrite IH; reflexivity].
Qed.

Lemma part_of_refl : forall s, part_of s s.
Proof. intros s. exists ""%string, ""%string. string_append. rewrite append_nil_r. reflexivity. Qed.

Lemma part_of_trans : forall a b c, part_of a b -> part_of b c -> part_of a c.
Proof.
  intros a b c (x & y & ->) (u & v & ->).
  exists (u ++ x)%string, (y ++ v)%string.
  rewrite !append_assoc. reflexivity.
Qed.

Lemma prefix_part : forall p s, prefix_of p s -> part_of p s.
Proof. intros p s (after & ->). exists ""%string, after. reflexivity. Qed.

Lemma prefix_of_refl : forall s, prefix_of s s.
Proof. intros s. exists ""%string. rewrite append_nil_r. reflexivity. Qed.

Lemma prefix_of_trans : forall a b c, prefix_of a b -> prefix_of b c -> prefix_of a c.
Proof.
  intros a b c (x & ->) (y & ->). exists (x ++ y)%string. rewrite append_assoc. reflexivity.
Qed.

Lemma prefix_of_cons : forall c p s, prefix_of p s -> prefix_of (String c p) (String c s).
Proof. intros c p s (after & ->). exists after. reflexivity. Qed.

Lemma startswith_append : forall p rest, Py.startswith p (p ++ rest) = true.
Proof.
  induction p as [|c p IH]; intros rest; string_append; simpl; [reflexivity|].
  rewrite Ascii.eqb_refl. simpl. apply IH.
Qed.

(** [p in s] holds for every contiguous part. *)
Lemma contains_part : forall p s, part_of p s -> Py.contains p s = true.
Proof.
  intros p s (before & after & ->).
  induction before as [|c before IH]; string_append.
  - pose proof (startswith_append p after) as Hsw.
    destruct (p ++ after)%string; simpl; rewrite Hsw; reflexivity.
  - simpl. rewrite IH. apply orb_true_r.
Qed.

Lemma lower_append :
  forall a b, Py.lower (a ++ b) = (Py.lower a ++ Py.lower b)%string.
Proof.
  induction a as [|c a IH]; intros b; string_append; simpl;
    [reflexivity | rewrite IH; reflexivity].
Qed.

Lemma lower_part : forall p s, part_of p s -> part_of (Py.lower p) (Py.lower s).
Proof.
  intros p s (before & after & ->). exists (Py.lower before), (Py.lower after).
  rewrite !lower_append. reflexivity.
Qed.

Lemma lstrip_suffix : forall s, exists before, s = (before ++ Py.lstrip s)%string.
Proof.
  induction s as [|c s (before & IH)].
  - exists ""%string. reflexivity.
  - simpl. destruct (Py.is_space c).
    + exists (String c before). string_append. rewrite <- IH. reflexivity.
    + exists ""%string. reflexivity.
Qed.

Lemma rstrip_prefix : forall s, prefix_of (Py.rstrip s) s.
Proof.
  induction s as [|c s IH].
  - exists ""%string. reflexivity.
  - simpl. destruct (Py.rstrip s) as [|d t] eqn:E.
    + destruct (Py.is_space c).
      * exists (String c s). reflexivity.
      * exists s. reflexivity.
    + apply prefix_of_cons. exact IH.
Qed.

Lemma strip_part : forall s, part_of (Py.strip s) s.
Proof.
  intros s. unfold Py.strip.
  destruct (lstrip_suffix s) as (before & Hs).
  destruct (rstrip_prefix (Py.lstrip s)) as (after & Hr).
  exists before, after. rewrite <- Hr. exact Hs.
Qed.

Lemma split_first_prefix : forall sep s, prefix_of (Py.split_first sep s) s.
Proof.
  intros sep. induction s as [|c s IH].
  - exists ""%string. reflexivity.
  - simpl. destruct (Ascii.eqb c sep).
    + exists (String c s). reflexivity.
    + apply prefix_of_cons. exact IH.
Qed.

Lemma rstrip_all_space : forall s, Py.all_space s = true -> Py.rstrip s = ""%string.
Proof.
  induction s as [|c s IH]; intros Hs; [reflexivity|].
  simpl. rewrite (IH (all_space_tail _ _ Hs)). rewrite (all_space_head _ _ Hs). reflexivity.
Qed.

Lemma rstrip_append_space :
  forall s e, Py.all_space e = true -> Py.rstrip (s ++ e) = Py.rstrip s.
Proof.
  induction s as [|c s IH]; intros e He.
  - string_append. simpl. apply rstrip_all_space. exact He.
  - string_append. simpl. rewrite (IH e He). reflexivity.
Qed.

(** Trailing whitespace does not survive [strip]. *)
Lemma strip_append_space :
  forall s e, Py.all_space e = true -> Py.strip (s ++ e) = Py.strip s.
Proof.
  unfold Py.strip. induction s as [|c s IH]; intros e He.
  - string_append. rewrite (lstrip_all_space e He). reflexivity.
  - string_append. simpl. destruct (Py.is_space c).
    + apply IH. exact He.
    + rewrite <- append_cons. apply rstrip_append_space. exact He.
Qed.

(** What [rstrip] returns is empty or keeps the first character. *)
Lemma rstrip_keeps_head :
  forall c s, Py.is_space c = false -> exists t, Py.rstrip (String c s) = String c t.
Proof.
  intros c s Hc. simpl. destruct (Py.rstrip s) as [|d t].
  - rewrite Hc. exists ""%string. reflexivity.
  - exists (String d t). reflexivity.
Qed.

Lemma rstrip_idempotent : forall s, Py.rstrip (Py.rstrip s) = Py.rstrip s.
Proof.
  induction s as [|c s IH]; [reflexivity|].
  simpl. destruct (Py.rstrip s) as [|d t] eqn:E.
  - destruct (Py.is_space c) eqn:Hc; [reflexivity|].
    simpl. rewrite Hc. reflexivity.
  - simpl. simpl in IH. rewrite IH. reflexivity.
Qed.

Lemma lstrip_head :
  forall s, Py.lstrip s = ""%string
            \/ exists c t, Py.lstrip s = String c t /\ Py.is_space c = false.
Proof.
  induction s as [|c s IH]; [left; reflexivity|].
  simpl. destruct (Py.is_space c) eqn:Hc; [exact IH|].
  right. exists c, s. split; [reflexivity | exact Hc].
Qed.

(** [strip] is idempotent: its result has no whitespace at either end. *)
Lemma strip_idempotent : forall s, Py.strip (Py.strip s) = Py.strip s.
Proof.
  intros s. unfold Py.strip.
  destruct (lstrip_head s) as [-> | (c & t & -> & Hc)]; [reflexivity|].
  destruct (rstrip_keeps_head c t Hc) as (u & Hu). rewrite Hu.
  assert (Hl : Py.lstrip (String c u) = String c u) by (simpl; rewrite Hc; reflexivity).
  rewrite Hl, <- Hu. apply rstrip_idempotent.
Qed.

End TextFacts.

(** ** How a successful match uses its continuation *)

Module MatcherTraceFacts.
Import Re TextSpec TextFacts WhitespaceFacts.

(** A successful star has called its continuation: the result is what the
    continuation returned somewhere. *)
Lemma star_loop_calls :
  forall (step : option ascii -> string -> cont -> result) g k x,
    (forall prev s k' y, step prev s k' = Some y -> exists p' s', k' p' s' = Some y) ->
    forall n prev s,
      star_loop step g k n prev s = Some x -> exists p' s', k p' s' = Some x.
Proof.
  intros step g k x Hstep. induction n as [|n IH]; intros prev s H.
  - simpl in H. exists prev, s. exact H.
  - cbn [star_loop] in H.
    assert (Hagain :
      step prev s
        (fun p' s' =>
           if (String.length s' <? String.length s)%nat
           then star_loop step g k n p' s' else None) = Some x ->
      exists p' s', k p' s' = Some x).
    { intros Hb. destruct (Hstep _ _ _ _ Hb) as (p' & s' & Hk).
      destruct (String.length s' <? String.length s)%nat; [|discriminate].
      exact (IH p' s' Hk). }
    destruct g; apply or_else_some in H; destruct H as [H | [_ H]].
    + exact (Hagain H).
    + exists prev, s. exact H.
    + exists prev, s. exact H.
    + exact (Hagain H).
Qed.

Lemma rmatch_calls :
  forall ic r prev s k x,
    rmatch ic r prev s k = Some x -> exists p' s', k p' s' = Some x.
Proof.
  intros ic r. induction r as [|c|p|a IHa b IHb|a IHa b IHb|g a IHa| | |];
    intros prev s k x H; cbn [rmatch] in H.
  - exists prev, s. exact H.
  - destruct s as [|y s']; [discriminate|].
    destruct (char_eq ic c y); [|discriminate]. exists (Some y), s'. exact H.
  - destruct s as [|y s']; [discriminate|].
    destruct (p y); [|discriminate]. exists (Some y), s'. exact H.
  - destruct (IHa _ _ _ _ H) as (p' & s' & Hb). exact (IHb _ _ _ _ Hb).
  - apply or_else_some in H. destruct H as [H | [_ H]];
      [exact (IHa _ _ _ _ H) | exact (IHb _ _ _ _ H)].
  - apply (star_loop_calls (rmatch ic a) g k x) with (n := String.length s)
                                                     (prev := prev) (s := s);
      [|exact H].
    intros prev0 s0 k' y Hy. exact (IHa _ _ _ _ Hy).
  - destruct prev; [discriminate|]. exists None, s. exact H.
  - destruct s as [|c [|c' s']].
    + exists prev, EmptyString. exact H.
    + destruct (Ascii.eqb c newline); [|discriminate].
      exists prev, (String c EmptyString). exact H.
    + discriminate.
  - destruct (xorb (is_word_opt prev) (is_word_opt (head s))); [|discriminate].
    exists prev, s. exact H.
Qed.

(** A match of [a] followed by [b] ends with a match of [b]. *)
Lemma rmatch_seq_tail :
  forall ic a b prev s k x,
    rmatch ic (Seq a b) prev s k = Some x ->
    exists p' s', rmatch ic b p' s' k = Some x.
Proof. intros ic a b prev s k x H. cbn [rmatch] in H. exact (rmatch_calls _ _ _ _ _ _ H). Qed.

(** What [$] leaves: nothing, or the final newline. *)
Lemma eol_rest :
  forall ic prev s p rest,
    rmatch ic Eol prev s (fun p' rest' => Some (p', rest')) = Some (p, rest) ->
    Py.all_space rest = true.
Proof.
  intros ic prev s p rest H. cbn [rmatch] in H.
  destruct s as [|c [|c' s']]; try discriminate.
  - injection H as _ <-. reflexivity.
  - destruct (Ascii.eqb c newline) eqn:E; [|discriminate].
    injection H as _ <-. apply Ascii.eqb_eq in E. subst c. reflexivity.
Qed.

End MatcherTraceFacts.

(** ** Properties of the Genius client *)

Module GeniusClientProperties.
Import Re EnhancedGeniusClient TextSpec TextFacts WhitespaceFacts MatcherTraceFacts.

Lemma unique_from_spec :
  forall queries seen,
    List.NoDup (unique_from seen queries)
    /\ (forall q, In q (unique_from seen queries) <-> (In q queries /\ ~ In q seen))
    /\ (length (unique_from seen queries) <= length queries)%nat.
Proof.
  induction queries as [|a l IH]; intros seen; cbn [unique_from].
  - split; [constructor|]. split; [intros q; cbn; tauto | reflexivity].
  - destruct (existsb (String.eqb a) seen) eqn:Hseen.
    + apply ProducerFacts.existsb_eqb_In in Hseen.
      destruct (IH seen) as (Hnd & Hin & Hlen). split; [exact Hnd|]. split.
      * intros q. rewrite Hin. cbn. split; [tauto|].
        intros [[-> | Hq] Hns]; [contradiction | tauto].
      * cbn. lia.
    + assert (Hnot : ~ In a seen).
      { intros Hin. apply ProducerFacts.existsb_eqb_In in Hin. congruence. }
      destruct (IH (a :: seen)) as (Hnd & Hin & Hlen). split; [|split].
      * constructor; [|exact Hnd]. rewrite Hin. cbn. tauto.
      * intros q. cbn. rewrite Hin. cbn.
        destruct (String.string_dec a q) as [-> | Hne]; tauto.
      * cbn. lia.
Qed.

(** A match of the trailing featuring clause runs to the end of the text. *)
Lemma featuring_match_rest :
  forall prev s p rest,
    match_here true featuring_clause prev s = Some (p, rest) ->
    Py.all_space rest = true.
Proof.
  intros prev s p rest H. unfold match_here, featuring_clause in H. cbn [seqs] in H.
  apply rmatch_seq_tail in H. destruct H as (p1 & s1 & H).
  apply rmatch_seq_tail in H. destruct H as (p2 & s2 & H).
  apply rmatch_seq_tail in H. destruct H as (p3 & s3 & H).
  apply rmatch_seq_tail in H. destruct H as (p4 & s4 & H).
  exact (eol_rest _ _ _ _ _ H).
Qed.

(** Removing the featuring clause keeps a prefix of the text, followed at
    most by whitespace. *)
Lemma sub_featuring_shape :
  forall n prev s,
    exists pre e,
      prefix_of pre s /\ Py.all_space e = true
      /\ sub_from true featuring_clause "" n prev s = (pre ++ e)%string.
Proof.
  induction n as [|n IH]; intros prev s.
  - exists s, ""%string. split; [apply prefix_of_refl|]. split; [reflexivity|].
    cbn [sub_from]. rewrite append_nil_r. reflexivity.
  - cbn [sub_from].
    assert (Hstep : forall c s',
              exists pre e,
                prefix_of pre (String c s') /\ Py.all_space e = true
                /\ String c (sub_from true featuring_clause "" n (Some c) s')
                   = (pre ++ e)%string).
    { intros c s'. destruct (IH (Some c) s') as (pre & e & Hpre & He & Heq).
      exists (String c pre), e. split; [apply prefix_of_cons; exact Hpre|].
      split; [exact He|]. rewrite Heq. reflexivity. }
    destruct (match_here true featuring_clause prev s) as [[p' rest]|] eqn:Hm.
    + pose proof (featuring_match_rest _ _ _ _ Hm) as Hrest.
      destruct (String.length rest <? String.length s)%nat.
      * exists ""%string, rest. split; [exists s; reflexivity|]. split; [exact Hrest|].
        rewrite !append_nil_l.
        apply sub_from_needs_nonspace; [reflexivity | exact Hrest].
      * destruct s as [|c s'].
        -- exists ""%string, ""%string. split; [exists ""%string; reflexivity|].
           split; reflexivity.
        -- rewrite append_nil_l. apply Hstep.
    + destruct s as [|c s'].
      * exists ""%string, ""%string. split; [exists ""%string; reflexivity|].
        split; reflexivity.
      * apply Hstep.
Qed.

(** The main artist is cut out of the artist string in one piece. *)
Lemma main_artist_shape :
  forall artist,
    exists pre,
      extract_main_artist artist = Py.strip pre
      /\ prefix_of pre (Py.strip (Py.split_first "&" (Py.split_first "," artist))).
Proof.
  intros artist. unfold extract_main_artist, sub.
  destruct (sub_featuring_shape
              (S (String.length (Py.strip (Py.split_first "&" (Py.split_first "," artist)))))
              None (Py.strip (Py.split_first "&" (Py.split_first "," artist))))
    as (pre & e & Hpre & He & Heq).
  exists pre. rewrite Heq. split; [apply strip_append_space; exact He | exact Hpre].
Qed.

Lemma main_artist_part : forall artist, part_of (extract_main_artist artist) artist.
Proof.
  intros artist. destruct (main_artist_shape artist) as (pre & -> & Hpre).
  eapply part_of_trans; [apply strip_part|].
  eapply part_of_trans; [apply prefix_part; exact Hpre|].
  eapply part_of_trans; [apply strip_part|].
  eapply part_of_trans; [apply prefix_part; apply split_first_prefix|].
  apply prefix_part. apply split_first_prefix.
Qed.

Lemma startswith_prefix : forall p s, Py.startswith p s = true -> prefix_of p s.
Proof.
  induction p as [|a p IH]; intros s H.
  - exists s. reflexivity.
  - destruct s as [|b s]; [discriminate|]. simpl in H.
    apply andb_prop in H. destruct H as [Hab Hrest].
    apply Ascii.eqb_eq in Hab. subst b. apply prefix_of_cons. exact (IH s Hrest).
Qed.

Lemma contains_true_part : forall p s, Py.contains p s = true -> part_of p s.
Proof.
  intros p. induction s as [|c s IH]; intros H.
  - simpl in H. rewrite orb_false_r in H. apply prefix_part, startswith_prefix. exact H.
  - simpl in H. apply orb_prop in H. destruct H as [H | H].
    + apply prefix_part, startswith_prefix. exact H.
    + destruct (IH H) as (before & after & ->).
      exists (String c before), after. reflexivity.
Qed.

(** What does not occur in a text does not occur in a part of it. *)
Lemma absent_from_part :
  forall q p s, part_of p s -> Py.contains q s = false -> Py.contains q p = false.
Proof.
  intros q p s Hpart Habs.
  destruct (Py.contains q p) eqn:E; [|reflexivity].
  apply contains_true_part in E.
  rewrite (contains_part q s (part_of_trans _ _ _ E Hpart)) in Habs. discriminate.
Qed.

Lemma split_first_drops_separator :
  forall sep s, Py.contains (String sep "") (Py.split_first sep s) = false.
Proof.
  intros sep. induction s as [|c s IH]; [reflexivity|].
  simpl Py.split_first. destruct (Ascii.eqb c sep) eqn:E; [reflexivity|].
  simpl. rewrite Ascii.eqb_sym, E. simpl. exact IH.
Qed.

Lemma ratio_same : forall x, Fuzz.ratio x x = 100%Z.
Proof. intros x. unfold Fuzz.ratio. rewrite String.eqb_refl. reflexivity. Qed.

(** X1. The cleaned title never begins or ends with whitespace (stripping it
    again changes nothing), and a title that is empty or whitespace-only is
    cleaned to the empty string. *)
Theorem cleaned_title_is_stripped :
  forall title,
    Py.strip (clean_title_for_search title) = clean_title_for_search title
    /\ (Py.all_space title = true -> clean_title_for_search title = ""%string).
Proof.
  intros title. split.
  - unfold clean_title_for_search. apply strip_idempotent.
  - apply MatcherFacts.clean_title_all_space.
Qed.

Lemma cleaned_title_is_stripped_witness :
  Py.all_space "  " = true /\ clean_title_for_search "  " = ""%string.
Proof.
  split; [reflexivity|].
  exact (proj2 (cleaned_title_is_stripped "  ") eq_refl).
Defined.

Lemma generated_queries_length :
  forall title artist,
    (length (generate_search_queries title artist) <= 8)%nat.
Proof.
  intros title artist. unfold generate_search_queries.
  set (ct := clean_title_for_search title).
  set (ma := extract_main_artist artist).
  set (opt2 := if String.eqb artist ma then [] else [sp ct artist]).
  set (opt5 := if String.eqb title ct then [] else [sp title ma]).
  set (opt6 := if String.eqb _ ct then [] else _).
  set (opt7 := if String.eqb _ ma then [] else _).
  set (queries := [sp ct ma] ++ opt2 ++ [sp ma ct] ++ [ct] ++ opt5 ++ opt6 ++ opt7).
  destruct (unique_from_spec queries []) as (_ & _ & Hlen).
  assert (Hbound : (length queries <= 8)%nat).
  { unfold queries, opt2, opt5, opt6, opt7. rewrite !length_app.
    repeat match goal with
           | |- context [if ?b then _ else _] => destruct b
           end; cbn [length]; lia. }
  lia.
Qed.

(** X2. The generated queries are pairwise distinct, there are between one
    and eight of them, the first is the cleaned title followed by the main
    artist, and the reversed form and the bare cleaned title are always
    among them. *)
Theorem generated_queries_distinct_and_ordered :
  forall title artist,
    List.NoDup (generate_search_queries title artist)
    /\ hd_error (generate_search_queries title artist)
       = Some (sp (clean_title_for_search title) (extract_main_artist artist))
    /\ (1 <= length (generate_search_queries title artist) <= 8)%nat
    /\ In (sp (extract_main_artist artist) (clean_title_for_search title))
          (generate_search_queries title artist)
    /\ In (clean_title_for_search title) (generate_search_queries title artist).
Proof.
  intros title artist. unfold generate_search_queries.
  set (ct := clean_title_for_search title).
  set (ma := extract_main_artist artist).
  set (opt2 := if String.eqb artist ma then [] else [sp ct artist]).
  set (opt5 := if String.eqb title ct then [] else [sp title ma]).
  set (opt6 := if String.eqb _ ct then [] else _).
  set (opt7 := if String.eqb _ ma then [] else _).
  set (queries := [sp ct ma] ++ opt2 ++ [sp ma ct] ++ [ct] ++ opt5 ++ opt6 ++ opt7).
  destruct (unique_from_spec queries []) as (Hnd & Hin & Hlen).
  assert (Hq3 : In (sp ma ct) queries).
  { unfold queries. apply in_or_app. right. apply in_or_app. right. left. reflexivity. }
  assert (Hq4 : In ct queries).
  { unfold queries. apply in_or_app. right. apply in_or_app. right.
    right. left. reflexivity. }
  assert (Hbound : (length queries <= 8)%nat).
  { unfold queries, opt2, opt5, opt6, opt7. rewrite !length_app.
    repeat match goal with
           | |- context [if ?b then _ else _] => destruct b
           end; cbn [length]; lia. }
  split; [exact Hnd|]. split; [reflexivity|]. split; [|split].
  - split; [|lia]. unfold queries. cbn [app unique_from existsb]. cbn [length]. lia.
  - apply Hin. split; [exact Hq3 | intros []].
  - apply Hin. split; [exact Hq4 | intros []].
Qed.

(** X3. The main artist used for queries and matching is a contiguous part
    of the artist string, has no whitespace at either end, and contains
    neither a comma nor an ampersand. *)
Theorem main_artist_is_a_clean_part_of_the_artist :
  forall artist,
    Py.contains (extract_main_artist artist) artist = true
    /\ Py.strip (extract_main_artist artist) = extract_main_artist artist
    /\ Py.contains "," (extract_main_artist artist) = false
    /\ Py.contains "&" (extract_main_artist artist) = false.
Proof.
  intros artist.
  split; [apply contains_part, main_artist_part|].
  destruct (main_artist_shape artist) as (pre & Hmain & Hpre).
  split; [rewrite Hmain; apply strip_idempotent|].
  assert (Hpart : part_of (extract_main_artist artist)
                    (Py.split_first "&" (Py.split_first "," artist))).
  { rewrite Hmain.
    eapply part_of_trans; [apply strip_part|].
    eapply part_of_trans; [apply prefix_part; exact Hpre|].
    apply strip_part. }
  split.
  - apply (absent_from_part _ _ (Py.split_first "," artist)).
    + eapply part_of_trans; [exact Hpart|]. apply prefix_part, split_first_prefix.
    + apply split_first_drops_separator.
  - apply (absent_from_part _ _ _ Hpart). apply split_first_drops_separator.
Qed.

(** X4. A candidate whose title and artist are the query's own always
    matches, with or without the fuzzy-matching library. *)
Theorem identical_pair_always_matches :
  forall fuzzywuzzy_available title artist,
    is_good_match fuzzywuzzy_available title artist title artist = true.
Proof.
  intros avail title artist. unfold is_good_match, _is_good_match.
  destruct avail; cbn [negb].
  - assert (Hbest : best_title_similarity Fuzz.ratio title artist title artist = 100%Z).
    { unfold best_title_similarity, plain_title_similarity, title_similarity,
        title_similarity_no_feat, title_similarity_no_article,
        title_similarity_no_parens.
      rewrite !ratio_same. reflexivity. }
    rewrite Hbest. cbn [Z.leb Z.compare Pos.compare Pos.compare_cont andb].
    unfold artist_match, main_artist_of.
    rewrite (contains_part _ _ (lower_part _ _ (main_artist_part artist))).
    reflexivity.
  - rewrite (contains_part _ _ (part_of_refl (Py.lower title))). reflexivity.
Qed.

End GeniusClientProperties.

(** ** Properties of the search loop *)

Module SearchProperties.
Import EnhancedGeniusClient EnhancedSearch.

Section Loop.
Variable fuzzywuzzy_available : bool.
Variable Song : Type.
Variable search_song : nat -> string -> search_reply.
Variable get_song_details : nat -> Z -> details_reply Song.

Let scan := scan_hits fuzzywuzzy_available Song get_song_details.
Let query1 := try_query fuzzywuzzy_available Song search_song get_song_details.
Let queries := try_queries fuzzywuzzy_available Song search_song get_song_details.

(** A hit that is accepted and whose details were fetched. *)
Let accepted (song_name artist_name : string) (hits : list entry) (song : Song) : Prop :=
  exists h calls,
    In (Hit h) hits
    /\ is_good_match fuzzywuzzy_available (hit_title h) (hit_artist h)
                     song_name artist_name = true
    /\ get_song_details calls (hit_id h) = Fetched song.

(** An entry on which the loop does not raise. *)
Let quiet (song_name artist_name : string) (e : entry) : Prop :=
  match e with
  | Hit h =>
      is_good_match fuzzywuzzy_available (hit_title h) (hit_artist h)
                    song_name artist_name = true ->
      forall c, get_song_details c (hit_id h) <> DetailsRaised
  | HitWithoutId title artist =>
      is_good_match fuzzywuzzy_available title artist song_name artist_name = false
  | Malformed => False
  end.

Lemma scan_hits_sound :
  forall song_name artist_name hits calls song calls',
    scan song_name artist_name calls hits = (Found song, calls') ->
    accepted song_name artist_name hits song.
Proof.
  intros song_name artist_name. induction hits as [|e rest IH]; intros calls song calls' H.
  - discriminate.
  - unfold scan in H. cbn [scan_hits] in H. fold scan in H.
    assert (Hrest : forall c, scan song_name artist_name c rest = (Found song, calls') ->
                              accepted song_name artist_name (e :: rest) song).
    { intros c Hc. destruct (IH _ _ _ Hc) as (h' & c' & Hin & Hg & Hd).
      exists h', c'. split; [right; exact Hin|]. tauto. }
    destruct e as [h | title artist |].
    + destruct (is_good_match fuzzywuzzy_available (hit_title h) (hit_artist h)
                  song_name artist_name) eqn:Hgood; [|exact (Hrest _ H)].
      destruct (get_song_details calls (hit_id h)) as [found| |] eqn:Hdetails.
      * injection H as <- _. exists h, calls. split; [left; reflexivity|]. tauto.
      * exact (Hrest _ H).
      * discriminate.
    + destruct (is_good_match fuzzywuzzy_available title artist song_name artist_name);
        [discriminate | exact (Hrest _ H)].
    + discriminate.
Qed.

Lemma scan_hits_calls :
  forall song_name artist_name hits calls,
    (calls <= snd (scan song_name artist_name calls hits) <= calls + length hits)%nat.
Proof.
  intros song_name artist_name. induction hits as [|e rest IH]; intros calls.
  - cbn. lia.
  - unfold scan. cbn [scan_hits]. fold scan. cbn [length].
    destruct e as [h | title artist |].
    + destruct (is_good_match fuzzywuzzy_available (hit_title h) (hit_artist h)
                  song_name artist_name).
      * destruct (get_song_details calls (hit_id h)).
        -- cbn. lia.
        -- specialize (IH (S calls)). lia.
        -- cbn. lia.
      * specialize (IH calls). lia.
    + destruct (is_good_match fuzzywuzzy_available title artist song_name artist_name).
      * cbn. lia.
      * specialize (IH calls). lia.
    + cbn. lia.
Qed.

Lemma scan_hits_quiet :
  forall song_name artist_name hits calls,
    (forall e, In e hits -> quiet song_name artist_name e) ->
    fst (scan song_name artist_name calls hits) <> Interrupted.
Proof.
  intros song_name artist_name. induction hits as [|e rest IH]; intros calls Hq.
  - discriminate.
  - unfold scan. cbn [scan_hits]. fold scan.
    assert (Hrest : forall c, fst (scan song_name artist_name c rest) <> Interrupted).
    { intros c. apply IH. intros e' Hin. apply Hq. right. exact Hin. }
    pose proof (Hq e (or_introl eq_refl)) as He.
    destruct e as [h | title artist |]; cbn in He.
    + destruct (is_good_match fuzzywuzzy_available (hit_title h) (hit_artist h)
                  song_name artist_name); [|apply Hrest].
      pose proof (He eq_refl calls) as Hd.
      destruct (get_song_details calls (hit_id h)); [discriminate | apply Hrest |].
      exfalso. apply Hd. reflexivity.
    + rewrite He. apply Hrest.
    + destruct He.
Qed.

Lemma try_query_sound :
  forall song_name artist_name query attempts calls song calls',
    query1 song_name artist_name attempts calls query = (Some song, calls') ->
    exists c hits,
      search_song c query = Result (Some hits)
      /\ accepted song_name artist_name (firstn 15 hits) song.
Proof.
  intros song_name artist_name query.
  induction attempts as [|n IH]; intros calls song calls' H.
  - discriminate.
  - unfold query1 in H. cbn [try_query] in H. fold query1 in H.
    destruct (search_song calls query) as [|[hits|]] eqn:Hreply.
    + exact (IH _ _ _ H).
    + destruct (scan_hits fuzzywuzzy_available Song get_song_details song_name
                  artist_name (S calls) (firstn 15 hits)) as [[found| |] c1] eqn:Hscan.
      * injection H as <- _. exists calls, hits. split; [exact Hreply|].
        exact (scan_hits_sound _ _ _ _ _ _ Hscan).
      * discriminate.
      * exact (IH _ _ _ H).
    + discriminate.
Qed.

Lemma firstn_15_length :
  forall (hits : list entry), (length (firstn 15 hits) <= 15)%nat.
Proof. intros hits. rewrite length_firstn. lia. Qed.

(** At most one search and fifteen fetches in each attempt. *)
Lemma try_query_calls :
  forall song_name artist_name query attempts calls,
    (snd (query1 song_name artist_name attempts calls query) <= calls + attempts * 16)%nat.
Proof.
  intros song_name artist_name query.
  induction attempts as [|n IH]; intros calls.
  - cbn. lia.
  - unfold query1. cbn [try_query]. fold query1.
    destruct (search_song calls query) as [|[hits|]].
    + specialize (IH (S calls)). lia.
    + pose proof (scan_hits_calls song_name artist_name (firstn 15 hits) (S calls)) as Hc.
      pose proof (firstn_15_length hits) as Hl. unfold scan in Hc.
      destruct (scan_hits fuzzywuzzy_available Song get_song_details song_name
                  artist_name (S calls) (firstn 15 hits)) as [[found| |] c1];
        cbn [snd] in *; try lia.
      specialize (IH c1). lia.
    + cbn. lia.
Qed.

(** When scanning never raises, only the searches are retried. *)
Lemma try_query_calls_quiet :
  forall song_name artist_name query attempts calls,
    (forall c hits e,
       search_song c query = Result (Some hits) ->
       In e (firstn 15 hits) -> quiet song_name artist_name e) ->
    (snd (query1 song_name artist_name attempts calls query) <= calls + attempts + 15)%nat.
Proof.
  intros song_name artist_name query.
  induction attempts as [|n IH]; intros calls Hq.
  - cbn. lia.
  - unfold query1. cbn [try_query]. fold query1.
    destruct (search_song calls query) as [|[hits|]] eqn:Hreply.
    + specialize (IH (S calls) Hq). lia.
    + pose proof (scan_hits_calls song_name artist_name (firstn 15 hits) (S calls)) as Hc.
      pose proof (scan_hits_quiet song_name artist_name (firstn 15 hits) (S calls)
                    (fun e He => Hq calls hits e Hreply He)) as Hn.
      pose proof (firstn_15_length hits) as Hl. unfold scan in Hc, Hn.
      destruct (scan_hits fuzzywuzzy_available Song get_song_details song_name
                  artist_name (S calls) (firstn 15 hits)) as [[found| |] c1];
        cbn [fst snd] in *; try lia.
      exfalso. apply Hn. reflexivity.
    + cbn. lia.
Qed.

Lemma try_queries_sound :
  forall song_name artist_name max_retries qs calls song calls',
    queries song_name artist_name max_retries calls qs = (Some song, calls') ->
    exists query c hits,
      In query qs
      /\ search_song c query = Result (Some hits)
      /\ accepted song_name artist_name (firstn 15 hits) song.
Proof.
  intros song_name artist_name max_retries.
  induction qs as [|q rest IH]; intros calls song calls' H.
  - discriminate.
  - unfold queries in H. cbn [try_queries] in H. fold queries query1 in H.
    destruct (query1 song_name artist_name max_retries calls q) as [[found|] c1] eqn:Hq.
    + injection H as <- _.
      destruct (try_query_sound _ _ _ _ _ _ _ Hq) as (c & hits & Hreply & Hacc).
      exists q, c, hits. split; [left; reflexivity|]. tauto.
    + destruct (IH _ _ _ H) as (query & c & hits & Hin & Hreply & Hacc).
      exists query, c, hits. split; [right; exact Hin|]. tauto.
Qed.

Lemma try_queries_calls :
  forall song_name artist_name max_retries qs calls,
    (snd (queries song_name artist_name max_retries calls qs)
     <= calls + length qs * (max_retries * 16))%nat.
Proof.
  intros song_name artist_name max_retries.
  induction qs as [|q rest IH]; intros calls.
  - cbn. lia.
  - unfold queries. cbn [try_queries]. fold queries query1.
    pose proof (try_query_calls song_name artist_name q max_retries calls) as Hq.
    destruct (query1 song_name artist_name max_retries calls q) as [[found|] c1].
    + cbn [snd] in *. cbn [length]. lia.
    + cbn [snd] in Hq. specialize (IH c1). cbn [length]. lia.
Qed.

Lemma try_queries_calls_quiet :
  forall song_name artist_name max_retries qs calls,
    (forall query c hits e,
       In query qs ->
       search_song c query = Result (Some hits) ->
       In e (firstn 15 hits) -> quiet song_name artist_name e) ->
    (snd (queries song_name artist_name max_retries calls qs)
     <= calls + length qs * (max_retries + 15))%nat.
Proof.
  intros song_name artist_name max_retries.
  induction qs as [|q rest IH]; intros calls Hquiet.
  - cbn. lia.
  - unfold queries. cbn [try_queries]. fold queries query1.
    pose proof (try_query_calls_quiet song_name artist_name q max_retries calls
                  (fun c hits e => Hquiet q c hits e (or_introl eq_refl))) as Hq.
    assert (Hrest : forall c,
              (snd (queries song_name artist_name max_retries c rest)
               <= c + length rest * (max_retries + 15))%nat).
    { intros c. apply IH. intros query c' hits e Hin. apply Hquiet. right. exact Hin. }
    destruct (query1 song_name artist_name max_retries calls q) as [[found|] c1].
    + cbn [snd] in *. cbn [length]. lia.
    + cbn [snd] in Hq. specialize (Hrest c1). cbn [length]. lia.
Qed.

End Loop.

(** X5. A successful enhanced search returns the details of a hit that
    [_is_good_match] accepts against the song and artist searched for, taken
    from the first 15 hits of the answer to one of the generated queries. *)
Theorem search_success_is_an_accepted_hit :
  forall fuzzywuzzy_available (Song : Type) search_song get_song_details
         song_name artist_name max_retries (song : Song) calls,
    search_song_enhanced fuzzywuzzy_available Song search_song get_song_details
                         song_name artist_name max_retries
    = (Success song, calls) ->
    exists query c hits h c2,
      In query (generate_search_queries song_name artist_name)
      /\ search_song c query = Result (Some hits)
      /\ In (Hit h) (firstn 15 hits)
      /\ is_good_match fuzzywuzzy_available (hit_title h) (hit_artist h)
                       song_name artist_name = true
      /\ get_song_details c2 (hit_id h) = Fetched song.
Proof.
  intros avail Song search_song get_song_details song_name artist_name max_retries
         song calls H.
  unfold search_song_enhanced in H.
  destruct (try_queries avail Song search_song get_song_details song_name artist_name
              max_retries 0 (generate_search_queries song_name artist_name))
    as [[found|] c1] eqn:Hq; [|discriminate].
  injection H as <- _.
  destruct (try_queries_sound _ _ _ _ _ _ _ _ _ _ _ Hq)
    as (query & c & hits & Hin & Hreply & h & c2 & Hh & Hgood & Hdetails).
  exists query, c, hits, h, c2. tauto.
Qed.

Lemma search_success_is_an_accepted_hit_witness :
  search_song_enhanced true string
    (fun _ _ => Result (Some [ Hit {| hit_id := 7; hit_title := "Hello";
                                      hit_artist := "Adele" |} ]))
    (fun _ _ => Fetched "details"%string) "Hello" "Adele" 3
  = (Success "details"%string, 2%nat)
  /\ exists query c hits h c2,
       In query (generate_search_queries "Hello" "Adele")
       /\ (fun (_ : nat) (_ : string) =>
             Result (Some [ Hit {| hit_id := 7; hit_title := "Hello";
                                   hit_artist := "Adele" |} ]))
            c query = Result (Some hits)
       /\ In (Hit h) (firstn 15 hits)
       /\ is_good_match true (hit_title h) (hit_artist h) "Hello" "Adele" = true
       /\ (fun (_ : nat) (_ : Z) => Fetched "details"%string) c2 (hit_id h)
          = Fetched "details"%string.
Proof.
  assert (H : search_song_enhanced true string
                (fun _ _ => Result (Some [ Hit {| hit_id := 7; hit_title := "Hello";
                                                  hit_artist := "Adele" |} ]))
                (fun _ _ => Fetched "details"%string) "Hello" "Adele" 3
              = (Success "details"%string, 2%nat)) by (vm_compute; reflexivity).
  split; [exact H|].
  exact (search_success_is_an_accepted_hit _ _ _ _ _ _ _ _ _ H).
Defined.

(** X6. When no hit among the first 15 of any answer to any generated query
    is both accepted by [_is_good_match] and fetched, the enhanced search
    fails with its fixed message. Whatever the network does, each attempt
    makes one search and at most 15 fetches, so the search makes at most
    [16 * max_retries] calls per query and [8 * 16 * max_retries] in all:
    an exception while the hits are scanned starts the next attempt. When
    scanning never raises (every entry can be read, and fetching an accepted
    hit returns), only searches are retried and the calls are at most
    [8 * (max_retries + 15)]. *)
Theorem search_fails_without_fetched_hit_and_is_bounded :
  forall fuzzywuzzy_available (Song : Type) search_song get_song_details
         song_name artist_name max_retries,
    ((forall query c hits h c2 song,
        In query (generate_search_queries song_name artist_name) ->
        search_song c query = Result (Some hits) ->
        In (Hit h) (firstn 15 hits) ->
        is_good_match fuzzywuzzy_available (hit_title h) (hit_artist h)
                      song_name artist_name = true ->
        get_song_details c2 (hit_id h) <> Fetched song) ->
     fst (search_song_enhanced fuzzywuzzy_available Song search_song get_song_details
            song_name artist_name max_retries)
     = Failure "No match found with any query strategy")
    /\ (snd (search_song_enhanced fuzzywuzzy_available Song search_song get_song_details
               song_name artist_name max_retries)
        <= 8 * (max_retries * 16))%nat
    /\ ((forall query c hits e,
           In query (generate_search_queries song_name artist_name) ->
           search_song c query = Result (Some hits) ->
           In e (firstn 15 hits) ->
           match e with
           | Hit h =>
               is_good_match fuzzywuzzy_available (hit_title h) (hit_artist h)
                             song_name artist_name = true ->
               forall c2, get_song_details c2 (hit_id h) <> DetailsRaised
           | HitWithoutId title artist =>
               is_good_match fuzzywuzzy_available title artist song_name artist_name
               = false
           | Malformed => False
           end) ->
        (snd (search_song_enhanced fuzzywuzzy_available Song search_song
                get_song_details song_name artist_name max_retries)
         <= 8 * (max_retries + 15))%nat).
Proof.
  intros avail Song search_song get_song_details song_name artist_name max_retries.
  pose proof (GeniusClientProperties.generated_queries_length
                song_name artist_name) as Hlen.
  unfold search_song_enhanced. split; [|split].
  - intros Hnone.
    destruct (try_queries avail Song search_song get_song_details song_name artist_name
                max_retries 0 (generate_search_queries song_name artist_name))
      as [[found|] c1] eqn:Hq; [|reflexivity].
    destruct (try_queries_sound _ _ _ _ _ _ _ _ _ _ _ Hq)
      as (query & c & hits & Hin & Hreply & h & c2 & Hh & Hgood & Hdetails).
    exfalso. exact (Hnone query c hits h c2 found Hin Hreply Hh Hgood Hdetails).
  - pose proof (try_queries_calls avail Song search_song get_song_details song_name
                  artist_name max_retries (generate_search_queries song_name artist_name)
                  0) as Hc.
    destruct (try_queries avail Song search_song get_song_details song_name artist_name
                max_retries 0 (generate_search_queries song_name artist_name))
      as [[found|] c1]; cbn [snd] in *; nia.
  - intros Hquiet.
    pose proof (try_queries_calls_quiet avail Song search_song get_song_details song_name
                  artist_name max_retries (generate_search_queries song_name artist_name)
                  0 Hquiet) as Hc.
    destruct (try_queries avail Song search_song get_song_details song_name artist_name
                max_retries 0 (generate_search_queries song_name artist_name))
      as [[found|] c1]; cbn [snd] in *; nia.
Qed.

Lemma search_fails_without_fetched_hit_and_is_bounded_witness :
  (forall query c hits h (c2 : nat) (song : string),
     In query (generate_search_queries "Hello (feat. X)" "The Adele & Y") ->
     (fun (_ : nat) (_ : string) =>
        Result (Some (repeat (Hit {| hit_id := 1; hit_title := "Hello (feat. X)";
                                     hit_artist := "The Adele & Y" |}) 14
                      ++ [Hit {| hit_id := 2; hit_title := "Hello (feat. X)";
                                 hit_artist := "The Adele & Y" |}])))
       c query = Result (Some hits) ->
     In (Hit h) (firstn 15 hits) ->
     is_good_match true (hit_title h) (hit_artist h) "Hello (feat. X)" "The Adele & Y"
     = true ->
     (fun (_ : nat) (id : Z) => if (id =? 2)%Z then DetailsRaised else NotFound)
       c2 (hit_id h) <> Fetched song)
  /\ fst (search_song_enhanced true string
            (fun _ _ =>
               Result (Some (repeat (Hit {| hit_id := 1; hit_title := "Hello (feat. X)";
                                            hit_artist := "The Adele & Y" |}) 14
                             ++ [Hit {| hit_id := 2; hit_title := "Hello (feat. X)";
                                        hit_artist := "The Adele & Y" |}])))
            (fun _ id => if (id =? 2)%Z then DetailsRaised else NotFound)
            "Hello (feat. X)" "The Adele & Y" 3)
     = Failure "No match found with any query strategy"
  /\ snd (search_song_enhanced true string
            (fun _ _ =>
               Result (Some (repeat (Hit {| hit_id := 1; hit_title := "Hello (feat. X)";
                                            hit_artist := "The Adele & Y" |}) 14
                             ++ [Hit {| hit_id := 2; hit_title := "Hello (feat. X)";
                                        hit_artist := "The Adele & Y" |}])))
            (fun _ id => if (id =? 2)%Z then DetailsRaised else NotFound)
            "Hello (feat. X)" "The Adele & Y" 3)
     = 240%nat
  /\ (8 * (3 + 15) < 240)%nat.
Proof.
  assert (Hnone : forall query c hits h (c2 : nat) (song : string),
            In query (generate_search_queries "Hello (feat. X)" "The Adele & Y") ->
            (fun (_ : nat) (_ : string) =>
               Result (Some (repeat (Hit {| hit_id := 1; hit_title := "Hello (feat. X)";
                                            hit_artist := "The Adele & Y" |}) 14
                             ++ [Hit {| hit_id := 2; hit_title := "Hello (feat. X)";
                                        hit_artist := "The Adele & Y" |}])))
              c query = Result (Some hits) ->
            In (Hit h) (firstn 15 hits) ->
            is_good_match true (hit_title h) (hit_artist h)
                          "Hello (feat. X)" "The Adele & Y" = true ->
            (fun (_ : nat) (id : Z) =>
               if (id =? 2)%Z then @DetailsRaised string else NotFound)
              c2 (hit_id h) <> Fetched song).
  { intros query c hits h c2 song _ _ _ _. cbv beta.
    destruct (hit_id h =? 2)%Z; discriminate. }
  split; [exact Hnone|].
  split; [|split; [vm_compute; reflexivity | lia]].
  exact (proj1 (search_fails_without_fetched_hit_and_is_bounded true string _ _
                  "Hello (feat. X)" "The Adele & Y" 3) Hnone).
Defined.

End SearchProperties.

(** ** Ordered dictionaries, counters and stable sorting *)

Module DictFacts.

Lemma get_upsert_same {V : Type} (k : string) (f : option V -> V) (d : list (string * V)) :
  Dict.get k (Dict.upsert k f d) = Some (f (Dict.get k d)).
Proof.
  induction d as [|[k' v] d IH]; cbn.
  - rewrite String.eqb_refl. reflexivity.
  - destruct (String.eqb k k') eqn:E; cbn; rewrite E; [reflexivity | exact IH].
Qed.

Lemma get_upsert_other {V : Type} (k x : string) (f : option V -> V) (d : list (string * V)) :
  x <> k -> Dict.get x (Dict.upsert k f d) = Dict.get x d.
Proof.
  intros Hne. induction d as [|[k' v] d IH]; cbn.
  - apply String.eqb_neq in Hne. rewrite Hne. reflexivity.
  - destruct (String.eqb k k') eqn:E; cbn.
    + apply String.eqb_eq in E. subst k'.
      apply String.eqb_neq in Hne. rewrite Hne. reflexivity.
    + rewrite IH. reflexivity.
Qed.

Lemma get_none_keys {V : Type} (k : string) (d : list (string * V)) :
  Dict.get k d = None <-> ~ In k (map fst d).
Proof.
  induction d as [|[k' v] d IH]; cbn.
  - tauto.
  - destruct (String.eqb k k') eqn:E.
    + apply String.eqb_eq in E. subst k'. split; [discriminate | intros H; exfalso; tauto].
    + apply String.eqb_neq in E. rewrite IH. split; [intros H [Heq | Hin] | intros H Hin].
      * congruence.
      * tauto.
      * tauto.
Qed.

Lemma get_some_in {V : Type} (k : string) (v : V) (d : list (string * V)) :
  Dict.get k d = Some v -> In (k, v) d.
Proof.
  induction d as [|[k' v'] d IH]; cbn; [discriminate|].
  destruct (String.eqb k k') eqn:E.
  - apply String.eqb_eq in E. subst k'. intros [= ->]. left. reflexivity.
  - intros H. right. exact (IH H).
Qed.

Lemma in_get_nodup {V : Type} (k : string) (v : V) (d : list (string * V)) :
  List.NoDup (map fst d) -> In (k, v) d -> Dict.get k d = Some v.
Proof.
  induction d as [|[k' v'] d IH]; cbn; intros Hnd Hin; [destruct Hin|].
  inversion Hnd as [|? ? Hnotin Hnd']; subst.
  destruct Hin as [[= -> ->] | Hin].
  - rewrite String.eqb_refl. reflexivity.
  - destruct (String.eqb k k') eqn:E.
    + apply String.eqb_eq in E. subst k'. exfalso. apply Hnotin.
      change k with (fst (k, v)). apply in_map. exact Hin.
    + exact (IH Hnd' Hin).
Qed.

Lemma keys_upsert {V : Type} (k : string) (f : option V -> V) (d : list (string * V)) :
  map fst (Dict.upsert k f d)
  = if Dict.mem k d then map fst d else map fst d ++ [k].
Proof.
  unfold Dict.mem. induction d as [|[k' v] d IH]; cbn.
  - reflexivity.
  - destruct (String.eqb k k') eqn:E; cbn.
    + reflexivity.
    + rewrite IH. destruct (Dict.get k d); reflexivity.
Qed.

Lemma keys_upsert_nodup {V : Type} (k : string) (f : option V -> V) (d : list (string * V)) :
  List.NoDup (map fst d) -> List.NoDup (map fst (Dict.upsert k f d)).
Proof.
  intros Hnd. rewrite keys_upsert. unfold Dict.mem.
  destruct (Dict.get k d) eqn:E; [exact Hnd|].
  apply get_none_keys in E.
  apply (Permutation.Permutation_NoDup (l := k :: map fst d)).
  - rewrite Permutation_app_comm. reflexivity.
  - constructor; assumption.
Qed.

Lemma keys_upsert_in {V : Type} (k x : string) (f : option V -> V) (d : list (string * V)) :
  In x (map fst (Dict.upsert k f d)) <-> x = k \/ In x (map fst d).
Proof.
  rewrite keys_upsert. unfold Dict.mem. destruct (Dict.get k d) eqn:E.
  - split; [tauto|]. intros [-> | H]; [|exact H].
    destruct (in_dec string_dec k (map fst d)) as [Hin | Hnotin]; [exact Hin|].
    apply get_none_keys in Hnotin. congruence.
  - rewrite in_app_iff. cbn. split; intros H; [|destruct H as [-> | H]]; try tauto.
    destruct H as [H | [-> | []]]; tauto.
Qed.

Section StableSort.
Context {A : Type}.
Variable lt : A -> A -> bool.

Lemma insert_desc_perm (e : A) (l : list A) :
  Permutation (Dict.insert_desc lt e l) (e :: l).
Proof.
  induction l as [|h t IH]; cbn.
  - reflexivity.
  - destruct (lt h e).
    + reflexivity.
    + rewrite IH. apply perm_swap.
Qed.

Lemma sort_desc_from_perm (l acc : list A) :
  Permutation (fold_left (fun acc e => Dict.insert_desc lt e acc) l acc) (acc ++ l).
Proof.
  revert acc. induction l as [|e l IH]; intros acc; cbn.
  - rewrite app_nil_r. reflexivity.
  - rewrite IH, insert_desc_perm. apply Permutation_middle.
Qed.

Lemma sort_desc_perm (l : list A) : Permutation (Dict.sort_desc lt l) l.
Proof. unfold Dict.sort_desc. exact (sort_desc_from_perm l []). Qed.

(** [below a b]: [a] does not rank above [b]. *)
Variable below : A -> A -> Prop.
Hypothesis lt_below : forall a b, lt a b = true -> below a b.
Hypothesis not_lt_below : forall a b, lt a b = false -> below b a.
Hypothesis below_trans : forall a b c, below a b -> below b c -> below a c.

Lemma insert_desc_sorted (e : A) (l : list A) :
  StronglySorted (fun a b => below b a) l ->
  StronglySorted (fun a b => below b a) (Dict.insert_desc lt e l).
Proof.
  induction l as [|h t IH]; cbn; intros Hs.
  - constructor; [constructor | constructor].
  - inversion Hs as [|? ? Hst Hall]; subst. destruct (lt h e) eqn:E.
    + constructor; [exact Hs|]. constructor; [exact (lt_below _ _ E)|].
      revert Hall. apply List.Forall_impl. intros x Hx.
      exact (below_trans _ _ _ Hx (lt_below _ _ E)).
    + constructor; [exact (IH Hst)|].
      eapply Permutation_Forall.
      * symmetry. apply insert_desc_perm.
      * constructor; [exact (not_lt_below _ _ E) | exact Hall].
Qed.

Lemma sort_desc_from_sorted (l acc : list A) :
  StronglySorted (fun a b => below b a) acc ->
  StronglySorted (fun a b => below b a)
    (fold_left (fun acc e => Dict.insert_desc lt e acc) l acc).
Proof.
  revert acc. induction l as [|e l IH]; intros acc Hs; cbn.
  - exact Hs.
  - apply IH. apply insert_desc_sorted. exact Hs.
Qed.

Lemma sort_desc_sorted (l : list A) :
  StronglySorted (fun a b => below b a) (Dict.sort_desc lt l).
Proof. apply sort_desc_from_sorted. constructor. Qed.

End StableSort.

Lemma in_firstn_in {A : Type} (n : nat) (l : list A) (x : A) :
  In x (firstn n l) -> In x l.
Proof.
  intros H. rewrite <- (firstn_skipn n l). apply in_or_app. left. exact H.
Qed.

Lemma in_skipn_in {A : Type} (n : nat) (l : list A) (x : A) :
  In x (skipn n l) -> In x l.
Proof.
  intros H. rewrite <- (firstn_skipn n l). apply in_or_app. right. exact H.
Qed.

(** The first [n] elements of a list sorted downwards rank at least as
    high as the others. *)
Lemma firstn_sorted_dominates {A : Type} (below : A -> A -> Prop) (n : nat) (l : list A) :
  StronglySorted (fun a b => below b a) l ->
  forall x y, In x (firstn n l) -> In y (skipn n l) -> below y x.
Proof.
  revert n. induction l as [|h t IH]; intros n Hs x y Hx Hy.
  - rewrite firstn_nil in Hx. destruct Hx.
  - destruct n as [|n]; [destruct Hx|]. cbn in Hx, Hy.
    inversion Hs as [|? ? Hst Hall]; subst.
    destruct Hx as [<- | Hx].
    + rewrite List.Forall_forall in Hall. apply Hall.
      exact (in_skipn_in n t y Hy).
    + exact (IH n Hst x y Hx Hy).
Qed.

End DictFacts.

(** ** Properties of the producer signatures *)

Module ProducerProperties.
Import ProducerGenrePatterns.
Local Open Scope Q_scope.

(** *** The signature table *)

Ltac nodup_strings :=
  repeat (constructor; [cbn; intuition discriminate|]); constructor.

Lemma signature_table_ok :
  List.Forall
    (fun kv : string * signature =>
       subgenres (snd kv) <> []
       /\ (80 # 100) <= confidence (snd kv) <= (95 # 100)
       /\ List.NoDup (subgenres (snd kv)))
    PRODUCER_GENRE_SIGNATURES.
Proof.
  unfold PRODUCER_GENRE_SIGNATURES.
  repeat (constructor;
          [cbn; split; [discriminate|]; split;
           [split; unfold Qle; cbn; lia | nodup_strings]|]).
  constructor.
Qed.

Lemma known_signature_ok :
  forall name s,
    Dict.get name PRODUCER_GENRE_SIGNATURES = Some s ->
    subgenres s <> []
    /\ (80 # 100) <= confidence s <= (95 # 100)
    /\ List.NoDup (subgenres s).
Proof.
  intros name s H. apply DictFacts.get_some_in in H.
  pose proof signature_table_ok as Hall. rewrite List.Forall_forall in Hall.
  exact (Hall _ H).
Qed.

(** The canonical name looked up for a producer. *)
Lemma producer_is_known_by_name :
  forall list_set producer year,
    get_producer_subgenres list_set producer year = None
    <-> get_producer_subgenres list_set producer None = None.
Proof.
  intros list_set producer year. unfold get_producer_subgenres.
  destruct (Dict.get _ PRODUCER_GENRE_SIGNATURES) as [s|]; [|tauto].
  cbn [year_given].
  destruct (year_given year) as [y|]; [|tauto].
  destruct (Dict.mem (primary s) ERA_BASED_SUBGENRES); [|tauto].
  destruct (get_era_subgenres (primary s) y); split; discriminate.
Qed.

Lemma era_subgenres_need_a_table :
  forall genre year,
    Dict.mem genre ERA_BASED_SUBGENRES = false -> get_era_subgenres genre year = [].
Proof.
  intros genre year. unfold Dict.mem, get_era_subgenres.
  destruct (Dict.get genre ERA_BASED_SUBGENRES); [discriminate | reflexivity].
Qed.

Lemma refined_signature :
  forall list_set producer year base,
    set_iteration list_set ->
    get_producer_subgenres list_set producer None = Some base ->
    exists refined,
      get_producer_subgenres list_set producer year = Some refined
      /\ primary refined = primary base
      /\ confidence refined = confidence base
      /\ secondary_genre refined = secondary_genre base
      /\ (forall sg,
             In sg (subgenres refined)
             <-> In sg (subgenres base)
                 \/ exists y, year_given year = Some y
                              /\ In sg (get_era_subgenres (primary base) y))
      /\ List.NoDup (subgenres refined).
Proof.
  intros list_set producer year base Hset. unfold get_producer_subgenres.
  destruct (Dict.get _ PRODUCER_GENRE_SIGNATURES) as [s|] eqn:Hsig; [|discriminate].
  cbn [year_given]. intros [= <-].
  destruct (known_signature_ok _ _ Hsig) as (_ & _ & Hnd).
  destruct (year_given year) as [y|] eqn:Hyear.
  - destruct (Dict.mem (primary s) ERA_BASED_SUBGENRES) eqn:Hmem.
    + destruct (get_era_subgenres (primary s) y) as [|e era] eqn:Hera.
      * exists s. repeat split; try assumption; try tauto.
        intros [H | (y' & [= <-] & H)]; [exact H|]. rewrite Hera in H. destruct H.
      * destruct (Hset (subgenres s ++ e :: era)) as [Hnd' Hin'].
        eexists. split; [reflexivity|]. cbn [primary confidence secondary_genre subgenres].
        split; [reflexivity|]. split; [reflexivity|]. split; [reflexivity|].
        split; [|exact Hnd'].
        intros sg. rewrite Hin', in_app_iff. split.
        -- intros [H | H]; [left; exact H|].
           right. exists y. split; [reflexivity|]. rewrite Hera. exact H.
        -- intros [H | (y' & [= <-] & H)]; [left; exact H|].
           right. rewrite Hera in H. exact H.
    + exists s. repeat split; try assumption; try tauto.
      intros [H | (y' & [= <-] & H)]; [exact H|].
      rewrite (era_subgenres_need_a_table _ _ Hmem) in H. destruct H.
  - exists s. repeat split; try assumption; try tauto.
    intros [H | (y' & Hy & _)]; [exact H | discriminate].
Qed.

(** X7. The year of a song never changes whether a producer is known, nor
    the primary genre, confidence or secondary genre of the signature: it
    only adds the subgenres of the era to those of the producer, and the
    refined list has no repetition. *)
Theorem year_only_adds_era_subgenres :
  forall list_set producer year,
    set_iteration list_set ->
    match get_producer_subgenres list_set producer None with
    | None => get_producer_subgenres list_set producer year = None
    | Some base =>
        exists refined,
          get_producer_subgenres list_set producer year = Some refined
          /\ primary refined = primary base
          /\ confidence refined = confidence base
          /\ secondary_genre refined = secondary_genre base
          /\ (forall sg,
                 In sg (subgenres refined)
                 <-> In sg (subgenres base)
                     \/ exists y, year_given year = Some y
                                  /\ In sg (get_era_subgenres (primary base) y))
          /\ List.NoDup (subgenres refined)
    end.
Proof.
  intros list_set producer year Hset.
  destruct (get_producer_subgenres list_set producer None) as [base|] eqn:Hbase.
  - exact (refined_signature list_set producer year base Hset Hbase).
  - apply producer_is_known_by_name. exact Hbase.
Qed.

Lemma year_only_adds_era_subgenres_witness :
  set_iteration insertion_order
  /\ exists refined,
       get_producer_subgenres insertion_order "Max Martin" (Some 2012%Z) = Some refined
       /\ primary refined = "pop"%string
       /\ In "indie-pop"%string (subgenres refined)
       /\ In "teen-pop"%string (subgenres refined).
Proof.
  split; [exact ProducerFacts.insertion_order_is_set_iteration|].
  pose proof (year_only_adds_era_subgenres insertion_order "Max Martin" (Some 2012%Z)
                ProducerFacts.insertion_order_is_set_iteration) as H.
  cbv beta iota in H.
  change (get_producer_subgenres insertion_order "Max Martin" None)
    with (Some (sig "pop" ["dance-pop"; "teen-pop"; "electropop"] (95 # 100))) in H.
  cbv beta iota in H.
  destruct H as (refined & Hr & Hp & _ & _ & Hin & _).
  exists refined. split; [exact Hr|]. split; [exact Hp|]. split.
  - apply Hin. right. exists 2012%Z. split; [reflexivity|]. right. left. reflexivity.
  - apply Hin. left. right. left. reflexivity.
Defined.

(** X8. The era table has no gap: for pop, hip-hop, country and r&b every
    year from 2000 to 2025 has exactly two era subgenres, and any other
    genre or year has none. *)
Theorem era_subgenres_cover_2000_to_2025 :
  forall genre year,
    length (get_era_subgenres genre year)
    = if Dict.mem genre ERA_BASED_SUBGENRES && (2000 <=? year)%Z && (year <=? 2025)%Z
      then 2%nat else 0%nat.
Proof.
  intros genre year. unfold get_era_subgenres, Dict.mem, ERA_BASED_SUBGENRES.
  cbn [Dict.get].
  repeat match goal with
         | |- context [String.eqb genre ?k] => destruct (String.eqb genre k)
         end;
    cbn [find_era andb];
    repeat match goal with
           | |- context [(?a <=? ?b)%Z] => destruct (Z.leb_spec a b)
           end; cbn [andb length find_era]; try reflexivity; lia.
Qed.

(** *** Counting the subgenres *)

Lemma counter_from :
  forall l d,
    List.NoDup (map fst d) ->
    (forall k n, In (k, n) d -> (0 < n)%nat) ->
    let d' := fold_left
                (fun cs x =>
                   Dict.upsert x (fun o => match o with Some n => S n | None => 1%nat end) cs)
                l d in
    List.NoDup (map fst d')
    /\ (forall k n, In (k, n) d' -> (0 < n)%nat)
    /\ (forall x,
          match Dict.get x d' with Some n => n | None => 0%nat end
          = (match Dict.get x d with Some n => n | None => 0%nat end
             + count_occ string_dec l x)%nat).
Proof.
  induction l as [|a l IH]; intros d Hnd Hpos; cbn [fold_left].
  - cbn. repeat split; try assumption. intros x. lia.
  - set (step := fun o => match o with Some n => S n | None => 1%nat end).
    assert (Hnd1 : List.NoDup (map fst (Dict.upsert a step d)))
      by (apply DictFacts.keys_upsert_nodup; exact Hnd).
    assert (Hpos1 : forall k n, In (k, n) (Dict.upsert a step d) -> (0 < n)%nat).
    { intros k n Hin. apply (DictFacts.in_get_nodup _ _ _ Hnd1) in Hin.
      destruct (string_dec k a) as [-> | Hne].
      - rewrite DictFacts.get_upsert_same in Hin. injection Hin as <-.
        unfold step. destruct (Dict.get a d); lia.
      - rewrite (DictFacts.get_upsert_other _ _ _ _ Hne) in Hin.
        apply DictFacts.get_some_in in Hin. exact (Hpos _ _ Hin). }
    destruct (IH _ Hnd1 Hpos1) as (Hnd' & Hpos' & Hcount).
    split; [exact Hnd'|]. split; [exact Hpos'|].
    intros x. rewrite Hcount. cbn [count_occ].
    destruct (string_dec a x) as [-> | Hne].
    + rewrite DictFacts.get_upsert_same. unfold step. destruct (Dict.get x d); lia.
    + rewrite DictFacts.get_upsert_other by congruence. lia.
Qed.

Lemma Counter_spec :
  forall l,
    List.NoDup (map fst (Counter l))
    /\ (forall x n, In (x, n) (Counter l) <-> (n = count_occ string_dec l x /\ In x l)).
Proof.
  intros l. unfold Counter.
  destruct (counter_from l [] (List.NoDup_nil _) (fun k n (H : In (k, n) []) => match H with end))
    as (Hnd & Hpos & Hcount).
  cbv zeta in Hnd, Hpos, Hcount.
  split; [exact Hnd|]. intros x n. split.
  - intros Hin. pose proof (Hpos _ _ Hin) as Hn.
    apply (DictFacts.in_get_nodup _ _ _ Hnd) in Hin.
    specialize (Hcount x). rewrite Hin in Hcount. cbn in Hcount. subst n.
    split; [reflexivity|]. apply (count_occ_In string_dec). lia.
  - intros [-> Hin]. apply (count_occ_In string_dec) in Hin.
    specialize (Hcount x). cbn [Dict.get] in Hcount.
    destruct (Dict.get x (fold_left _ l [])) as [n|] eqn:Hget; [|lia].
    apply DictFacts.get_some_in in Hget. cbn in Hcount. subst n. exact Hget.
Qed.

Lemma nodup_firstn {A : Type} (n : nat) (l : list A) :
  List.NoDup l -> List.NoDup (firstn n l).
Proof.
  intros H. rewrite <- (firstn_skipn n l) in H. exact (NoDup_app_remove_r _ _ H).
Qed.

Lemma most_common_spec :
  forall n l,
    let top := map fst (most_common n (Counter l)) in
    List.NoDup top
    /\ length top = Nat.min n (length (Counter l))
    /\ (forall x, In x top -> In x l)
    /\ (forall x y,
          In x top -> In y l -> ~ In y top ->
          length top = n
          /\ (count_occ string_dec l y <= count_occ string_dec l x)%nat).
Proof.
  intros n l. cbv zeta. unfold most_common.
  set (lt := fun a b : string * nat => (snd a <? snd b)%nat).
  destruct (Counter_spec l) as [Hnd Hin].
  pose proof (DictFacts.sort_desc_perm lt (Counter l)) as Hperm.
  assert (Hsorted : StronglySorted (fun a b : string * nat => (snd b <= snd a)%nat)
                      (Dict.sort_desc lt (Counter l))).
  { apply (DictFacts.sort_desc_sorted lt (fun a b => (snd a <= snd b)%nat)).
    - intros a b H. unfold lt in H. apply Nat.ltb_lt in H. lia.
    - intros a b H. unfold lt in H. apply Nat.ltb_ge in H. lia.
    - intros a b c. lia. }
  set (sorted := Dict.sort_desc lt (Counter l)) in *.
  assert (Hnds : List.NoDup (map fst sorted)).
  { apply (Permutation.Permutation_NoDup (l := map fst (Counter l))); [|exact Hnd].
    symmetry. apply Permutation_map. exact Hperm. }
  split; [|split; [|split]].
  - rewrite <- firstn_map. apply nodup_firstn. exact Hnds.
  - rewrite length_map, length_firstn, (Permutation_length Hperm). reflexivity.
  - intros x Hx. apply in_map_iff in Hx. destruct Hx as ([x' c] & <- & Hx).
    apply DictFacts.in_firstn_in in Hx.
    apply (Permutation_in _ Hperm) in Hx. apply Hin in Hx. tauto.
  - intros x y Hx Hy Hnot.
    apply in_map_iff in Hx. destruct Hx as ([x' cx] & <- & Hx). cbn [fst].
    assert (Hyc : In (y, count_occ string_dec l y) sorted).
    { apply (Permutation_in _ (Permutation_sym Hperm)). apply Hin. tauto. }
    rewrite <- (firstn_skipn n sorted) in Hyc. apply in_app_or in Hyc.
    destruct Hyc as [Hyc | Hyc].
    { exfalso. apply Hnot. apply in_map_iff. exists (y, count_occ string_dec l y).
      split; [reflexivity | exact Hyc]. }
    split.
    + rewrite length_map, length_firstn.
      assert (n < length sorted)%nat.
      { destruct (Nat.lt_ge_cases n (length sorted)) as [Hlt | Hge]; [exact Hlt|].
        rewrite (skipn_all2 _ Hge) in Hyc. destruct Hyc. }
      lia.
    + pose proof (DictFacts.firstn_sorted_dominates
                    (fun a b : string * nat => (snd a <= snd b)%nat) n sorted Hsorted
                    _ _ Hx Hyc) as Hle.
      cbn [snd] in Hle.
      assert (Hxc : cx = count_occ string_dec l x').
      { apply DictFacts.in_firstn_in in Hx. apply (Permutation_in _ Hperm) in Hx.
        apply Hin in Hx. tauto. }
      lia.
Qed.

(** *** Aggregating the producers of a song *)

Lemma found_producers :
  forall (f : string -> option signature) producers,
    (length (omap f producers) <= length producers)%nat
    /\ (forall s, In s (omap f producers) <-> exists p, In p producers /\ f p = Some s).
Proof.
  intros f. induction producers as [|p ps [IHlen IHin]].
  - cbn. split; [lia|]. intros s. split; [intros [] | intros (p & [] & _)].
  - change (omap f (p :: ps))
      with (match f p with Some y => y :: omap f ps | None => omap f ps end).
    destruct (f p) as [s0|] eqn:Hp; cbn [length]; (split; [lia|]); intros s.
    + cbn [In]. rewrite IHin. split.
      * intros [<- | (q & Hq & Hf)]; [exists p | exists q]; tauto.
      * intros (q & [<- | Hq] & Hf); [left; congruence | right; exists q; tauto].
    + rewrite IHin. split.
      * intros (q & Hq & Hf). exists q. cbn. tauto.
      * intros (q & [<- | Hq] & Hf); [congruence | exists q; tauto].
Qed.

Lemma float_add_pos :
  forall a b, 0 <= a -> 0 < b -> 0 < Float.add a b.
Proof.
  intros a b Ha Hb. unfold Float.add. apply FloatFacts.double_pos.
  pose proof (FloatFacts.double_nonneg a Ha). pose proof (FloatFacts.double_pos b Hb). lra.
Qed.

Lemma float_div_pos :
  forall a b, 0 < a -> 0 < b -> 0 < Float.div a b.
Proof.
  intros a b Ha Hb. unfold Float.div. apply FloatFacts.double_pos.
  apply Qlt_shift_div_l; [exact (FloatFacts.double_pos b Hb)|].
  pose proof (FloatFacts.double_pos a Ha). lra.
Qed.

(** The running total of the loop is positive once a producer was found. *)
Lemma total_confidence_pos :
  forall found acc,
    List.Forall (fun s => 0 < confidence s) found ->
    (0 < acc \/ (0 <= acc /\ found <> [])) ->
    0 < fold_left (fun acc s => Float.add acc (confidence s)) found acc.
Proof.
  induction found as [|s found IH]; intros acc Hall Hacc; cbn [fold_left].
  - destruct Hacc as [H | [_ H]]; [exact H | congruence].
  - inversion Hall as [|? ? Hs Hrest]; subst. apply IH; [exact Hrest|]. left.
    apply float_add_pos; [|exact Hs]. destruct Hacc as [H | [H _]]; lra.
Qed.

Lemma found_signature_ok :
  forall list_set producer year s,
    set_iteration list_set ->
    get_producer_subgenres list_set producer year = Some s ->
    subgenres s <> [] /\ (80 # 100) <= confidence s <= (95 # 100).
Proof.
  intros list_set producer year s Hset Hs.
  destruct (get_producer_subgenres list_set producer None) as [base|] eqn:Hbase.
  - destruct (refined_signature list_set producer year base Hset Hbase)
      as (refined & Hr & _ & Hconf & _ & Hin & _).
    rewrite Hs in Hr. injection Hr as <-.
    unfold get_producer_subgenres in Hbase.
    destruct (Dict.get _ PRODUCER_GENRE_SIGNATURES) as [s0|] eqn:Hsig; [|discriminate].
    cbn [year_given] in Hbase. injection Hbase as <-.
    destruct (known_signature_ok _ _ Hsig) as (Hne & Hc & _).
    rewrite Hconf. split; [|exact Hc].
    destruct (subgenres s0) as [|sg rest]; [congruence|].
    intros Hnil. specialize (Hin sg). rewrite Hnil in Hin.
    apply Hin. left. left. reflexivity.
  - apply (producer_is_known_by_name list_set producer year) in Hbase.
    rewrite Hbase in Hs. discriminate.
Qed.

Lemma concat_nil_all {A : Type} (ls : list (list A)) :
  concat ls = [] -> forall l, In l ls -> l = [].
Proof.
  induction ls as [|h t IH]; cbn; intros H l Hin; [destruct Hin|].
  apply app_eq_nil in H. destruct H as [Hh Ht].
  destruct Hin as [<- | Hin]; [exact Hh | exact (IH Ht l Hin)].
Qed.

Lemma analyze_producer_contribution_eq :
  forall list_set producers year,
    analyze_producer_contribution list_set producers year
    = let found := omap (fun p => get_producer_subgenres list_set p year) producers in
      match concat (map subgenres found) with
      | [] => None
      | _ =>
          Some {| suggested_subgenres :=
                    map fst (most_common 3 (Counter (concat (map subgenres found))));
                  contribution_confidence :=
                    Qmin (Float.div
                            (fold_left (fun acc s => Float.add acc (confidence s)) found 0)
                            (inject_Z (Z.of_nat (length producers)))) 1;
                  num_producers := length found;
                  source := "producer_specialization" |}
      end.
Proof. intros list_set [|p ps] year; reflexivity. Qed.

Lemma answer_needs_nonempty {A B : Type} (l : list A) (x c : B) :
  match l with [] => None | _ :: _ => Some x end = Some c -> l <> [] /\ x = c.
Proof.
  destruct l; [discriminate|]. intros [= <-]. split; [discriminate | reflexivity].
Qed.

(** X9. With at least one known producer the analysis always answers, and
    its confidence is the float sum of the known producers' confidences
    divided by the number of all producers given, capped at 1.0: unknown
    names dilute it, and it is positive and at most 1. With no known
    producer there is no answer. The mean is a float mean: six producers of
    confidence 0.95 give a little more than 0.95. *)
Theorem contribution_confidence_is_a_diluted_float_mean :
  (forall list_set producers year,
     set_iteration list_set ->
     let found := omap (fun p => get_producer_subgenres list_set p year) producers in
     match analyze_producer_contribution list_set producers year with
     | None => found = []
     | Some c =>
         found <> []
         /\ contribution_confidence c
            = Qmin (Float.div
                      (fold_left (fun acc s => Float.add acc (confidence s)) found 0)
                      (inject_Z (Z.of_nat (length producers)))) 1
         /\ 0 < contribution_confidence c <= 1
         /\ num_producers c = length found
         /\ (1 <= num_producers c <= length producers)%nat
     end)
  /\ (forall list_set,
        set_iteration list_set ->
        exists c,
          analyze_producer_contribution list_set
            ["Max Martin"; "Pharrell Williams"; "Chad Hugo"; "Mannie Fresh"; "Dr. Dre";
             "Byron Gallimore"] None = Some c
          /\ (95 # 100) < contribution_confidence c
          /\ num_producers c = 6%nat).
Proof.
  split.
  - intros list_set producers year Hset. cbv zeta.
    rewrite analyze_producer_contribution_eq. cbv zeta.
    destruct (found_producers (fun p => get_producer_subgenres list_set p year) producers)
      as [Hlen Hin].
    set (found := omap (fun p => get_producer_subgenres list_set p year) producers) in *.
    assert (Hok : forall s, In s found ->
                    subgenres s <> [] /\ (80 # 100) <= confidence s <= (95 # 100)).
    { intros s Hs. apply Hin in Hs. destruct Hs as (p & _ & Hp).
      exact (found_signature_ok _ _ _ _ Hset Hp). }
    destruct (concat (map subgenres found)) as [|sg rest] eqn:Hpool.
    + destruct found as [|s found']; [reflexivity|]. exfalso.
      destruct (Hok s (or_introl eq_refl)) as [Hne _]. apply Hne.
      apply (concat_nil_all _ Hpool). left. reflexivity.
    + assert (Hfound : found <> []).
      { intros Hnil. rewrite Hnil in Hpool. discriminate. }
      assert (Hpos : (1 <= length found)%nat).
      { destruct found; [congruence | cbn; lia]. }
      cbn [contribution_confidence num_producers].
      assert (Hall : List.Forall (fun s => 0 < confidence s) found).
      { apply List.Forall_forall. intros s Hs. destruct (Hok s Hs) as [_ [Hlo _]]. lra. }
      pose proof (total_confidence_pos found 0 Hall
                    (or_intror (conj (Qle_refl 0) Hfound))) as Htotal.
      set (total := fold_left (fun acc s => Float.add acc (confidence s)) found 0) in *.
      assert (Hn : 0 < inject_Z (Z.of_nat (length producers))).
      { change 0 with (inject_Z 0). rewrite <- Zlt_Qlt. lia. }
      pose proof (float_div_pos total _ Htotal Hn) as Hmean.
      split; [exact Hfound|]. split; [reflexivity|]. split; [|split; [reflexivity | lia]].
      split; [apply Q.min_glb_lt; [exact Hmean | reflexivity] | apply Q.le_min_r].
  - intros list_set _. eexists. split; [vm_compute; reflexivity|].
    split; [vm_compute; reflexivity | reflexivity].
Qed.

Lemma contribution_confidence_is_a_diluted_float_mean_witness :
  set_iteration insertion_order
  /\ match analyze_producer_contribution insertion_order
             ["Max Martin"; "Somebody Unknown"] (Some 2002%Z) with
     | None => False
     | Some c => 0 < contribution_confidence c <= 1 /\ num_producers c = 1%nat
     end.
Proof.
  split; [exact ProducerFacts.insertion_order_is_set_iteration|].
  pose proof (proj1 contribution_confidence_is_a_diluted_float_mean insertion_order
                ["Max Martin"; "Somebody Unknown"] (Some 2002%Z)
                ProducerFacts.insertion_order_is_set_iteration) as H.
  cbv zeta in H.
  destruct (analyze_producer_contribution insertion_order
              ["Max Martin"; "Somebody Unknown"] (Some 2002%Z)) as [c|].
  - destruct H as (_ & _ & Hconf & Hnum & _). split.
    + exact Hconf.
    + rewrite Hnum. reflexivity.
  - discriminate H.
Defined.

(** X10. The suggested subgenres are the most frequent ones among the known
    producers of the song: between one and three of them, without
    repetition, each taken from a known producer's list; a subgenre that
    was left out is never more frequent than one that was kept, and is left
    out only when three were kept. *)
Theorem suggestions_are_the_most_frequent :
  forall list_set producers year c,
    analyze_producer_contribution list_set producers year = Some c ->
    let pool := concat (map subgenres
                          (omap (fun p => get_producer_subgenres list_set p year)
                                producers)) in
    List.NoDup (suggested_subgenres c)
    /\ (1 <= length (suggested_subgenres c) <= 3)%nat
    /\ (forall sg, In sg (suggested_subgenres c) -> In sg pool)
    /\ (forall sg other,
          In sg (suggested_subgenres c) -> In other pool ->
          ~ In other (suggested_subgenres c) ->
          length (suggested_subgenres c) = 3%nat
          /\ (count_occ string_dec pool other <= count_occ string_dec pool sg)%nat).
Proof.
  intros list_set producers year c H. cbv zeta.
  rewrite analyze_producer_contribution_eq in H. cbv zeta in H.
  set (pool := concat (map subgenres
                         (omap (fun p => get_producer_subgenres list_set p year)
                               producers))) in *.
  apply answer_needs_nonempty in H. destruct H as [Hne <-]. cbn [suggested_subgenres].
  destruct (most_common_spec 3 pool) as (Hnd & Hlen & Hin & Hdom).
  split; [exact Hnd|]. split; [|split; [exact Hin | exact Hdom]].
  rewrite Hlen.
  destruct (Counter_spec pool) as [_ Hc].
  assert (Hmem : exists sg0, In (sg0, count_occ string_dec pool sg0) (Counter pool)).
  { destruct pool as [|sg0 rest] eqn:Hpool; [congruence|]. rewrite <- Hpool in *.
    exists sg0. apply Hc. split; [reflexivity|]. rewrite Hpool. left. reflexivity. }
  destruct Hmem as [sg0 Hmem].
  destruct (Counter pool); [destruct Hmem | cbn [length]; lia].
Qed.

Lemma suggestions_are_the_most_frequent_witness :
  exists c,
    analyze_producer_contribution insertion_order
      ["Timbaland"; "Jermaine Dupri"; "Rodney Jerkins"] None = Some c
    /\ List.NoDup (suggested_subgenres c)
    /\ length (suggested_subgenres c) = 3%nat
    /\ hd_error (suggested_subgenres c) = Some "contemporary-r&b"%string.
Proof.
  eexists. split; [vm_compute; reflexivity|].
  destruct (suggestions_are_the_most_frequent insertion_order
              ["Timbaland"; "Jermaine Dupri"; "Rodney Jerkins"] None _ eq_refl)
    as (Hnd & _ & _ & _).
  split; [exact Hnd|]. split; reflexivity.
Defined.

End ProducerProperties.

(** ** Properties of the subgenre classifier *)

Module ClassifierProperties.
Import MLSubgenreClassifier.
Local Open Scope Q_scope.

Lemma best_from_first :
  forall audio_features subgenre_profiles best,
    (fold_left (best_step audio_features) subgenre_profiles best = best
     /\ forall entry, In entry subgenre_profiles ->
          _calculate_profile_match audio_features (snd entry) <= snd best)
    \/ exists before winner after,
         subgenre_profiles = before ++ winner :: after
         /\ fold_left (best_step audio_features) subgenre_profiles best
            = (Some (fst winner), _calculate_profile_match audio_features (snd winner))
         /\ snd best < _calculate_profile_match audio_features (snd winner)
         /\ (forall entry, In entry before ->
               _calculate_profile_match audio_features (snd entry)
               < _calculate_profile_match audio_features (snd winner))
         /\ (forall entry, In entry after ->
               _calculate_profile_match audio_features (snd entry)
               <= _calculate_profile_match audio_features (snd winner)).
Proof.
  intros f profiles. induction profiles as [|e rest IH]; intros best.
  - left. split; [reflexivity | intros ? []].
  - cbn [fold_left]. unfold best_step at 2 4.
    destruct (Qle_bool (_calculate_profile_match f (snd e)) (snd best)) eqn:Hle;
      cbn [negb].
    + apply Qle_bool_iff in Hle.
      destruct (IH best) as [[Heq Hall] | (before & w & after & Hsplit & Heq & Hlt & Hb & Ha)].
      * left. split; [exact Heq|]. intros x [<- | Hx]; [exact Hle | exact (Hall x Hx)].
      * right. exists (e :: before), w, after.
        split; [rewrite Hsplit; reflexivity|]. split; [exact Heq|]. split; [exact Hlt|].
        split; [|exact Ha].
        intros x [<- | Hx]; [|exact (Hb x Hx)].
        eapply Qle_lt_trans; eassumption.
    + apply ClassifierFacts.Qle_bool_false in Hle.
      destruct (IH (Some (fst e), _calculate_profile_match f (snd e)))
        as [[Heq Hall] | (before & w & after & Hsplit & Heq & Hlt & Hb & Ha)].
      * right. exists [], e, rest. split; [reflexivity|]. split; [exact Heq|].
        split; [exact Hle|]. split; [intros ? []|]. exact Hall.
      * right. exists (e :: before), w, after.
        split; [rewrite Hsplit; reflexivity|]. split; [exact Heq|]. cbn [snd] in Hlt.
        split; [eapply Qlt_trans; eassumption|]. split; [|exact Ha].
        intros x [<- | Hx]; [exact Hlt | exact (Hb x Hx)].
Qed.

Lemma accepted_score_range :
  forall rules primary_genre audio_features sg sc,
    classify_with_rules rules primary_genre audio_features = (Some sg, sc) ->
    6 # 10 <= sc <= 1.
Proof.
  intros rules g f sg sc H.
  destruct (ClassifierFacts.classify_with_rules_accepts _ _ _ _ _ H)
    as (Hacc & profiles & p & _ & _ & -> & _).
  split; [exact Hacc|]. exact (proj2 (ClassifierFacts.profile_match_bounds f p)).
Qed.

(** X11. The score returned by the rule-based classifier always lies between
    0 and 1, and a subgenre is returned exactly when that score reaches 0.6:
    an accepted score never comes without a subgenre. *)
Theorem rule_match_is_returned_exactly_from_six_tenths :
  forall rules primary_genre audio_features,
    0 <= snd (classify_with_rules rules primary_genre audio_features) <= 1
    /\ (fst (classify_with_rules rules primary_genre audio_features) = None
        <-> snd (classify_with_rules rules primary_genre audio_features) < 6 # 10).
Proof.
  intros rules g f. unfold classify_with_rules.
  destruct (Dict.get g rules) as [profiles|].
  - unfold best_profile.
    destruct (best_from_first f profiles (None, 0))
      as [[Heq _] | (before & w & after & _ & Heq & Hlt & _)]; rewrite Heq.
    + change (Qle_bool (6 # 10) 0) with false. cbn [fst snd].
      split; [split; discriminate|]. split; reflexivity.
    + cbn [snd] in Hlt.
      destruct (ClassifierFacts.profile_match_bounds f (snd w)) as [H0 H1].
      destruct (Qle_bool (6 # 10) (_calculate_profile_match f (snd w))) eqn:Hacc;
        cbn [fst snd]; (split; [split; assumption|]).
      * apply Qle_bool_iff in Hacc. split; [discriminate|].
        intros Hlow. exfalso. exact (Qlt_not_le _ _ Hlow Hacc).
      * apply ClassifierFacts.Qle_bool_false in Hacc. tauto.
  - cbn [fst snd]. split; [split; discriminate|]. split; reflexivity.
Qed.

Lemma rule_match_is_returned_exactly_from_six_tenths_witness :
  snd (classify_with_rules RULE_BASED_SUBGENRES "jazz"
         (list_to_map [("energy"%string, 1 # 10)])) < 6 # 10
  /\ fst (classify_with_rules RULE_BASED_SUBGENRES "jazz"
            (list_to_map [("energy"%string, 1 # 10)])) = None.
Proof.
  assert (H : snd (classify_with_rules RULE_BASED_SUBGENRES "jazz"
                     (list_to_map [("energy"%string, 1 # 10)])) < 6 # 10)
    by (vm_compute; reflexivity).
  split; [exact H|].
  exact (proj2 (proj2 (rule_match_is_returned_exactly_from_six_tenths
                         RULE_BASED_SUBGENRES "jazz"
                         (list_to_map [("energy"%string, 1 # 10)]))) H).
Defined.

(** X12. The subgenre returned by the rule-based classifier is the first
    profile of the genre, in table order, with the highest score: every
    earlier profile scores strictly less and no later one scores more. *)
Theorem rule_match_is_the_first_best_profile :
  forall rules primary_genre audio_features sg sc,
    classify_with_rules rules primary_genre audio_features = (Some sg, sc) ->
    exists subgenre_profiles before profile after,
      Dict.get primary_genre rules = Some subgenre_profiles
      /\ subgenre_profiles = before ++ (sg, profile) :: after
      /\ sc = _calculate_profile_match audio_features profile
      /\ (forall entry, In entry before ->
            _calculate_profile_match audio_features (snd entry) < sc)
      /\ (forall entry, In entry after ->
            _calculate_profile_match audio_features (snd entry) <= sc).
Proof.
  intros rules g f sg sc H. unfold classify_with_rules in H.
  destruct (Dict.get g rules) as [profiles|]; [|discriminate].
  unfold best_profile in H.
  destruct (best_from_first f profiles (None, 0))
    as [[Heq _] | (before & [name p] & after & Hsplit & Heq & _ & Hb & Ha)];
    rewrite Heq in H.
  - destruct (Qle_bool (6 # 10) 0); discriminate.
  - cbn [fst snd] in *.
    destruct (Qle_bool (6 # 10) (_calculate_profile_match f p)); [|discriminate].
    injection H as <- <-.
    exists profiles, before, p, after. repeat split; assumption.
Qed.

Lemma rule_match_is_the_first_best_profile_witness :
  classify_with_rules RULE_BASED_SUBGENRES "folk"
    (list_to_map [("acousticness"%string, 65 # 100); ("energy"%string, 6 # 10)])
  = (Some "folk-rock"%string, 2 # 2)
  /\ exists subgenre_profiles before profile after,
       Dict.get "folk" RULE_BASED_SUBGENRES = Some subgenre_profiles
       /\ subgenre_profiles = before ++ ("folk-rock"%string, profile) :: after
       /\ 2 # 2 = _calculate_profile_match
                (list_to_map [("acousticness"%string, 65 # 100); ("energy"%string, 6 # 10)])
                profile
       /\ (forall entry, In entry before ->
             _calculate_profile_match
               (list_to_map [("acousticness"%string, 65 # 100); ("energy"%string, 6 # 10)])
               (snd entry) < 2 # 2)
       /\ (forall entry, In entry after ->
             _calculate_profile_match
               (list_to_map [("acousticness"%string, 65 # 100); ("energy"%string, 6 # 10)])
               (snd entry) <= 2 # 2).
Proof.
  assert (H : classify_with_rules RULE_BASED_SUBGENRES "folk"
                (list_to_map [("acousticness"%string, 65 # 100); ("energy"%string, 6 # 10)])
              = (Some "folk-rock"%string, 2 # 2)) by (vm_compute; reflexivity).
  split; [exact H|].
  exact (rule_match_is_the_first_best_profile _ _ _ _ _ H).
Defined.

(** X13. The tempo handed to a trained model is halved once above 200 and
    doubled once below 100: it lies between 100 and 200 exactly when the
    tempo of the song lies between 50 and 400, and a tempo already in that
    range is left as it is. *)
Theorem tempo_is_normalised_once :
  forall tempo,
    (100 <= adjust_tempo tempo <= 200 <-> 50 <= tempo <= 400)
    /\ (100 <= tempo <= 200 -> adjust_tempo tempo = tempo).
Proof.
  intros tempo. unfold adjust_tempo.
  destruct (Qle_bool tempo 200) eqn:H200; cbn [negb].
  - apply Qle_bool_iff in H200.
    destruct (Qle_bool 100 tempo) eqn:H100; cbn [negb].
    + apply Qle_bool_iff in H100.
      split; [|reflexivity]. split; intros [Ha Hb]; split; lra.
    + apply ClassifierFacts.Qle_bool_false in H100.
      split; [|intros [Ha Hb]; exfalso; lra]. split; intros [Ha Hb]; split; lra.
  - apply ClassifierFacts.Qle_bool_false in H200.
    split; [|intros [Ha Hb]; exfalso; lra].
    unfold Qdiv. change (/ 2) with (1 # 2). split; intros [Ha Hb]; split; lra.
Qed.

Lemma tempo_is_normalised_once_witness :
  (100 <= 120 <= 200) /\ adjust_tempo 120 = 120
  /\ (50 <= 240 <= 400) /\ (100 <= adjust_tempo 240 <= 200).
Proof.
  assert (H1 : 100 <= 120 <= 200) by (split; discriminate).
  assert (H2 : 50 <= 240 <= 400) by (split; discriminate).
  split; [exact H1|]. split; [exact (proj2 (tempo_is_normalised_once 120) H1)|].
  split; [exact H2|]. exact (proj2 (proj1 (tempo_is_normalised_once 240)) H2).
Defined.

(** X14. Whatever the method asked for, the result of [classify] is
    consistent: it carries the primary genre it was given; it has no
    subgenre exactly when its method is none, and then confidence 0; a
    result by rules has a confidence from 0.6 to 1 and is never given for
    method ml; a result by ml is never given for method rules; and a method
    other than ml, rules and auto always yields none. *)
Theorem classify_result_is_consistent :
  forall rules (models : gmap string model_package) primary_genre audio_features m,
    let result := classify rules models primary_genre audio_features m in
    MLSubgenreClassifier.primary_genre result = primary_genre
    /\ (subgenre result = None <-> method result = "none"%string)
    /\ (method result = "none"%string -> confidence result = 0)
    /\ (method result = "rules"%string ->
        m <> "ml"%string /\ 6 # 10 <= confidence result <= 1)
    /\ (method result = "ml"%string -> m <> "rules"%string)
    /\ (m <> "ml"%string -> m <> "rules"%string -> m <> "auto"%string ->
        method result = "none"%string).
Proof.
  intros rules models g f m. cbv zeta. unfold classify.
  pose proof (accepted_score_range rules g f) as Hrange.
  destruct (classify_with_rules rules g f) as [sg2 c2].
  destruct (classify_with_ml models g f) as [sg1 c1].
  assert (Htruthy : forall o, truthy_opt o = true -> o <> None).
  { intros [s|] H; [discriminate | discriminate H]. }
  assert (Hc2 : truthy_opt sg2 = true -> 6 # 10 <= c2 <= 1).
  { intros H. destruct sg2 as [sg|]; [|discriminate H]. exact (Hrange sg c2 eq_refl). }
  destruct (String.eqb_spec m "ml") as [Hml | Hml];
    destruct (String.eqb_spec m "rules") as [Hr | Hr];
    destruct (String.eqb_spec m "auto") as [Ha | Ha];
    try (exfalso; congruence); cbn [orb];
    destruct (truthy_opt sg1) eqn:H1; destruct (truthy_opt sg2) eqn:H2;
    cbn [MLSubgenreClassifier.primary_genre subgenre method confidence];
    repeat split; try discriminate; try congruence; try tauto;
    try (intros; apply Htruthy; assumption);
    try (intros Hn; exfalso; exact (Htruthy _ H1 Hn));
    try (intros Hn; exfalso; exact (Htruthy _ H2 Hn));
    try (intros; apply Hc2; reflexivity).
Qed.

Lemma classify_result_is_consistent_witness :
  method (classify RULE_BASED_SUBGENRES ∅ "jazz" Scenarios.smooth_jazz_features "auto")
  = "rules"%string
  /\ 6 # 10 <= confidence (classify RULE_BASED_SUBGENRES ∅ "jazz"
                             Scenarios.smooth_jazz_features "auto") <= 1.
Proof.
  assert (H : method (classify RULE_BASED_SUBGENRES ∅ "jazz"
                        Scenarios.smooth_jazz_features "auto") = "rules"%string)
    by (vm_compute; reflexivity).
  split; [exact H|].
  destruct (classify_result_is_consistent RULE_BASED_SUBGENRES ∅ "jazz"
              Scenarios.smooth_jazz_features "auto") as (_ & _ & _ & Hrules & _).
  exact (proj2 (Hrules H)).
Defined.

End ClassifierProperties.

(** ** Properties of the reasoning engine *)

Module EngineProperties.
Import GenreClassificationSystem VoteSpec.
Local Open Scope Q_scope.

(** *** Mapping to a primary genre *)

Lemma mapping_values_are_primary :
  forall key value,
    In (key, value) primary_genre_mapping -> In value primary_genres.
Proof.
  assert (H : forallb (fun entry : string * string =>
                         existsb (String.eqb (snd entry)) primary_genres)
                      primary_genre_mapping = true) by (vm_compute; reflexivity).
  intros key value Hin. rewrite forallb_forall in H.
  apply (ProducerFacts.existsb_eqb_In value primary_genres). exact (H _ Hin).
Qed.

Lemma map_in_primary_genres :
  forall genre, In (_map_to_primary_genre genre) primary_genres.
Proof.
  intros genre. unfold _map_to_primary_genre.
  destruct (Dict.get _ primary_genre_mapping) as [primary|] eqn:Hget.
  - apply DictFacts.get_some_in in Hget. exact (mapping_values_are_primary _ _ Hget).
  - destruct (find _ primary_genre_mapping) as [[key value]|] eqn:Hfind.
    + apply find_some in Hfind. exact (mapping_values_are_primary _ _ (proj1 Hfind)).
    + unfold primary_genres. cbn. tauto.
Qed.

Lemma primary_genres_map_to_themselves :
  forall genre, In genre primary_genres -> _map_to_primary_genre genre = genre.
Proof.
  intros genre Hin. unfold primary_genres in Hin. cbn [In] in Hin.
  repeat (destruct Hin as [<- | Hin]; [vm_compute; reflexivity|]).
  destruct Hin.
Qed.

Lemma lower_all_space :
  forall s, Py.all_space s = true -> Py.lower s = s.
Proof.
  induction s as [|c s IH]; intros Hs; [reflexivity|].
  simpl. rewrite (WhitespaceFacts.lower_char_space c (WhitespaceFacts.all_space_head _ _ Hs)).
  rewrite (IH (WhitespaceFacts.all_space_tail _ _ Hs)). reflexivity.
Qed.

(** X15. Every genre name maps to one of the eleven primary genres, and a
    primary genre maps to itself, so mapping twice changes nothing. A blank
    name is contained in every table key and therefore maps to the first
    one, pop, not to other. *)
Theorem mapped_genre_is_a_primary_genre :
  forall genre,
    In (_map_to_primary_genre genre) primary_genres
    /\ _map_to_primary_genre (_map_to_primary_genre genre) = _map_to_primary_genre genre
    /\ (Py.all_space genre = true -> _map_to_primary_genre genre = "pop"%string).
Proof.
  intros genre. split; [apply map_in_primary_genres|]. split.
  - apply primary_genres_map_to_themselves. apply map_in_primary_genres.
  - intros Hblank. unfold _map_to_primary_genre.
    rewrite (lower_all_space genre Hblank), (WhitespaceFacts.strip_all_space genre Hblank).
    vm_compute. reflexivity.
Qed.

Lemma mapped_genre_is_a_primary_genre_witness :
  Py.all_space "  " = true /\ _map_to_primary_genre "  " = "pop"%string.
Proof.
  assert (H : Py.all_space "  " = true) by reflexivity.
  split; [exact H|].
  exact (proj2 (proj2 (mapped_genre_is_a_primary_genre "  ")) H).
Defined.

(** *** The votes *)

Lemma votes_from :
  forall cls votes,
    List.NoDup (map fst votes) ->
    List.NoDup (map fst (fold_left vote_step cls votes))
    /\ (forall genre,
          In genre (map fst (fold_left vote_step cls votes))
          <-> In genre (map fst votes)
              \/ exists c, In c cls /\ _map_to_primary_genre (name c) = genre)
    /\ (forall genre,
          default 0 (Dict.get genre (fold_left vote_step cls votes))
          == default 0 (Dict.get genre votes) + weighted_vote cls genre).
Proof.
  induction cls as [|c cls IH]; intros votes Hnd; cbn [fold_left].
  - split; [exact Hnd|]. split.
    + intros genre. split; [tauto | intros [H | (c & [] & _)]; exact H].
    + intros genre. unfold weighted_vote. cbn [fold_right]. rewrite Qplus_0_r. reflexivity.
  - assert (Hnd1 : List.NoDup (map fst (vote_step votes c)))
      by (apply DictFacts.keys_upsert_nodup; exact Hnd).
    destruct (IH (vote_step votes c) Hnd1) as (Hnd' & Hkeys & Htotal).
    split; [exact Hnd'|]. split.
    + intros genre. rewrite Hkeys. unfold vote_step at 1.
      rewrite DictFacts.keys_upsert_in. split.
      * intros [[-> | H] | (c' & Hc' & Hmap)].
        -- right. exists c. split; [left; reflexivity | reflexivity].
        -- left. exact H.
        -- right. exists c'. split; [right; exact Hc' | exact Hmap].
      * intros [H | (c' & [<- | Hc'] & Hmap)].
        -- left. right. exact H.
        -- left. left. symmetry. exact Hmap.
        -- right. exists c'. split; assumption.
    + intros genre. rewrite Htotal. unfold weighted_vote. cbn [fold_right].
      fold (weighted_vote cls genre). unfold vote_step.
      destruct (String.eqb_spec (_map_to_primary_genre (name c)) genre) as [<- | Hne].
      * rewrite DictFacts.get_upsert_same. cbn [default].
        generalize (default 0 (Dict.get (_map_to_primary_genre (name c)) votes)).
        intros q. unfold id. ring.
      * rewrite DictFacts.get_upsert_other by congruence. reflexivity.
Qed.

Lemma accumulate_spec :
  forall cls,
    List.NoDup (map fst (accumulate cls))
    /\ (forall genre,
          In genre (map fst (accumulate cls))
          <-> exists c, In c cls /\ _map_to_primary_genre (name c) = genre)
    /\ (forall genre weight,
          In (genre, weight) (accumulate cls) -> weight == weighted_vote cls genre).
Proof.
  intros cls. unfold accumulate.
  destruct (votes_from cls [] (List.NoDup_nil _)) as (Hnd & Hkeys & Htotal).
  split; [exact Hnd|]. split.
  - intros genre. rewrite Hkeys. cbn [map In]. tauto.
  - intros genre weight Hin. apply (DictFacts.in_get_nodup _ _ _ Hnd) in Hin.
    specialize (Htotal genre). rewrite Hin in Htotal. cbn in Htotal.
    rewrite Htotal. ring.
Qed.

Lemma max_from_largest :
  forall votes best winner,
    fold_left max_step votes (Some best) = Some winner ->
    snd best <= snd winner
    /\ forall entry, In entry votes -> snd entry <= snd winner.
Proof.
  induction votes as [|e rest IH]; intros best winner H; cbn [fold_left max_step] in H.
  - injection H as <-. split; [lra | intros ? []].
  - destruct (Qle_bool (snd e) (snd best)) eqn:Hle; cbn [negb] in H.
    + apply Qle_bool_iff in Hle. destruct (IH _ _ H) as [Hb Hall].
      split; [exact Hb|]. intros x [<- | Hx]; [lra | exact (Hall x Hx)].
    + apply ClassifierFacts.Qle_bool_false in Hle. destruct (IH _ _ H) as [Hb Hall].
      split; [lra|]. intros x [<- | Hx]; [exact Hb | exact (Hall x Hx)].
Qed.

Lemma max_vote_largest :
  forall votes winner,
    max_vote votes = Some winner ->
    In winner votes /\ forall entry, In entry votes -> snd entry <= snd winner.
Proof.
  intros [|e rest] winner H; [discriminate|].
  destruct (EngineFacts.max_vote_some (e :: rest)) as (w & Hw & Hin); [discriminate|].
  rewrite H in Hw. injection Hw as <-. split; [exact Hin|].
  unfold max_vote in H. cbn [fold_left max_step] in H.
  destruct (max_from_largest _ _ _ H) as [Hb Hall].
  intros x [<- | Hx]; [exact Hb | exact (Hall x Hx)].
Qed.

(** The strongest genre of the sorted list is the one [max] picks. *)
Lemma sorted_head_is_max :
  forall votes acc,
    hd_error (fold_left
                (fun acc e =>
                   Dict.insert_desc (fun a b : string * Q => negb (Qle_bool (snd b) (snd a)))
                                    e acc)
                votes acc)
    = fold_left max_step votes (hd_error acc).
Proof.
  induction votes as [|e rest IH]; intros acc; cbn [fold_left]; [reflexivity|].
  rewrite IH. f_equal. destruct acc as [|h t]; cbn; [reflexivity|].
  destruct (Qle_bool (snd e) (snd h)); reflexivity.
Qed.

Lemma sort_desc_head :
  forall votes,
    hd_error (Dict.sort_desc (fun a b : string * Q => negb (Qle_bool (snd b) (snd a))) votes)
    = max_vote votes.
Proof. intros votes. exact (sorted_head_is_max votes []). Qed.

Lemma engine_on_votes :
  forall list_set profile,
    classifications profile <> [] ->
    exists winner,
      max_vote (accumulate (classifications profile)) = Some winner
      /\ In winner (accumulate (classifications profile))
      /\ primary_genre (_apply_ari_reasoning_engine list_set profile) = Some (fst winner)
      /\ secondary_tags (_apply_ari_reasoning_engine list_set profile)
         = firstn 10 (list_set (collected_tags (classifications profile)))
      /\ crossover_indicators (_apply_ari_reasoning_engine list_set profile)
         = _detect_crossover_indicators
             {| artist_name := artist_name profile;
                classifications := classifications profile;
                confidence_score :=
                  confidence_score (_apply_ari_reasoning_engine list_set profile);
                primary_genre := Some (fst winner);
                secondary_tags := firstn 10 (list_set (collected_tags (classifications profile)));
                crossover_indicators := crossover_indicators profile |}.
Proof.
  intros list_set profile Hne.
  destruct (accumulate_spec (classifications profile)) as (_ & Hkeys & _).
  assert (Hvotes : accumulate (classifications profile) <> []).
  { destruct (classifications profile) as [|c cls] eqn:Hcls; [congruence|].
    intros Hnil.
    assert (Hin : In (_map_to_primary_genre (name c)) (map fst (accumulate (c :: cls)))).
    { apply Hkeys. exists c. split; [left; reflexivity | reflexivity]. }
    rewrite Hnil in Hin. destruct Hin. }
  destruct (EngineFacts.max_vote_some _ Hvotes) as ([genre weight] & Hmax & Hin).
  exists (genre, weight). split; [exact Hmax|]. split; [exact Hin|].
  unfold _apply_ari_reasoning_engine.
  destruct (classifications profile) as [|c cls] eqn:Hcls; [congruence|].
  rewrite Hmax. cbn. repeat split; reflexivity.
Qed.

(** X16. The primary genre the engine decides on is a genre some
    classification maps to, and no genre has a larger total weighted vote,
    the vote of a genre being the sum, over the classifications mapping to
    it, of source weight times confidence. *)
Theorem primary_genre_has_the_largest_weighted_vote :
  forall list_set profile,
    classifications profile <> [] ->
    exists genre,
      primary_genre (_apply_ari_reasoning_engine list_set profile) = Some genre
      /\ (exists c, In c (classifications profile)
                    /\ _map_to_primary_genre (name c) = genre)
      /\ forall c, In c (classifications profile) ->
           weighted_vote (classifications profile) (_map_to_primary_genre (name c))
           <= weighted_vote (classifications profile) genre.
Proof.
  intros list_set profile Hne.
  destruct (engine_on_votes list_set profile Hne)
    as ([genre weight] & Hmax & Hin & Hprimary & _).
  destruct (accumulate_spec (classifications profile)) as (Hnd & Hkeys & Htotal).
  destruct (max_vote_largest _ _ Hmax) as [_ Hlargest].
  exists genre. split; [exact Hprimary|]. split.
  - apply Hkeys. change genre with (fst (genre, weight)). apply in_map. exact Hin.
  - intros c Hc.
    assert (Hkey : In (_map_to_primary_genre (name c))
                      (map fst (accumulate (classifications profile)))).
    { apply Hkeys. exists c. split; [exact Hc | reflexivity]. }
    apply in_map_iff in Hkey. destruct Hkey as ([genre' weight'] & Hfst & Hin').
    cbn [fst] in Hfst. subst genre'.
    pose proof (Hlargest _ Hin') as Hle. cbn [snd] in Hle.
    rewrite <- (Htotal _ _ Hin'), <- (Htotal _ _ Hin). exact Hle.
Qed.

Lemma primary_genre_has_the_largest_weighted_vote_witness :
  classifications
    {| artist_name := "Cher"; classifications := Scenarios.pop_rock_classifications;
       confidence_score := 0; primary_genre := None; secondary_tags := [];
       crossover_indicators := [] |} <> []
  /\ exists genre,
       primary_genre
         (_apply_ari_reasoning_engine ProducerGenrePatterns.insertion_order
            {| artist_name := "Cher"; classifications := Scenarios.pop_rock_classifications;
               confidence_score := 0; primary_genre := None; secondary_tags := [];
               crossover_indicators := [] |}) = Some genre
       /\ weighted_vote Scenarios.pop_rock_classifications "rock"
          <= weighted_vote Scenarios.pop_rock_classifications genre.
Proof.
  assert (Hne : classifications
                  {| artist_name := "Cher";
                     classifications := Scenarios.pop_rock_classifications;
                     confidence_score := 0; primary_genre := None; secondary_tags := [];
                     crossover_indicators := [] |} <> []) by discriminate.
  split; [exact Hne|].
  destruct (primary_genre_has_the_largest_weighted_vote
              ProducerGenrePatterns.insertion_order _ Hne) as (genre & Hp & _ & Hmax).
  exists genre. split; [exact Hp|].
  exact (Hmax (classification_of "lastfm" "community" (6 # 10) "rock")
              (or_intror (or_introl eq_refl))).
Defined.

Lemma collected_tags_spec :
  forall cls tag,
    In tag (collected_tags cls)
    <-> exists c, In c cls /\ tag = Py.lower (name c)
                  /\ tag <> _map_to_primary_genre (name c).
Proof.
  unfold collected_tags. induction cls as [|c cls IH]; intros tag.
  - split; [intros [] | intros (c & [] & _)].
  - change (omap ?f (c :: cls))
      with (match f c with Some y => y :: omap f cls | None => omap f cls end).
    cbv beta.
    destruct (String.eqb_spec (Py.lower (name c)) (_map_to_primary_genre (name c)))
      as [Heq | Hne].
    + rewrite IH. split.
      * intros (c' & Hc' & Ht). exists c'. split; [right; exact Hc' | exact Ht].
      * intros (c' & [<- | Hc'] & -> & Hdiff); [congruence|].
        exists c'. repeat split; assumption.
    + cbn [In]. rewrite IH. split.
      * intros [<- | (c' & Hc' & Ht)].
        -- exists c. split; [left; reflexivity|]. split; [reflexivity | exact Hne].
        -- exists c'. split; [right; exact Hc' | exact Ht].
      * intros (c' & [<- | Hc'] & Ht & Hdiff).
        -- left. symmetry. exact Ht.
        -- right. exists c'. repeat split; assumption.
Qed.

(** X17. The engine leaves the artist name and the classifications alone
    and always sets a primary genre, one of the eleven. From a profile with
    classifications it keeps at most ten secondary tags, without
    repetition, each the lowercased name of a classification that differs
    from the primary genre that name maps to; a profile without
    classifications keeps the tags and indicators it had. *)
Theorem engine_sets_a_primary_genre_and_at_most_ten_tags :
  forall list_set profile,
    ProducerGenrePatterns.set_iteration list_set ->
    artist_name (_apply_ari_reasoning_engine list_set profile) = artist_name profile
    /\ classifications (_apply_ari_reasoning_engine list_set profile)
       = classifications profile
    /\ (exists genre,
          primary_genre (_apply_ari_reasoning_engine list_set profile) = Some genre
          /\ In genre primary_genres)
    /\ (classifications profile <> [] ->
        (length (secondary_tags (_apply_ari_reasoning_engine list_set profile)) <= 10)%nat
        /\ List.NoDup (secondary_tags (_apply_ari_reasoning_engine list_set profile))
        /\ forall tag,
             In tag (secondary_tags (_apply_ari_reasoning_engine list_set profile)) ->
             exists c, In c (classifications profile)
                       /\ tag = Py.lower (name c)
                       /\ tag <> _map_to_primary_genre (name c))
    /\ (classifications profile = [] ->
        secondary_tags (_apply_ari_reasoning_engine list_set profile)
        = secondary_tags profile
        /\ crossover_indicators (_apply_ari_reasoning_engine list_set profile)
           = crossover_indicators profile).
Proof.
  intros list_set profile Hset.
  split; [unfold _apply_ari_reasoning_engine;
          destruct (classifications profile); reflexivity|].
  split; [unfold _apply_ari_reasoning_engine;
          destruct (classifications profile); reflexivity|].
  destruct (classifications profile) as [|c0 cls0] eqn:Hcls.
  - split; [exists "other"%string; split;
            [unfold _apply_ari_reasoning_engine; rewrite Hcls; reflexivity
            | unfold primary_genres; cbn; tauto]|].
    split; [congruence|].
    intros _. unfold _apply_ari_reasoning_engine. rewrite Hcls. split; reflexivity.
  - assert (Hne : classifications profile <> []) by (rewrite Hcls; discriminate).
    destruct (engine_on_votes list_set profile Hne)
      as ([genre weight] & _ & Hin & Hprimary & Htags & _).
    rewrite Hcls in Htags, Hin.
    destruct (accumulate_spec (c0 :: cls0)) as (_ & Hkeys & _).
    split.
    { exists genre. split; [exact Hprimary|].
      assert (Hkey : In genre (map fst (accumulate (c0 :: cls0)))).
      { change genre with (fst (genre, weight)). apply in_map. exact Hin. }
      apply Hkeys in Hkey. destruct Hkey as (c & _ & <-). apply map_in_primary_genres. }
    rewrite Htags.
    split; [|intros Hnil; discriminate Hnil].
    intros _. destruct (Hset (collected_tags (c0 :: cls0))) as [Hnd Hmem].
    split; [rewrite length_firstn; lia|]. split.
    + apply ProducerProperties.nodup_firstn. exact Hnd.
    + intros tag Htag. apply DictFacts.in_firstn_in in Htag. apply Hmem in Htag.
      apply collected_tags_spec. exact Htag.
Qed.

Lemma engine_sets_a_primary_genre_and_at_most_ten_tags_witness :
  ProducerGenrePatterns.set_iteration ProducerGenrePatterns.insertion_order
  /\ secondary_tags
       (_apply_ari_reasoning_engine ProducerGenrePatterns.insertion_order
          {| artist_name := "Cher";
             classifications :=
               [ classification_of "spotify" "algorithmic" (7 # 10) "Dance Pop";
                 classification_of "spotify" "algorithmic" (7 # 10) "pop" ];
             confidence_score := 0; primary_genre := None; secondary_tags := [];
             crossover_indicators := [] |})
     = ["dance pop"%string]
  /\ List.NoDup
       (secondary_tags
          (_apply_ari_reasoning_engine ProducerGenrePatterns.insertion_order
             {| artist_name := "Cher";
                classifications :=
                  [ classification_of "spotify" "algorithmic" (7 # 10) "Dance Pop";
                    classification_of "spotify" "algorithmic" (7 # 10) "pop" ];
                confidence_score := 0; primary_genre := None; secondary_tags := [];
                crossover_indicators := [] |})).
Proof.
  split; [exact ProducerFacts.insertion_order_is_set_iteration|].
  split; [vm_compute; reflexivity|].
  destruct (engine_sets_a_primary_genre_and_at_most_ten_tags
              ProducerGenrePatterns.insertion_order
              {| artist_name := "Cher";
                 classifications :=
                   [ classification_of "spotify" "algorithmic" (7 # 10) "Dance Pop";
                     classification_of "spotify" "algorithmic" (7 # 10) "pop" ];
                 confidence_score := 0; primary_genre := None; secondary_tags := [];
                 crossover_indicators := [] |}
              ProducerFacts.insertion_order_is_set_iteration)
    as (_ & _ & _ & Htags & _).
  apply Htags. discriminate.
Defined.

(** X18. When the engine reports a crossover, the primary genre named in the
    indicator is the primary genre of the profile, and the secondary genre
    named is a different one of the eleven; the indicators are the
    crossover pair or nothing, followed by the diversity indicator exactly
    when more than five secondary tags were kept. *)
Theorem crossover_names_the_primary_genre :
  forall list_set profile,
    classifications profile <> [] ->
    exists genre crossover,
      primary_genre (_apply_ari_reasoning_engine list_set profile) = Some genre
      /\ crossover_indicators (_apply_ari_reasoning_engine list_set profile)
         = crossover
           ++ (if (5 <? length (secondary_tags
                                  (_apply_ari_reasoning_engine list_set profile)))%nat
               then ["high_genre_diversity"%string] else [])
      /\ (crossover = []
          \/ exists second,
               second <> genre
               /\ In second primary_genres
               /\ crossover
                  = ["multi_genre_crossover"%string;
                     ("primary_" ++ genre ++ "_secondary_" ++ second)%string]).
Proof.
  intros list_set profile Hne.
  destruct (engine_on_votes list_set profile Hne)
    as ([genre weight] & Hmax & _ & Hprimary & Htags & Hcross).
  cbn [fst] in Hprimary, Hcross.
  destruct (accumulate_spec (classifications profile)) as (Hnd & Hkeys & _).
  set (lt := fun a b : string * Q => negb (Qle_bool (snd b) (snd a))).
  pose proof (sort_desc_head (accumulate (classifications profile))) as Hhead.
  pose proof (DictFacts.sort_desc_perm lt (accumulate (classifications profile))) as Hperm.
  fold lt in Hhead. rewrite Hmax in Hhead.
  exists genre.
  rewrite Hcross, Htags. unfold _detect_crossover_indicators.
  cbn [classifications secondary_tags]. fold lt.
  destruct (Dict.sort_desc lt (accumulate (classifications profile)))
    as [|first [|second rest]] eqn:Hsorted.
  - exists []. split; [exact Hprimary|]. split; [reflexivity | left; reflexivity].
  - exists []. split; [exact Hprimary|]. split; [reflexivity | left; reflexivity].
  - cbn [hd_error] in Hhead. injection Hhead as ->. cbn [fst snd].
    destruct (Qle_bool (snd second) (weight * (6 # 10))); cbn [negb].
    + exists []. split; [exact Hprimary|]. split; [reflexivity | left; reflexivity].
    + eexists. split; [exact Hprimary|]. split; [reflexivity|].
      right. exists (fst second).
      assert (Hnds : List.NoDup (map fst ((genre, weight) :: second :: rest))).
      { apply (Permutation.Permutation_NoDup
                 (l := map fst (accumulate (classifications profile)))); [|exact Hnd].
        symmetry. apply Permutation_map. exact Hperm. }
      cbn [map fst] in Hnds. inversion Hnds as [|? ? Hnot _]; subst.
      split; [intros Heq; apply Hnot; left; exact Heq|].
      split; [|reflexivity].
      assert (Hkey : In (fst second) (map fst (accumulate (classifications profile)))).
      { apply in_map. apply (Permutation_in _ Hperm). right. left. reflexivity. }
      apply Hkeys in Hkey. destruct Hkey as (c & _ & <-). apply map_in_primary_genres.
Qed.

Lemma crossover_names_the_primary_genre_witness :
  classifications
    {| artist_name := "Cher";
       classifications :=
         [ classification_of "lastfm" "community" 1 "pop";
           classification_of "lastfm" "community" (7 # 10) "rock" ];
       confidence_score := 0; primary_genre := None; secondary_tags := [];
       crossover_indicators := [] |} <> []
  /\ crossover_indicators
       (_apply_ari_reasoning_engine ProducerGenrePatterns.insertion_order
          {| artist_name := "Cher";
             classifications :=
               [ classification_of "lastfm" "community" 1 "pop";
                 classification_of "lastfm" "community" (7 # 10) "rock" ];
             confidence_score := 0; primary_genre := None; secondary_tags := [];
             crossover_indicators := [] |})
     = ["multi_genre_crossover"; "primary_pop_secondary_rock"]%string
  /\ exists genre crossover,
       primary_genre
         (_apply_ari_reasoning_engine ProducerGenrePatterns.insertion_order
            {| artist_name := "Cher";
               classifications :=
                 [ classification_of "lastfm" "community" 1 "pop";
                   classification_of "lastfm" "community" (7 # 10) "rock" ];
               confidence_score := 0; primary_genre := None; secondary_tags := [];
               crossover_indicators := [] |}) = Some genre
       /\ (crossover = []
           \/ exists second,
                second <> genre
                /\ In second primary_genres
                /\ crossover
                   = ["multi_genre_crossover"%string;
                      ("primary_" ++ genre ++ "_secondary_" ++ second)%string]).
Proof.
  assert (Hne : classifications
                  {| artist_name := "Cher";
                     classifications :=
                       [ classification_of "lastfm" "community" 1 "pop";
                         classification_of "lastfm" "community" (7 # 10) "rock" ];
                     confidence_score := 0; primary_genre := None; secondary_tags := [];
                     crossover_indicators := [] |} <> []) by discriminate.
  split; [exact Hne|]. split; [vm_compute; reflexivity|].
  destruct (crossover_names_the_primary_genre
              ProducerGenrePatterns.insertion_order _ Hne)
    as (genre & crossover & Hp & _ & Hshape).
  exists genre, crossover. split; [exact Hp | exact Hshape].
Defined.

Lemma unanimous_votes :
  forall cls genre weight,
    (forall c, In c cls -> _map_to_primary_genre (name c) = genre) ->
    exists total, fold_left vote_step cls [(genre, weight)] = [(genre, total)].
Proof.
  induction cls as [|c cls IH]; intros genre weight Hall; cbn [fold_left].
  - exists weight. reflexivity.
  - unfold vote_step at 2. rewrite (Hall c (or_introl eq_refl)).
    cbn [Dict.upsert]. rewrite String.eqb_refl.
    apply IH. intros c' Hc'. apply Hall. right. exact Hc'.
Qed.

(** X19. When every classification has a positive confidence and all of
    them map to the same primary genre, the engine decides on that genre
    with a confidence score of exactly 1 and reports no crossover. *)
Theorem unanimous_sources_give_full_confidence :
  forall list_set profile genre,
    classifications profile <> [] ->
    List.Forall (fun c => 0 < confidence c) (classifications profile) ->
    (forall c, In c (classifications profile) ->
       _map_to_primary_genre (name c) = genre) ->
    primary_genre (_apply_ari_reasoning_engine list_set profile) = Some genre
    /\ confidence_score (_apply_ari_reasoning_engine list_set profile) == 1
    /\ ~ In "multi_genre_crossover"%string
            (crossover_indicators (_apply_ari_reasoning_engine list_set profile)).
Proof.
  intros list_set profile genre Hne Hpos Hall.
  assert (Hvotes : exists total,
            accumulate (classifications profile) = [(genre, total)] /\ 0 < total).
  { destruct (EngineFacts.accumulate_from (classifications profile) [] Hpos
                (List.Forall_nil _)) as [Hvpos _].
    fold (accumulate (classifications profile)) in Hvpos.
    unfold accumulate in *.
    destruct (classifications profile) as [|c cls]; [congruence|].
    cbn [fold_left] in *. unfold vote_step at 2 in Hvpos. unfold vote_step at 2.
    rewrite (Hall c (or_introl eq_refl)) in *. cbn [Dict.upsert] in *.
    destruct (unanimous_votes cls genre (default 0 None + vote_weight c)
                (fun c' Hc' => Hall c' (or_intror Hc'))) as [total Htotal].
    rewrite Htotal in *. exists total. split; [reflexivity|].
    inversion Hvpos as [|? ? Ht _]; subst. exact Ht. }
  destruct Hvotes as (total & Hacc & Htotal).
  unfold _apply_ari_reasoning_engine.
  destruct (classifications profile) as [|c cls] eqn:Hcls; [congruence|].
  cbn [primary_genre confidence_score crossover_indicators classifications].
  unfold _detect_crossover_indicators. cbn [classifications secondary_tags].
  rewrite Hacc. unfold max_vote, sum_votes, Dict.sort_desc.
  cbn [fold_left max_step Dict.insert_desc fst snd].
  split; [reflexivity|]. split.
  - assert (Hsum : Qle_bool (0 + total) 0 = false).
    { apply ClassifierFacts.Qle_bool_false. lra. }
    rewrite Hsum. cbn [negb]. field. lra.
  - cbn [app].
    destruct (5 <? length (firstn 10 (list_set (collected_tags (c :: cls)))))%nat;
      cbn; intuition discriminate.
Qed.

Lemma unanimous_sources_give_full_confidence_witness :
  confidence_score
    (_apply_ari_reasoning_engine ProducerGenrePatterns.insertion_order
       {| artist_name := "Cher";
          classifications :=
            [ classification_of "spotify" "algorithmic" (7 # 10) "dance pop";
              classification_of "genius" "database" (6 # 10) "pop" ];
          confidence_score := 0; primary_genre := None; secondary_tags := [];
          crossover_indicators := [] |}) == 1.
Proof.
  refine (proj1 (proj2 (unanimous_sources_give_full_confidence
                          ProducerGenrePatterns.insertion_order
                          {| artist_name := "Cher";
                             classifications :=
                               [ classification_of "spotify" "algorithmic" (7 # 10) "dance pop";
                                 classification_of "genius" "database" (6 # 10) "pop" ];
                             confidence_score := 0; primary_genre := None;
                             secondary_tags := []; crossover_indicators := [] |}
                          "pop" _ _ _))).
  - discriminate.
  - repeat constructor.
  - intros c [<- | [<- | []]]; vm_compute; reflexivity.
Defined.

End EngineProperties.

(** ** Properties of artist classification *)

Module ArtistClassificationProperties.
Import GenreClassificationSystem TextSpec.
Local Open Scope Q_scope.

Lemma in_omap {A B : Type} (f : A -> option B) (l : list A) (y : B) :
  In y (omap f l) <-> exists x, In x l /\ f x = Some y.
Proof.
  induction l as [|a l IH].
  - split; [intros [] | intros (x & [] & _)].
  - change (omap f (a :: l))
      with (match f a with Some b => b :: omap f l | None => omap f l end).
    destruct (f a) as [b|] eqn:Hfa.
    + cbn [In]. rewrite IH. split.
      * intros [<- | (x & Hx & Hf)]; [exists a | exists x]; tauto.
      * intros (x & [<- | Hx] & Hf); [left; congruence | right; exists x; tauto].
    + rewrite IH. split.
      * intros (x & Hx & Hf). exists x. cbn. tauto.
      * intros (x & [<- | Hx] & Hf); [congruence | exists x; tauto].
Qed.

(** A stored confidence that passes the filter is read back as a number of
    hundredths, at least 80. *)
Lemma numeric_3_2_of_high :
  forall stored,
    Float.double (8 # 10) < Float.double stored ->
    exists k, numeric_3_2 stored = Qmake k 100 /\ (80 <= k)%Z.
Proof.
  intros stored Hhigh. unfold numeric_3_2. cbv zeta.
  set (h := Float.double stored * 100).
  exists (Float.nearest_even (Qnum h) (Zpos (Qden h))). split; [reflexivity|].
  assert (H08 : 8 # 10 <= Float.double (8 # 10)) by (vm_compute; discriminate).
  assert (Hh : 80 < h) by (unfold h; lra).
  pose proof (FloatFacts.nearest_even_lower (Qnum h) (Zpos (Qden h)) eq_refl) as Hlow.
  assert (Hdiv : (80 <= Qnum h / Zpos (Qden h))%Z).
  { apply Z.div_le_lower_bound; [reflexivity|].
    unfold Qlt in Hh. cbn [Qnum Qden] in Hh. lia. }
  lia.
Qed.

Lemma existing_classification_sound :
  forall db artist year p,
    _get_existing_classification db artist year = Some p ->
    artist_name p = artist
    /\ classifications p = []
    /\ secondary_tags p = []
    /\ crossover_indicators p = []
    /\ length (high_confidence_rows db (map song_id (songs_by db artist year)))
       = length (songs_by db artist year)
    /\ exists song row genre,
         In song (songs_by db artist year)
         /\ In row (song_genres_table db)
         /\ sg_song_id row = song_id song
         /\ Float.double (8 # 10) < Float.double (sg_confidence_score row)
         /\ In genre (genres_table db)
         /\ genre_id genre = sg_genre_id row
         /\ primary_genre p = Some (genre_name genre)
         /\ confidence_score p = numeric_3_2 (sg_confidence_score row).
Proof.
  intros db artist year p H. unfold _get_existing_classification in H.
  remember (songs_by db artist year) as songs eqn:Hsongs.
  destruct songs as [|song0 songs0]; [discriminate|].
  set (found := song0 :: songs0) in *.
  set (rows := high_confidence_rows db (map song_id found)) in *.
  destruct ((length rows =? length found)%nat) eqn:Hcount; [|discriminate].
  apply Nat.eqb_eq in Hcount.
  assert (H' : match omap (fun row => match genre_of db row with
                                      | Some g => Some (row, g)
                                      | None => None
                                      end) rows with
               | (song_genre, genre) :: _ =>
                   Some {| artist_name := artist; classifications := [];
                           confidence_score := numeric_3_2 (sg_confidence_score song_genre);
                           primary_genre := Some (genre_name genre);
                           secondary_tags := []; crossover_indicators := [] |}
               | [] => None
               end = Some p).
  { cbn [andb] in H. destruct (0 <? length rows)%nat; [exact H | discriminate]. }
  clear H.
  destruct (omap _ rows) as [|[row genre] rest] eqn:Hjoin; [discriminate|].
  injection H' as <-. cbn.
  assert (Hin : In (row, genre)
                   (omap (fun row => match genre_of db row with
                                     | Some g => Some (row, g)
                                     | None => None
                                     end) rows))
    by (rewrite Hjoin; left; reflexivity).
  apply in_omap in Hin. destruct Hin as (row' & Hrow & Hg).
  destruct (genre_of db row') as [g|] eqn:Hgenre; [|discriminate].
  injection Hg as -> ->.
  unfold rows, high_confidence_rows in Hrow. apply filter_In in Hrow.
  destruct Hrow as [Hrow Hhigh]. apply andb_prop in Hhigh. destruct Hhigh as [Hid Hconf].
  apply negb_true_iff, ClassifierFacts.Qle_bool_false in Hconf.
  apply existsb_exists in Hid. destruct Hid as (id & Hid & Heq).
  apply Z.eqb_eq in Heq. apply in_map_iff in Hid. destruct Hid as (song & <- & Hsong).
  unfold genre_of in Hgenre. apply find_some in Hgenre. destruct Hgenre as [Hgin Hgid].
  apply Z.eqb_eq in Hgid.
  repeat split; try reflexivity; try assumption.
  exists song, row, genre. repeat split; assumption.
Qed.

Lemma existing_confidence_hundredths :
  forall db artist year p,
    _get_existing_classification db artist year = Some p ->
    exists k, confidence_score p = Qmake k 100 /\ (80 <= k)%Z.
Proof.
  intros db artist year p H.
  destruct (existing_classification_sound _ _ _ _ H)
    as (_ & _ & _ & _ & _ & song & row & genre & _ & _ & _ & Hhigh & _ & _ & _ & Hconf).
  rewrite Hconf. exact (numeric_3_2_of_high _ Hhigh).
Qed.

(** X20. A profile returned by the persisted check is read off the
    catalogue: a song of the artist carries a genre of the genre table whose
    stored confidence is above 0.8 as a float; that genre is the profile's
    primary genre, and the profile's confidence is the stored one as the
    Numeric(3, 2) column gives it back, rounded to two decimals, so at least
    0.80 (a stored 0.801 comes back as 0.80). The number of such rows equals
    the number of the artist's songs, and the profile has no
    classifications, tags or indicators. *)
Theorem existing_classification_is_a_stored_genre_read_back :
  forall db artist year p,
    _get_existing_classification db artist year = Some p ->
    artist_name p = artist
    /\ classifications p = []
    /\ secondary_tags p = []
    /\ crossover_indicators p = []
    /\ 80 # 100 <= confidence_score p
    /\ length (high_confidence_rows db (map song_id (songs_by db artist year)))
       = length (songs_by db artist year)
    /\ exists song row genre,
         In song (songs_by db artist year)
         /\ In row (song_genres_table db)
         /\ sg_song_id row = song_id song
         /\ Float.double (8 # 10) < Float.double (sg_confidence_score row)
         /\ In genre (genres_table db)
         /\ genre_id genre = sg_genre_id row
         /\ primary_genre p = Some (genre_name genre)
         /\ confidence_score p = numeric_3_2 (sg_confidence_score row).
Proof.
  intros db artist year p H.
  destruct (existing_classification_sound _ _ _ _ H)
    as (H1 & H2 & H3 & H4 & H5 & H6).
  destruct (existing_confidence_hundredths _ _ _ _ H) as (k & Hk & Hk80).
  repeat (split; [assumption|]).
  split; [|split; assumption].
  rewrite Hk. unfold Qle. cbn [Qnum Qden]. lia.
Qed.

Lemma existing_classification_is_a_stored_genre_read_back_witness :
  exists p,
    _get_existing_classification Scenarios.barely_high_catalogue "Cher" None = Some p
    /\ primary_genre p = Some "pop"%string
    /\ confidence_score p = 80 # 100
    /\ 80 # 100 <= confidence_score p.
Proof.
  eexists. split; [vm_compute; reflexivity|]. split; [reflexivity|].
  split; [reflexivity|].
  exact (proj1 (proj2 (proj2 (proj2 (proj2
           (existing_classification_is_a_stored_genre_read_back
              Scenarios.barely_high_catalogue "Cher" None _ eq_refl)))))).
Defined.

(** X21. When the persisted check answers, the confidence it read back is
    at least 0.80, and [classify_artist] tests it against the float 0.8
    again: from 0.81 on it returns that profile, queries no source and
    leaves the cache as it was; at 0.80, which is what a stored confidence
    between 0.8 and 0.805 is read back as, the test fails and the cache and
    the sources are consulted as if nothing were persisted. Without a
    persisted answer it goes on to the cache and the sources. *)
Theorem persisted_classification_short_circuits_from_081 :
  forall list_set db clients cache artist,
    match _get_existing_classification db artist None with
    | Some p =>
        80 # 100 <= confidence_score p
        /\ (81 # 100 <= confidence_score p ->
            classify_artist list_set db clients cache artist
            = {| profile_of := p; cache_of := cache; queried := [] |})
        /\ (confidence_score p < 81 # 100 ->
            confidence_score p == 80 # 100
            /\ classify_artist list_set db clients cache artist
               = classify_from_sources list_set db clients cache artist)
    | None =>
        classify_artist list_set db clients cache artist
        = classify_from_sources list_set db clients cache artist
    end.
Proof.
  intros list_set db clients cache artist. unfold classify_artist.
  destruct (_get_existing_classification db artist None) as [p|] eqn:Hex; [|reflexivity].
  destruct (existing_confidence_hundredths _ _ _ _ Hex) as (k & Hk & Hk80).
  rewrite Hk.
  assert (Hlo : 80 # 100 <= Float.double (8 # 10)) by (vm_compute; discriminate).
  assert (Hhi : Float.double (8 # 10) < 81 # 100) by (vm_compute; reflexivity).
  split; [unfold Qle; cbn [Qnum Qden]; lia|]. split.
  - intros H81.
    assert (Hgt : Float.double (8 # 10) < k # 100) by lra.
    apply ClassifierFacts.Qle_bool_false in Hgt. rewrite Hgt. reflexivity.
  - intros H81.
    assert (Hk' : k = 80%Z) by (unfold Qlt in H81; cbn [Qnum Qden] in H81; lia).
    subst k. split; [reflexivity|].
    assert (Hle : Qle_bool (80 # 100) (Float.double (8 # 10)) = true)
      by (apply Qle_bool_iff; exact Hlo).
    rewrite Hle. reflexivity.
Qed.

Lemma persisted_classification_short_circuits_from_081_witness :
  (exists p,
     _get_existing_classification Scenarios.barely_high_catalogue "Cher" None = Some p
     /\ confidence_score p < 81 # 100)
  /\ queried (classify_artist ProducerGenrePatterns.insertion_order
                Scenarios.barely_high_catalogue Scenarios.silent_clients ∅ "Cher")
     = ["spotify"; "chartmetric"; "lastfm"; "genius"]%string
  /\ (exists p,
        _get_existing_classification Scenarios.one_genre_catalogue "Cher" None = Some p
        /\ 81 # 100 <= confidence_score p)
  /\ queried (classify_artist ProducerGenrePatterns.insertion_order
                Scenarios.one_genre_catalogue Scenarios.silent_clients ∅ "Cher")
     = [].
Proof.
  pose proof (persisted_classification_short_circuits_from_081
                ProducerGenrePatterns.insertion_order Scenarios.barely_high_catalogue
                Scenarios.silent_clients ∅ "Cher") as Hlow.
  pose proof (persisted_classification_short_circuits_from_081
                ProducerGenrePatterns.insertion_order Scenarios.one_genre_catalogue
                Scenarios.silent_clients ∅ "Cher") as Hhigh.
  destruct (_get_existing_classification Scenarios.barely_high_catalogue "Cher" None)
    as [p|] eqn:Hp; [|discriminate Hp].
  destruct (_get_existing_classification Scenarios.one_genre_catalogue "Cher" None)
    as [q|] eqn:Hq; [|discriminate Hq].
  assert (Hpc : confidence_score p < 81 # 100).
  { vm_compute in Hp. injection Hp as <-. reflexivity. }
  assert (Hqc : 81 # 100 <= confidence_score q).
  { vm_compute in Hq. injection Hq as <-. discriminate. }
  split; [exists p; split; [reflexivity | exact Hpc]|].
  split; [rewrite (proj2 (proj2 (proj2 Hlow) Hpc)); vm_compute; reflexivity|].
  split; [exists q; split; [reflexivity | exact Hqc]|].
  rewrite (proj1 (proj2 Hhigh) Hqc). reflexivity.
Defined.

(** X22. The cache is keyed by the primary artist: after an artist was
    classified from the sources, any artist string with the same primary
    artist and no persisted classification is answered with the very same
    profile, without querying a source and without changing the cache. *)
Theorem cache_is_shared_by_primary_artist :
  forall list_set db clients cache first_name second_name,
    _extract_primary_artist first_name = _extract_primary_artist second_name ->
    _get_existing_classification db first_name None = None ->
    _get_existing_classification db second_name None = None ->
    profile_of (classify_artist list_set db clients
                  (cache_of (classify_artist list_set db clients cache first_name))
                  second_name)
    = profile_of (classify_artist list_set db clients cache first_name)
    /\ queried (classify_artist list_set db clients
                  (cache_of (classify_artist list_set db clients cache first_name))
                  second_name) = []
    /\ cache_of (classify_artist list_set db clients
                   (cache_of (classify_artist list_set db clients cache first_name))
                   second_name)
       = cache_of (classify_artist list_set db clients cache first_name).
Proof.
  intros list_set db clients cache a1 a2 Hkey H1 H2.
  unfold classify_artist. rewrite H1, H2. unfold classify_from_sources.
  rewrite <- Hkey.
  destruct (cache !! ("artist_" ++ _extract_primary_artist a1)%string)
    as [cached|] eqn:Hc.
  - cbn [cache_of]. rewrite Hc. repeat split; reflexivity.
  - destruct (poll_sources db clients a1 (_extract_primary_artist a1)) as [cls calls].
    cbn [cache_of]. rewrite lookup_insert_eq. repeat split; reflexivity.
Qed.

Lemma cache_is_shared_by_primary_artist_witness :
  _extract_primary_artist "Cher" = _extract_primary_artist "Cher feat. Somebody"
  /\ artist_name
       (profile_of
          (classify_artist ProducerGenrePatterns.insertion_order
             Scenarios.empty_catalogue Scenarios.lastfm_pop_rock
             (cache_of (classify_artist ProducerGenrePatterns.insertion_order
                          Scenarios.empty_catalogue Scenarios.lastfm_pop_rock ∅ "Cher"))
             "Cher feat. Somebody"))
     = "Cher"%string.
Proof.
  assert (Hkey : _extract_primary_artist "Cher"
                 = _extract_primary_artist "Cher feat. Somebody")
    by (vm_compute; reflexivity).
  split; [exact Hkey|].
  rewrite (proj1 (cache_is_shared_by_primary_artist
                    ProducerGenrePatterns.insertion_order
                    Scenarios.empty_catalogue Scenarios.lastfm_pop_rock ∅
                    "Cher" "Cher feat. Somebody" Hkey eq_refl eq_refl)).
  reflexivity.
Defined.

(** X23. Source polling never mixes Spotify and Chartmetric: Chartmetric is
    queried only when Spotify gave no genre. Every classification comes
    from a source that was queried, with the confidence fixed for that
    source (Spotify 0.7, Chartmetric 0.8, Genius 0.6) or, for Last.fm, a
    tag confidence above 0.4; and the catalogue is always consulted, last. *)
Theorem sources_are_polled_by_trust :
  forall db clients artist primary_artist,
    (forall c, In c (fst (poll_sources db clients artist primary_artist)) ->
       In (source c) (snd (poll_sources db clients artist primary_artist))
       /\ ((source c = "spotify"%string /\ confidence c = 7 # 10
            /\ category c = "algorithmic"%string)
           \/ (source c = "chartmetric"%string /\ confidence c = 8 # 10
               /\ category c = "industry"%string)
           \/ (source c = "lastfm"%string /\ 4 # 10 < confidence c
               /\ category c = "community"%string)
           \/ (source c = "genius"%string /\ confidence c = 6 # 10
               /\ category c = "database"%string)))
    /\ (forall c1 c2,
          In c1 (fst (poll_sources db clients artist primary_artist)) ->
          In c2 (fst (poll_sources db clients artist primary_artist)) ->
          source c1 = "spotify"%string -> source c2 <> "chartmetric"%string)
    /\ (In "chartmetric"%string (snd (poll_sources db clients artist primary_artist)) ->
        forall c, In c (fst (poll_sources db clients artist primary_artist)) ->
                  source c <> "spotify"%string)
    /\ List.last (snd (poll_sources db clients artist primary_artist)) ""%string
       = "genius"%string.
Proof.
  intros db clients artist primary_artist.
  assert (Hshape :
    forall c, In c (fst (poll_sources db clients artist primary_artist)) ->
      (source c = "spotify"%string /\ confidence c = 7 # 10
       /\ category c = "algorithmic"%string
       /\ In "spotify"%string (snd (poll_sources db clients artist primary_artist))
       /\ ~ In "chartmetric"%string (snd (poll_sources db clients artist primary_artist)))
      \/ (source c = "chartmetric"%string /\ confidence c = 8 # 10
          /\ category c = "industry"%string
          /\ In "chartmetric"%string (snd (poll_sources db clients artist primary_artist)))
      \/ (source c = "lastfm"%string /\ 4 # 10 < confidence c
          /\ category c = "community"%string
          /\ In "lastfm"%string (snd (poll_sources db clients artist primary_artist)))
      \/ (source c = "genius"%string /\ confidence c = 6 # 10
          /\ category c = "database"%string
          /\ In "genius"%string (snd (poll_sources db clients artist primary_artist)))).
  { unfold poll_sources. cbn [fst snd]. intros c Hc.
    apply in_app_or in Hc. destruct Hc as [Hc | Hc].
    { left. destruct (spotify_client clients) as [extract|]; [|destruct Hc].
      destruct (extract primary_artist) as [[|g gs]|]; [destruct Hc | | destruct Hc].
      change (In c (map (classification_of "spotify" "algorithmic" (7 # 10)) (g :: gs)))
        in Hc.
      apply in_map_iff in Hc. destruct Hc as (x & <- & _).
      cbn [classification_of source confidence category app].
      repeat split; try reflexivity; [left; reflexivity|].
      destruct (lastfm_client clients); cbn; intuition discriminate. }
    apply in_app_or in Hc. destruct Hc as [Hc | Hc].
    { right. left.
      destruct (match spotify_client clients with
                | Some extract => match extract primary_artist with
                                  | Some (g :: gs) => Some (g :: gs)
                                  | _ => None
                                  end
                | None => None
                end) as [genres|]; [destruct Hc|].
      destruct (chartmetric_client clients) as [extract|]; [|destruct Hc].
      apply in_map_iff in Hc. destruct Hc as (x & <- & _). cbn.
      repeat split; try reflexivity.
      apply in_or_app. right. left. reflexivity. }
    apply in_app_or in Hc. destruct Hc as [Hc | Hc].
    { right. right. left.
      destruct (lastfm_client clients) as [extract|]; [|destruct Hc].
      destruct (extract primary_artist) as [tags|]; [|destruct Hc].
      apply in_map_iff in Hc. destruct Hc as (tag & <- & Htag). cbn.
      unfold LastFmGenreClient.top_genres in Htag. apply filter_In in Htag.
      destruct Htag as [_ Hconf].
      apply negb_true_iff, ClassifierFacts.Qle_bool_false in Hconf.
      repeat split; try reflexivity; [exact Hconf|].
      apply in_or_app. right. apply in_or_app. right. left. reflexivity. }
    right. right. right.
    apply in_map_iff in Hc. destruct Hc as (x & <- & _). cbn.
    repeat split; try reflexivity.
    apply in_or_app. right. apply in_or_app. right. apply in_or_app. right.
    left. reflexivity. }
  split; [|split; [|split]].
  - intros c Hc.
    destruct (Hshape c Hc)
      as [(Hs & Hconf & Hcat & Hq & _) | [(Hs & Hconf & Hcat & Hq)
         | [(Hs & Hconf & Hcat & Hq) | (Hs & Hconf & Hcat & Hq)]]];
      rewrite Hs; (split; [exact Hq|]); rewrite <- Hs; tauto.
  - intros c1 c2 Hc1 Hc2 Hs1 Hs2.
    destruct (Hshape c1 Hc1)
      as [(_ & _ & _ & _ & Hnot) | [(Hs & _) | [(Hs & _) | (Hs & _)]]];
      try congruence.
    destruct (Hshape c2 Hc2)
      as [(Hs & _) | [(_ & _ & _ & Hq) | [(Hs & _) | (Hs & _)]]]; try congruence.
    all: try exact (Hnot Hq).
  - intros Hq c Hc Hs.
    destruct (Hshape c Hc)
      as [(_ & _ & _ & _ & Hnot) | [(Hs' & _) | [(Hs' & _) | (Hs' & _)]]];
      try congruence.
    all: try exact (Hnot Hq).
  - unfold poll_sources. cbn [snd]. rewrite !app_assoc. apply last_last.
Qed.

Lemma sources_are_polled_by_trust_witness :
  In "chartmetric"%string
     (snd (poll_sources Scenarios.empty_catalogue Scenarios.silent_clients "Cher" "cher"))
  /\ forall c,
       In c (fst (poll_sources Scenarios.empty_catalogue Scenarios.silent_clients
                    "Cher" "cher")) ->
       source c <> "spotify"%string.
Proof.
  assert (H : In "chartmetric"%string
                 (snd (poll_sources Scenarios.empty_catalogue Scenarios.silent_clients
                         "Cher" "cher")))
    by (right; left; reflexivity).
  split; [exact H|].
  exact (proj1 (proj2 (proj2 (sources_are_polled_by_trust
                                Scenarios.empty_catalogue Scenarios.silent_clients
                                "Cher" "cher"))) H).
Defined.

End ArtistClassificationProperties.

(** ** Properties of the primary-artist extraction *)

Module PrimaryArtistProperties.
Import GenreClassificationSystem TextSpec TextFacts.

Lemma search_from_prefix :
  forall ic r s prev before,
    Re.search_from ic r prev s = Some before -> prefix_of before s.
Proof.
  intros ic r. induction s as [|c s IH]; intros prev before H.
  - cbn in H. destruct (Re.match_here ic r prev ""); [|discriminate].
    injection H as <-. exists ""%string. reflexivity.
  - cbn [Re.search_from] in H.
    destruct (Re.match_here ic r prev (String c s)).
    + injection H as <-. exists (String c s). reflexivity.
    + destruct (Re.search_from ic r (Some c) s) as [b|] eqn:Hs; [|discriminate].
      injection H as <-. apply prefix_of_cons. exact (IH _ _ Hs).
Qed.

Lemma lower_char_idempotent :
  forall c, Py.lower_char (Py.lower_char c) = Py.lower_char c.
Proof. intros [[] [] [] [] [] [] [] []]; reflexivity. Qed.

Lemma lower_idempotent : forall s, Py.lower (Py.lower s) = Py.lower s.
Proof.
  induction s as [|c s IH]; [reflexivity|].
  simpl. rewrite lower_char_idempotent, IH. reflexivity.
Qed.

Lemma lower_prefix :
  forall p s, prefix_of p s -> Py.lower s = s -> Py.lower p = p.
Proof.
  induction p as [|c p IH]; intros s (after & ->) Hs; [reflexivity|].
  rewrite append_cons in Hs. simpl in Hs. injection Hs as Hc Hrest.
  simpl. rewrite Hc. f_equal. apply (IH (p ++ after)%string); [|exact Hrest].
  exists after. reflexivity.
Qed.

Lemma lower_rstrip : forall s, Py.lower s = s -> Py.lower (Py.rstrip s) = Py.rstrip s.
Proof. intros s Hs. exact (lower_prefix _ _ (rstrip_prefix s) Hs). Qed.

Lemma lower_lstrip : forall s, Py.lower s = s -> Py.lower (Py.lstrip s) = Py.lstrip s.
Proof.
  induction s as [|c s IH]; intros Hs; [reflexivity|].
  simpl. destruct (Py.is_space c); [|exact Hs].
  simpl in Hs. injection Hs as _ Hs. exact (IH Hs).
Qed.

Lemma lower_strip : forall s, Py.lower s = s -> Py.lower (Py.strip s) = Py.strip s.
Proof. intros s Hs. unfold Py.strip. apply lower_rstrip, lower_lstrip. exact Hs. Qed.

(** A stripped string is empty or begins with a character that is not
    whitespace; so stripping one of its prefixes only drops its end. *)
Lemma strip_of_prefix :
  forall s before,
    Py.strip s = s -> prefix_of before s -> prefix_of (Py.strip before) s.
Proof.
  intros s before Hs Hpre.
  assert (Hl : Py.lstrip before = before).
  { destruct before as [|c b]; [reflexivity|].
    destruct Hpre as (after & Heq). rewrite append_cons in Heq.
    unfold Py.strip in Hs.
    destruct (lstrip_head s) as [Hnil | (d & t & Hd & Hspace)].
    - rewrite Hnil in Hs. cbn in Hs. rewrite <- Hs in Heq. discriminate.
    - rewrite Hd in Hs. destruct (rstrip_keeps_head d t Hspace) as (u & Hu).
      rewrite Hu in Hs. rewrite <- Hs in Heq. injection Heq as -> _.
      simpl. rewrite Hspace. reflexivity. }
  unfold Py.strip. rewrite Hl.
  exact (prefix_of_trans _ _ _ (rstrip_prefix before) Hpre).
Qed.

Lemma cut_at_first_spec :
  forall patterns s,
    Py.strip s = s -> Py.lower s = s ->
    prefix_of (cut_at_first patterns s) s
    /\ Py.strip (cut_at_first patterns s) = cut_at_first patterns s
    /\ Py.lower (cut_at_first patterns s) = cut_at_first patterns s.
Proof.
  induction patterns as [|pattern rest IH]; intros s Hstrip Hlower; cbn [cut_at_first].
  - split; [apply prefix_of_refl|]. split; assumption.
  - destruct (Re.search true pattern s) as [before|] eqn:Hsearch; [|exact (IH s Hstrip Hlower)].
    apply search_from_prefix in Hsearch.
    split; [exact (strip_of_prefix s before Hstrip Hsearch)|].
    split; [apply strip_idempotent|].
    apply lower_strip. exact (lower_prefix _ _ Hsearch Hlower).
Qed.

(** X24. The primary artist used for the lookups and as the cache key is
    always a beginning of the lowercased, stripped artist string; it has no
    whitespace at either end and no uppercase letter, and extracting it
    never fails: an artist string without a featuring indicator is its own
    primary artist, up to case and surrounding whitespace. *)
Theorem primary_artist_is_a_stripped_prefix :
  forall artist,
    prefix_of (_extract_primary_artist artist) (Py.strip (Py.lower artist))
    /\ Py.strip (_extract_primary_artist artist) = _extract_primary_artist artist
    /\ Py.lower (_extract_primary_artist artist) = _extract_primary_artist artist
    /\ ((forall pattern, In pattern featuring_patterns ->
           Re.search true pattern (Py.strip (Py.lower artist)) = None) ->
        _extract_primary_artist artist = Py.strip (Py.lower artist)).
Proof.
  intros artist. unfold _extract_primary_artist.
  destruct (cut_at_first_spec featuring_patterns (Py.strip (Py.lower artist)))
    as (Hpre & Hstrip & Hlower).
  - apply strip_idempotent.
  - apply lower_strip. apply lower_idempotent.
  - split; [exact Hpre|]. split; [exact Hstrip|]. split; [exact Hlower|].
    intros Hnone. generalize dependent featuring_patterns.
    intros patterns _ _ _ Hnone.
    induction patterns as [|pattern rest IH]; cbn [cut_at_first]; [reflexivity|].
    rewrite (Hnone pattern (or_introl eq_refl)).
    apply IH. intros p Hp. apply Hnone. right. exact Hp.
Qed.

Lemma primary_artist_is_a_stripped_prefix_witness :
  (forall pattern, In pattern featuring_patterns ->
     Re.search true pattern (Py.strip (Py.lower "  Cher ")) = None)
  /\ _extract_primary_artist "  Cher " = "cher"%string.
Proof.
  assert (Hnone : forall pattern, In pattern featuring_patterns ->
                    Re.search true pattern (Py.strip (Py.lower "  Cher ")) = None).
  { intros pattern Hin. unfold featuring_patterns in Hin. cbn [In] in Hin.
    repeat (destruct Hin as [<- | Hin]; [vm_compute; reflexivity|]).
    destruct Hin. }
  split; [exact Hnone|].
  rewrite (proj2 (proj2 (proj2 (primary_artist_is_a_stripped_prefix "  Cher "))) Hnone).
  vm_compute. reflexivity.
Defined.

End PrimaryArtistProperties.

(** ** Properties of the Last.fm tag analysis *)

Module LastFmProperties.
Import LastFmGenreAnalysis.
Local Open Scope Q_scope.

Lemma weights_at_most_one :
  forall keyword weight,
    In (keyword, weight) genre_relevance_weights -> 0 <= weight <= 1.
Proof.
  assert (H : forallb (fun entry : string * Q =>
                         Qle_bool 0 (snd entry) && Qle_bool (snd entry) 1)
                      genre_relevance_weights = true) by (vm_compute; reflexivity).
  intros keyword weight Hin. rewrite forallb_forall in H.
  specialize (H _ Hin). cbn [snd] in H. apply andb_prop in H.
  destruct H as [H0 H1]. apply Qle_bool_iff in H0, H1. split; assumption.
Qed.

Lemma partial_relevance_bounds :
  forall tag_name weights relevance,
    (forall keyword weight, In (keyword, weight) weights -> 0 <= weight <= 1) ->
    0 <= relevance <= 8 # 10 ->
    0 <= fold_left (partial_step tag_name) weights relevance <= 8 # 10.
Proof.
  intros tag_name. induction weights as [|[keyword weight] rest IH];
    intros relevance Hw Hr; cbn [fold_left]; [exact Hr|].
  apply IH; [intros k w Hin; apply (Hw k w); right; exact Hin|].
  unfold partial_step. cbn [fst snd].
  destruct (Py.contains keyword tag_name || Py.contains tag_name keyword); [|exact Hr].
  destruct (Hw keyword weight (or_introl eq_refl)) as [H0 H1].
  destruct (Q.max_spec relevance (weight * (8 # 10))) as [[_ ->] | [_ ->]]; lra.
Qed.

Lemma relevance_of_bounds : forall tag_name, 0 <= relevance_of tag_name <= 1.
Proof.
  intros tag_name. unfold relevance_of.
  destruct (Dict.get tag_name genre_relevance_weights) as [weight|] eqn:Hget.
  - apply DictFacts.get_some_in in Hget. exact (weights_at_most_one _ _ Hget).
  - destruct (partial_relevance_bounds tag_name genre_relevance_weights 0
                weights_at_most_one) as [H0 H1]; [lra|]. lra.
Qed.

Lemma analysed_spec :
  forall t g,
    analysed t = Some g ->
    name g = Py.lower (tag_name t)
    /\ count g = tag_count t
    /\ relevance g = relevance_of (Py.lower (tag_name t))
    /\ confidence g = Qmin (relevance g * (inject_Z (count g) / 100)) 1
    /\ 3 # 10 < relevance g <= 1.
Proof.
  intros t g H. unfold analysed in H.
  destruct (Qle_bool (relevance_of (Py.lower (tag_name t))) (3 # 10)) eqn:Hrel;
    [discriminate|].
  cbn [negb] in H. injection H as <-. cbn [name count relevance confidence].
  apply ClassifierFacts.Qle_bool_false in Hrel.
  repeat split; try reflexivity; [exact Hrel|].
  exact (proj2 (relevance_of_bounds _)).
Qed.

Lemma analyze_genre_relevance_spec :
  forall tags,
    Permutation (analyze_genre_relevance tags) (omap analysed tags)
    /\ StronglySorted (fun a b => confidence b <= confidence a)
                      (analyze_genre_relevance tags).
Proof.
  intros tags. unfold analyze_genre_relevance. split.
  - apply DictFacts.sort_desc_perm.
  - apply (DictFacts.sort_desc_sorted _ (fun a b => confidence a <= confidence b)).
    + intros a b H. apply negb_true_iff, ClassifierFacts.Qle_bool_false in H. lra.
    + intros a b H. apply negb_false_iff, Qle_bool_iff in H. exact H.
    + intros a b c. lra.
Qed.

(** X25. The analysis keeps exactly the tags whose relevance exceeds 0.3,
    strongest confidence first: every entry carries the lowercased name and
    the count of a tag of the response, a relevance above 0.3 and at most 1,
    and as confidence the relevance scaled by count/100 and capped at 1. A
    tag without a name is contained in every keyword and is kept with
    relevance 0.8. *)
Theorem analysed_tags_are_relevant_and_sorted :
  forall tags,
    StronglySorted (fun a b => confidence b <= confidence a)
                   (analyze_genre_relevance tags)
    /\ (forall g, In g (analyze_genre_relevance tags) ->
          3 # 10 < relevance g <= 1
          /\ confidence g <= 1
          /\ confidence g = Qmin (relevance g * (inject_Z (count g) / 100)) 1
          /\ exists t, In t tags
                       /\ name g = Py.lower (tag_name t)
                       /\ count g = tag_count t
                       /\ relevance g = relevance_of (name g))
    /\ (forall t, In t tags ->
          3 # 10 < relevance_of (Py.lower (tag_name t)) ->
          exists g, In g (analyze_genre_relevance tags)
                    /\ name g = Py.lower (tag_name t) /\ count g = tag_count t)
    /\ relevance_of "" == 8 # 10.
Proof.
  intros tags. destruct (analyze_genre_relevance_spec tags) as [Hperm Hsorted].
  split; [exact Hsorted|]. split; [|split].
  - intros g Hg. apply (Permutation_in _ Hperm) in Hg.
    apply ArtistClassificationProperties.in_omap in Hg. destruct Hg as (t & Ht & Hg).
    destruct (analysed_spec t g Hg) as (Hname & Hcount & Hrel & Hconf & Hrange).
    split; [exact Hrange|]. split; [rewrite Hconf; apply Q.le_min_r|].
    split; [exact Hconf|].
    exists t. rewrite Hname. repeat split; assumption.
  - intros t Ht Hrel. unfold analysed.
    assert (Hsome : exists g, analysed t = Some g
                              /\ name g = Py.lower (tag_name t)
                              /\ count g = tag_count t).
    { unfold analysed. apply ClassifierFacts.Qle_bool_false in Hrel. rewrite Hrel.
      cbn [negb]. eexists. split; [reflexivity|]. split; reflexivity. }
    destruct Hsome as (g & Hg & Hname & Hcount). exists g.
    split; [|split; assumption].
    apply (Permutation_in _ (Permutation_sym Hperm)).
    apply ArtistClassificationProperties.in_omap. exists t. split; assumption.
  - vm_compute. reflexivity.
Qed.

Lemma analysed_tags_are_relevant_and_sorted_witness :
  In {| tag_name := "Indie Rock"; tag_count := 80 |}
     [ {| tag_name := "seen live"; tag_count := 100 |};
       {| tag_name := "Indie Rock"; tag_count := 80 |} ]
  /\ 3 # 10 < relevance_of (Py.lower "Indie Rock")
  /\ exists g,
       In g (analyze_genre_relevance
               [ {| tag_name := "seen live"; tag_count := 100 |};
                 {| tag_name := "Indie Rock"; tag_count := 80 |} ])
       /\ name g = Py.lower "Indie Rock" /\ count g = 80%Z.
Proof.
  assert (Hin : In {| tag_name := "Indie Rock"; tag_count := 80 |}
                   [ {| tag_name := "seen live"; tag_count := 100 |};
                     {| tag_name := "Indie Rock"; tag_count := 80 |} ])
    by (right; left; reflexivity).
  assert (Hrel : 3 # 10 < relevance_of (Py.lower "Indie Rock"))
    by (vm_compute; reflexivity).
  split; [exact Hin|]. split; [exact Hrel|].
  exact (proj1 (proj2 (proj2 (analysed_tags_are_relevant_and_sorted _))) _ Hin Hrel).
Defined.

(** X26. At most five top genres are reported, each with a confidence above
    0.4 and at most 1, and a tag can only become a top genre when it was
    used more than 40 times: no relevance makes up for a smaller count. *)
Theorem top_genres_need_more_than_forty_uses :
  forall tags,
    (length (top_genres_of tags) <= 5)%nat
    /\ forall genre conf,
         In (genre, conf) (top_genres_of tags) ->
         4 # 10 < conf <= 1
         /\ exists g, In g (analyze_genre_relevance tags)
                      /\ name g = genre
                      /\ confidence g = conf
                      /\ (40 < count g)%Z.
Proof.
  intros tags. unfold top_genres_of, LastFmGenreClient.top_genres. split.
  - eapply Nat.le_trans; [apply filter_length_le|].
    rewrite length_firstn. lia.
  - intros genre conf Hin. apply filter_In in Hin. destruct Hin as [Hin Hconf].
    cbn [snd] in Hconf. apply negb_true_iff, ClassifierFacts.Qle_bool_false in Hconf.
    apply DictFacts.in_firstn_in in Hin. apply in_map_iff in Hin.
    destruct Hin as (g & Heq & Hg). injection Heq as <- <-.
    destruct (analyze_genre_relevance_spec tags) as [Hperm _].
    pose proof (Permutation_in _ Hperm Hg) as Hg'.
    apply ArtistClassificationProperties.in_omap in Hg'. destruct Hg' as (t & _ & Ht).
    destruct (analysed_spec t g Ht) as (_ & _ & _ & Hc & Hr0 & Hr1).
    assert (Hle : confidence g <= 1) by (rewrite Hc; apply Q.le_min_r).
    split; [split; assumption|].
    exists g. split; [exact Hg|]. split; [reflexivity|]. split; [reflexivity|].
    assert (Hscaled : 4 # 10 < relevance g * (inject_Z (count g) / 100)).
    { rewrite Hc in Hconf. apply Q.min_glb_lt_iff in Hconf. tauto. }
    destruct (Z.lt_ge_cases 40 (count g)) as [Hlt | Hge]; [exact Hlt|]. exfalso.
    assert (Hq : inject_Z (count g) <= 40).
    { change 40 with (inject_Z 40). rewrite <- Zle_Qle. lia. }
    unfold Qdiv in Hscaled. change (/ 100) with (1 # 100) in Hscaled.
    set (r := relevance g) in *. set (c := inject_Z (count g)) in *.
    assert (Hr : 0 < r) by lra.
    destruct (Qlt_le_dec c 0) as [Hneg | Hpos]; nra.
Qed.

Lemma top_genres_need_more_than_forty_uses_witness :
  In ("rock"%string, 90 # 100)
     (top_genres_of [ {| tag_name := "Rock"; tag_count := 90 |};
                      {| tag_name := "pop"; tag_count := 40 |} ])
  /\ exists g,
       In g (analyze_genre_relevance
               [ {| tag_name := "Rock"; tag_count := 90 |};
                 {| tag_name := "pop"; tag_count := 40 |} ])
       /\ name g = "rock"%string /\ (40 < count g)%Z.
Proof.
  assert (Hin : In ("rock"%string, 90 # 100)
                   (top_genres_of [ {| tag_name := "Rock"; tag_count := 90 |};
                                    {| tag_name := "pop"; tag_count := 40 |} ]))
    by (vm_compute; left; reflexivity).
  split; [exact Hin|].
  destruct (proj2 (top_genres_need_more_than_forty_uses _) _ _ Hin)
    as (_ & g & Hg & Hname & _ & Hcount).
  exists g. repeat split; assumption.
Defined.

End LastFmProperties.

(** ** Properties of the A&R insights *)

Module InsightProperties.
Import GenreClassificationSystem ArInsights.
Local Open Scope Q_scope.

Lemma agreement_from :
  forall cls agreement,
    List.NoDup (map fst agreement) ->
    List.NoDup (map fst (fold_left agreement_step cls agreement))
    /\ (forall genre,
          In genre (map fst (fold_left agreement_step cls agreement))
          <-> In genre (map fst agreement)
              \/ exists c, In c cls /\ _map_to_primary_genre (name c) = genre)
    /\ (forall genre,
          default [] (Dict.get genre (fold_left agreement_step cls agreement))
          = default [] (Dict.get genre agreement)
            ++ map source
                 (List.filter
                    (fun c => String.eqb (_map_to_primary_genre (name c)) genre) cls)).
Proof.
  induction cls as [|c cls IH]; intros agreement Hnd; cbn [fold_left].
  - split; [exact Hnd|]. split.
    + intros genre. split; [tauto | intros [H | (c & [] & _)]; exact H].
    + intros genre. cbn [List.filter map]. rewrite app_nil_r. reflexivity.
  - assert (Hnd1 : List.NoDup (map fst (agreement_step agreement c)))
      by (apply DictFacts.keys_upsert_nodup; exact Hnd).
    destruct (IH (agreement_step agreement c) Hnd1) as (Hnd' & Hkeys & Hsources).
    split; [exact Hnd'|]. split.
    + intros genre. rewrite Hkeys. unfold agreement_step at 1.
      rewrite DictFacts.keys_upsert_in. split.
      * intros [[-> | H] | (c' & Hc' & Hmap)].
        -- right. exists c. split; [left; reflexivity | reflexivity].
        -- left. exact H.
        -- right. exists c'. split; [right; exact Hc' | exact Hmap].
      * intros [H | (c' & [<- | Hc'] & Hmap)].
        -- left. right. exact H.
        -- left. left. symmetry. exact Hmap.
        -- right. exists c'. split; assumption.
    + intros genre. rewrite Hsources. cbn [List.filter]. unfold agreement_step.
      destruct (String.eqb_spec (_map_to_primary_genre (name c)) genre) as [<- | Hne].
      * rewrite DictFacts.get_upsert_same. cbn [map].
        change (default [] (Some ?x)) with x.
        rewrite <- app_assoc. reflexivity.
      * rewrite DictFacts.get_upsert_other by congruence. reflexivity.
Qed.

(** X27. The source consensus lists exactly the primary genres that at
    least two classifications map to, each with the sources of those
    classifications in order, a source being listed once per
    classification: two genres of one source that map to the same primary
    genre count as agreement. *)
Theorem source_consensus_needs_two_classifications :
  forall profile genre sources,
    In (genre, sources) (source_consensus (_generate_ar_insights profile))
    <-> sources
        = map source
            (List.filter
               (fun c => String.eqb (_map_to_primary_genre (name c)) genre)
               (classifications profile))
        /\ (1 < length sources)%nat.
Proof.
  intros profile genre sources. cbn [_generate_ar_insights source_consensus].
  rewrite filter_In. cbn [snd]. rewrite Nat.ltb_lt. unfold source_agreement.
  destruct (agreement_from (classifications profile) [] (List.NoDup_nil _))
    as (Hnd & Hkeys & Hsources).
  specialize (Hsources genre). cbn [Dict.get] in Hsources.
  change (default [] None) with (@nil string) in Hsources. cbn [app] in Hsources.
  split.
  - intros [Hin Hlen]. split; [|exact Hlen].
    apply (DictFacts.in_get_nodup _ _ _ Hnd) in Hin. rewrite Hin in Hsources.
    exact Hsources.
  - intros [Heq Hlen]. split; [|exact Hlen].
    destruct (Dict.get genre (fold_left agreement_step (classifications profile) []))
      as [found|] eqn:Hget.
    + apply DictFacts.get_some_in in Hget.
      change (default [] (Some found)) with found in Hsources.
      rewrite Heq, <- Hsources. exact Hget.
    + change (default [] None) with (@nil string) in Hsources.
      rewrite <- Hsources in Heq. subst sources. cbn in Hlen. lia.
Qed.

Lemma source_consensus_needs_two_classifications_witness :
  In ("pop"%string, ["spotify"; "spotify"]%string)
     (source_consensus
        (_generate_ar_insights
           {| artist_name := "Cher";
              classifications :=
                [ classification_of "spotify" "algorithmic" (7 # 10) "dance pop";
                  classification_of "spotify" "algorithmic" (7 # 10) "pop" ];
              confidence_score := 1; primary_genre := Some "pop"%string;
              secondary_tags := []; crossover_indicators := [] |})).
Proof.
  apply (proj2 (source_consensus_needs_two_classifications _ _ _)).
  split; [vm_compute; reflexivity | cbn; lia].
Defined.

Lemma crossover_indicators_at_most_three :
  forall profile,
    (length (_detect_crossover_indicators profile) <= 3)%nat.
Proof.
  intros profile. unfold _detect_crossover_indicators. rewrite length_app.
  destruct (Dict.sort_desc _ _) as [|first [|second rest]];
    try destruct (negb (Qle_bool (snd second) (snd first * (6 # 10))));
    destruct (5 <? length (secondary_tags profile))%nat; cbn [length]; lia.
Qed.

(** X28. For a profile the engine produced from at least one
    classification, the insights report its primary genre and confidence as
    the market positioning; the crossover score is the number of indicators
    over three and never exceeds 1; crossover marketing is recommended
    exactly when the profile has an indicator; and the high-confidence and
    the low-confidence recommendation are never given together. *)
Theorem insights_of_an_engine_profile :
  forall list_set profile,
    classifications profile <> [] ->
    (exists genre,
       primary_genre (_apply_ari_reasoning_engine list_set profile) = Some genre
       /\ market_positioning
            (_generate_ar_insights (_apply_ari_reasoning_engine list_set profile))
          = Some (genre,
                  confidence_score (_apply_ari_reasoning_engine list_set profile)))
    /\ match crossover_potential
               (_generate_ar_insights (_apply_ari_reasoning_engine list_set profile)) with
       | Some (indicators, score) =>
           indicators = crossover_indicators (_apply_ari_reasoning_engine list_set profile)
           /\ indicators <> []
           /\ score == inject_Z (Z.of_nat (length indicators)) / 3
           /\ 0 < score <= 1
       | None => crossover_indicators (_apply_ari_reasoning_engine list_set profile) = []
       end
    /\ (In "consider_crossover_marketing"%string
           (recommendations
              (_generate_ar_insights (_apply_ari_reasoning_engine list_set profile)))
        <-> crossover_indicators (_apply_ari_reasoning_engine list_set profile) <> [])
    /\ ~ (In "high_confidence_classification"%string
            (recommendations
               (_generate_ar_insights (_apply_ari_reasoning_engine list_set profile)))
          /\ In "low_confidence_requires_review"%string
               (recommendations
                  (_generate_ar_insights (_apply_ari_reasoning_engine list_set profile)))).
Proof.
  intros list_set profile Hne.
  destruct (EngineProperties.engine_on_votes list_set profile Hne)
    as ([genre weight] & _ & Hin & Hprimary & _ & Hcross).
  cbn [fst] in Hprimary, Hcross.
  set (result := _apply_ari_reasoning_engine list_set profile) in *.
  split; [|split; [|split]].
  - exists genre. split; [exact Hprimary|].
    cbn [_generate_ar_insights market_positioning]. rewrite Hprimary.
    assert (Htruthy : Py.truthy genre = true).
    { destruct (EngineProperties.accumulate_spec (classifications profile))
        as (_ & Hkeys & _).
      assert (Hkey : In genre (map fst (accumulate (classifications profile)))).
      { change genre with (fst (genre, weight)). apply in_map. exact Hin. }
      apply Hkeys in Hkey. destruct Hkey as (c & _ & <-).
      pose proof (EngineProperties.map_in_primary_genres (name c)) as Hp.
      unfold primary_genres in Hp. cbn [In] in Hp.
      repeat (destruct Hp as [<- | Hp]; [reflexivity|]). destruct Hp. }
    rewrite Htruthy. reflexivity.
  - cbn [_generate_ar_insights crossover_potential].
    pose proof (crossover_indicators_at_most_three
                  {| artist_name := artist_name profile;
                     classifications := classifications profile;
                     confidence_score := confidence_score result;
                     primary_genre := Some genre;
                     secondary_tags :=
                       firstn 10 (list_set (collected_tags (classifications profile)));
                     crossover_indicators := crossover_indicators profile |}) as Hlen.
    rewrite <- Hcross in Hlen.
    destruct (crossover_indicators result) as [|i rest] eqn:Hind; [reflexivity|].
    split; [reflexivity|]. split; [discriminate|]. split; [reflexivity|].
    assert (Hn : 1 <= inject_Z (Z.of_nat (length (i :: rest))) <= 3).
    { split.
      - change 1 with (inject_Z 1). rewrite <- Zle_Qle. cbn [length]. lia.
      - change 3 with (inject_Z 3). rewrite <- Zle_Qle. lia. }
    set (n := inject_Z (Z.of_nat (length (i :: rest)))) in *.
    unfold Qdiv. change (/ 3) with (1 # 3). lra.
  - cbn [_generate_ar_insights recommendations]. rewrite in_app_iff.
    destruct (crossover_indicators result) as [|i rest].
    + split; [|congruence]. intros [H | []].
      destruct (negb (Qle_bool (confidence_score result) (8 # 10)));
        [|destruct (negb (Qle_bool (5 # 10) (confidence_score result)))];
        cbn in H; intuition discriminate.
    + split; [discriminate|]. intros _. right. left. reflexivity.
  - cbn [_generate_ar_insights recommendations]. rewrite !in_app_iff.
    intros [[H1 | H1] [H2 | H2]];
      destruct (negb (Qle_bool (confidence_score result) (8 # 10)));
      try destruct (negb (Qle_bool (5 # 10) (confidence_score result)));
      destruct (crossover_indicators result);
      cbn in H1, H2; intuition discriminate.
Qed.

Lemma insights_of_an_engine_profile_witness :
  classifications
    {| artist_name := "Cher";
       classifications :=
         [ classification_of "lastfm" "community" 1 "pop";
           classification_of "lastfm" "community" (7 # 10) "rock" ];
       confidence_score := 0; primary_genre := None; secondary_tags := [];
       crossover_indicators := [] |} <> []
  /\ In "consider_crossover_marketing"%string
        (recommendations
           (_generate_ar_insights
              (_apply_ari_reasoning_engine ProducerGenrePatterns.insertion_order
                 {| artist_name := "Cher";
                    classifications :=
                      [ classification_of "lastfm" "community" 1 "pop";
                        classification_of "lastfm" "community" (7 # 10) "rock" ];
                    confidence_score := 0; primary_genre := None; secondary_tags := [];
                    crossover_indicators := [] |}))).
Proof.
  assert (Hne : classifications
                  {| artist_name := "Cher";
                     classifications :=
                       [ classification_of "lastfm" "community" 1 "pop";
                         classification_of "lastfm" "community" (7 # 10) "rock" ];
                     confidence_score := 0; primary_genre := None; secondary_tags := [];
                     crossover_indicators := [] |} <> []) by discriminate.
  split; [exact Hne|].
  apply (proj1 (proj2 (proj2 (insights_of_an_engine_profile
                                ProducerGenrePatterns.insertion_order _ Hne)))).
  vm_compute. discriminate.
Defined.

End InsightProperties.
